(** * Jimaku subtitle provider: a shallow embedding and its properties

    The development follows [custom_libs/subliminal_patch/providers/jimaku.py]:
    the result type [JimakuSubtitle] with its match scoring, and the provider
    [JimakuProvider] with its query / filter pipeline, its rate-limit aware
    fetcher and its retrieval step.

    Python values that come out of [response.json()] are embedded as [json];
    exceptions are values of [exn]; code that talks to the session, sleeps,
    logs or consults a [functools.cache] runs in the state-and-exception
    monad [M] over a [World]. *)

From Stdlib Require Import ZArith QArith Lqa String Ascii Strings.Byte List Bool Lia.
From Stdlib Require Import Numbers.DecimalString Numbers.DecimalZ Numbers.DecimalPos.
From stdpp Require Import base option gmap strings list.

Local Set Warnings "-register-all".

Local Open Scope string_scope.
Local Open Scope Z_scope.

(** ** Python strings

    A [str] is embedded as the [string] of its UTF-8 bytes.  The operations
    below that search for an ASCII text ([startswith], [in], [endswith])
    give on the bytes what Python gives on the characters; lengths and
    positions are those of a text of ASCII characters.  The case mapping
    [lower] is the one [str.lower()] applies to a text of ASCII characters;
    on any other text [str.lower()] follows the Unicode tables, which are a
    collaborator ([unicode_lower] below). *)

Module PyStr.

Definition lower_ascii (c : ascii) : ascii :=
  let n := nat_of_ascii c in
  if (65 <=? n)%nat && (n <=? 90)%nat then ascii_of_nat (n + 32) else c.

(** [s.lower()] for a text of ASCII characters *)
Fixpoint lower (s : string) : string :=
  match s with
  | EmptyString => EmptyString
  | String c s' => String (lower_ascii c) (lower s')
  end.

(** [s.isascii()]: every byte is below 128 *)
Fixpoint is_ascii (s : string) : bool :=
  match s with
  | EmptyString => true
  | String c s' => (nat_of_ascii c <? 128)%nat && is_ascii s'
  end.

(** [s.startswith(p)] *)
Fixpoint startswith (s p : string) : bool :=
  match p, s with
  | EmptyString, _ => true
  | String _ _, EmptyString => false
  | String a p', String b s' => if Ascii.eqb a b then startswith s' p' else false
  end.

(** [needle in hay] on two strings *)
Fixpoint contains (needle hay : string) : bool :=
  startswith hay needle ||
  match hay with
  | EmptyString => false
  | String _ hay' => contains needle hay'
  end.

(** [s.endswith(suffix)] for one suffix: some tail of [s] is the suffix. *)
Fixpoint endswith (s suffix : string) : bool :=
  String.eqb s suffix ||
  match s with
  | EmptyString => false
  | String _ s' => endswith s' suffix
  end.

(** [s.endswith(suffixes)] for a tuple of suffixes *)
Definition endswith_any (s : string) (suffixes : list string) : bool :=
  existsb (endswith s) suffixes.

(** [str(n)] for an [int] *)
Definition of_Z (z : Z) : string := NilZero.string_of_int (Z.to_int z).

(** [str(x)] / the f-string rendering of an optional [int] *)
Definition of_opt_Z (o : option Z) : string :=
  match o with
  | Some z => of_Z z
  | None => "None"
  end.

(** the f-string rendering of an optional [str] *)
Definition of_opt_str (o : option string) : string :=
  match o with
  | Some s => s
  | None => "None"
  end.

(** truth value of a string *)
Definition truthy (s : string) : bool := negb (String.eqb s EmptyString).

(** the one-character string [s[i]], [None] standing for [IndexError] *)
Definition char_at (s : string) (i : nat) : option string :=
  match String.get i s with
  | Some c => Some (String c EmptyString)
  | None => None
  end.

End PyStr.

(** ** Exceptions *)

Inductive exn : Type :=
  | ConfigurationError
  | AuthenticationError
  | APIThrottled
  | HTTPError
  | TransportError          (* timeouts and connection errors of [requests] *)
  | InvalidURL              (* [MissingSchema], [InvalidSchema], [InvalidURL]: raised by
                               [requests] for a url it does not send *)
  | OverflowError
  | JSONDecodeError
  | AttributeError
  | TypeError
  | KeyError
  | IndexError
  | ValueError
  | LibraryError (tag : nat). (* an exception raised inside an external helper *)

Inductive Outcome (A : Type) : Type :=
  | Ok (a : A)
  | Raise (e : exn).
Arguments Ok {A} a.
Arguments Raise {A} e.

(** ** Values decoded from JSON

    [JNull] is Python's [None]; numbers are the integers the catalog sends
    (identifiers and byte sizes); a [dict] keeps its items in order, a key
    is looked up at its first occurrence. *)

Inductive json : Type :=
  | JNull
  | JBool (b : bool)
  | JInt (z : Z)
  | JStr (s : string)
  | JList (l : list json)
  | JDict (d : list (string * json)).

Module Py.

Fixpoint assoc (k : string) (d : list (string * json)) : option json :=
  match d with
  | [] => None
  | (k', v) :: d' => if String.eqb k k' then Some v else assoc k d'
  end.

(** truth value of an object, as [not x] and [if x] use it *)
Definition truthy (v : json) : bool :=
  match v with
  | JNull => false
  | JBool b => b
  | JInt z => negb (z =? 0)
  | JStr s => negb (String.eqb s EmptyString)
  | JList l => match l with [] => false | _ => true end
  | JDict d => match d with [] => false | _ => true end
  end.

(** [len(x)] *)
Definition len (v : json) : Outcome Z :=
  match v with
  | JStr s => Ok (Z.of_nat (String.length s))
  | JList l => Ok (Z.of_nat (List.length l))
  | JDict d => Ok (Z.of_nat (List.length d))
  | _ => Raise TypeError
  end.

Definition is_str (k : string) (v : json) : bool :=
  match v with
  | JStr s => String.eqb s k
  | _ => false
  end.

(** [k in x] for a string literal [k] *)
Definition contains_key (k : string) (v : json) : Outcome bool :=
  match v with
  | JStr s => Ok (PyStr.contains k s)
  | JList l => Ok (existsb (is_str k) l)
  | JDict d => Ok (match assoc k d with Some _ => true | None => false end)
  | _ => Raise TypeError
  end.

(** [x.get(k)], with [None] as the default *)
Definition get (v : json) (k : string) : Outcome json :=
  match v with
  | JDict d => Ok (match assoc k d with Some x => x | None => JNull end)
  | _ => Raise AttributeError
  end.

(** [x.get(k, default)] *)
Definition get_default (v : json) (k : string) (default : json) : Outcome json :=
  match v with
  | JDict d => Ok (match assoc k d with Some x => x | None => default end)
  | _ => Raise AttributeError
  end.

(** [x[k]] for a string literal [k] *)
Definition getitem_str (v : json) (k : string) : Outcome json :=
  match v with
  | JDict d => match assoc k d with Some x => Ok x | None => Raise KeyError end
  | JStr _ | JList _ => Raise TypeError
  | _ => Raise TypeError
  end.

(** [x[0]] *)
Definition getitem_0 (v : json) : Outcome json :=
  match v with
  | JList l => match l with x :: _ => Ok x | [] => Raise IndexError end
  | JStr s => match s with
              | String c _ => Ok (JStr (String c EmptyString))
              | EmptyString => Raise IndexError
              end
  | JDict _ => Raise KeyError
  | _ => Raise TypeError
  end.

(** the items [for item in x] visits *)
Definition iter (v : json) : Outcome (list json) :=
  match v with
  | JList l => Ok l
  | JStr s => Ok (map (fun c => JStr (String c EmptyString)) (list_ascii_of_string s))
  | JDict d => Ok (map (fun kv => JStr (fst kv)) d)
  | _ => Raise TypeError
  end.

(** the receiver of a [str] method ([x.endswith], [x.lower]): any other
    object has no such attribute *)
Definition as_str (v : json) : Outcome string :=
  match v with
  | JStr s => Ok s
  | _ => Raise AttributeError
  end.

(** [x < n] for an [int] bound [n]; a [bool] compares as 0 or 1 *)
Definition lt_int (v : json) (n : Z) : Outcome bool :=
  match v with
  | JInt z => Ok (z <? n)
  | JBool b => Ok ((if b then 1 else 0) <? n)
  | _ => Raise TypeError
  end.

End Py.

(** ** Floats, as far as the rate-limit delay needs them *)

Inductive pyfloat : Type :=
  | Fin (q : Q)
  | PosInf
  | NegInf
  | NaN.

Module PyFloat.

(** [float(n)] for an [int] *)
Definition of_Z (n : Z) : pyfloat := Fin (inject_Z n).

(** [x > y] *)
Definition gt (x y : pyfloat) : bool :=
  match x, y with
  | NaN, _ | _, NaN => false
  | PosInf, PosInf => false
  | PosInf, _ => true
  | _, PosInf => false
  | NegInf, _ => false
  | Fin _, NegInf => true
  | Fin a, Fin b => negb (Qle_bool a b)
  end.

End PyFloat.

(** ** The data model *)

Definition bytes := list byte.

(** Modelled from the spec: the video identity, whose classes
    ([subliminal.video.Episode] and [Movie]) are not part of this file.  It is
    a closed union of two variants carrying their own attributes: an episode
    has a series, alternative series, a season and an episode number, and the
    title of the episode when it is known ([Episode.title], [None]
    otherwise); a movie has a title and alternative titles, and neither a
    series, a season nor an episode number.  The attributes common to both
    are in [Video], with the two the provider reads for the external
    identifier and the offset episode number. *)
Record EpisodeAttrs : Type := {
  series : string;
  alternative_series : list string;
  season : option Z;
  episode : option Z;
  episode_title : option string
}.

Record MovieAttrs : Type := {
  title : string;
  alternative_titles : list string
}.

Inductive VideoKind : Type :=
  | Episode (e : EpisodeAttrs)
  | Movie (m : MovieAttrs).

Record Video : Type := {
  kind : VideoKind;
  year : option Z;
  release_group : option string;
  anilist_id : option Z;
  series_anidb_episode_no : option Z
}.

(** [isinstance(video, Episode)], [isinstance(video, Movie)] *)
Definition is_Episode (v : Video) : bool :=
  match kind v with Episode _ => true | Movie _ => false end.

Definition is_Movie (v : Video) : bool :=
  match kind v with Movie _ => true | Episode _ => false end.

(** Attribute reads; an attribute the variant does not have is an
    [AttributeError].  [title] is an attribute of both: the title of the
    movie, or the title of the episode ([None] when unknown). *)
Definition video_series (v : Video) : Outcome string :=
  match kind v with Episode e => Ok (series e) | Movie _ => Raise AttributeError end.

Definition video_alternative_series (v : Video) : Outcome (list string) :=
  match kind v with Episode e => Ok (alternative_series e) | Movie _ => Raise AttributeError end.

Definition video_season (v : Video) : Outcome (option Z) :=
  match kind v with Episode e => Ok (season e) | Movie _ => Raise AttributeError end.

Definition video_episode (v : Video) : Outcome (option Z) :=
  match kind v with Episode e => Ok (episode e) | Movie _ => Raise AttributeError end.

Definition video_title (v : Video) : Outcome (option string) :=
  match kind v with Movie m => Ok (Some (title m)) | Episode e => Ok (episode_title e) end.

Definition video_alternative_titles (v : Video) : Outcome (list string) :=
  match kind v with Movie m => Ok (alternative_titles m) | Episode _ => Raise AttributeError end.

(** [class JimakuSubtitle(Subtitle)]; [content] is [None] until a download
    attaches a payload. *)
Record JimakuSubtitle : Type := {
  language : string;
  video : Video;
  subtitle_id : string;
  subtitle_url : json;
  subtitle_filename : string;
  release_info : string;
  content : option bytes
}.

Definition provider_name : string := "jimaku".
Definition hash_verifiable : bool := false.

(** [JimakuSubtitle.__init__] *)
Definition JimakuSubtitle_init (video : Video) (subtitle_id : string)
    (subtitle_url : json) (subtitle_filename : string) : JimakuSubtitle :=
  {| language := "jpn";
     video := video;
     subtitle_id := subtitle_id;
     subtitle_url := subtitle_url;
     subtitle_filename := subtitle_filename;
     release_info := subtitle_filename;
     content := None |}.

(** [self.video], for where a parameter is called [video] too *)
Definition self_video (self : JimakuSubtitle) : Video := video self.

(** the [id] property *)
Definition id_ (s : JimakuSubtitle) : string := subtitle_id s.

(** [subtitle.content = c] *)
Definition set_content (s : JimakuSubtitle) (c : option bytes) : JimakuSubtitle :=
  {| language := language s;
     video := video s;
     subtitle_id := subtitle_id s;
     subtitle_url := subtitle_url s;
     subtitle_filename := subtitle_filename s;
     release_info := release_info s;
     content := c |}.

(** What a [requests] response exposes: [json_body] is what [response.json()]
    decodes from the body, [None] when the body is not JSON. *)
Record Response : Type := {
  status_code : Z;
  headers : list (string * string);
  body : bytes;
  json_body : option json
}.

Record Session : Type := {
  session_headers : list (string * string)
}.

(** [class JimakuProvider(Provider)]: [self_id] is the identity of the
    instance, the rest are its attributes; [episode_number_override] is the
    class attribute, [False] unless it is set. *)
Record JimakuProvider : Type := {
  self_id : nat;
  api_key : string;
  enable_archives : bool;
  enable_ai_subs : bool;
  session : option Session;
  episode_number_override : bool
}.

Definition api_url : string := "https://jimaku.cc/api".
Definition api_ratelimit_max_delay_seconds : Z := 5.
Definition api_ratelimit_backoff_limit : Z := 3.
Definition corrupted_file_size_threshold : Z := 500.

(** ** Signals: log records and sleeps *)

Inductive level : Type := DEBUG | INFO | WARNING | ERROR.

Inductive message : Type :=
  | MsgGuessit (keys : list string)
  | MsgMatchedEntry (entry_id anilist_id name english_name : json)
  | MsgUnverified (entry_id : json)
  | MsgRetryOffset (episode_number offset_number : option Z)
  | MsgArchivesOnly
  | MsgSkipAI (subtitle_filename : json)
  | MsgSkipCorrupt (subtitle_filename subtitle_filesize : json)
  | MsgSkipArchive (subtitle_filename : json) (enable_archives : bool)
  | MsgNotAnArchive
  | MsgIsRar
  | MsgIsZip
  | MsgNoArchive
  | MsgRatelimit (reset_time : pyfloat) (retry_count limit : Z)
  | MsgLength (url : string) (n : Z)
  | MsgNoItems (url_path : string)
  | MsgApiError (error code : json)
  | MsgSearchById (anilist_id : Z)
  | MsgSearchByName (media_name : string).

Inductive signal : Type :=
  | Log (l : level) (m : message)
  | Sleep (seconds : pyfloat).

(** ** The world the provider runs in

    [remote n url] is what the [n]-th GET of the run yields when it asks for
    [url]; [requests] lists the GETs issued so far, [signals] the log records
    and sleeps, oldest first.  The two [functools.cache] stores live as long
    as the process: [response_cache] for [_get_jimaku_response], keyed by the
    instance and the path, [url_cache] for [_assemble_jimaku_search_url]. *)
Record World : Type := {
  remote : nat -> string -> Outcome Response;
  requests : list string;
  signals : list signal;
  response_cache : gmap (nat * string) json;
  url_cache : list ((nat * Video * string) * string)
}.

Definition with_requests (w : World) (r : list string) : World :=
  {| remote := remote w; requests := r; signals := signals w;
     response_cache := response_cache w; url_cache := url_cache w |}.

Definition with_signals (w : World) (s : list signal) : World :=
  {| remote := remote w; requests := requests w; signals := s;
     response_cache := response_cache w; url_cache := url_cache w |}.

Definition with_response_cache (w : World) (c : gmap (nat * string) json) : World :=
  {| remote := remote w; requests := requests w; signals := signals w;
     response_cache := c; url_cache := url_cache w |}.

Definition with_url_cache (w : World)
    (c : list ((nat * Video * string) * string)) : World :=
  {| remote := remote w; requests := requests w; signals := signals w;
     response_cache := response_cache w; url_cache := c |}.

(** ** The monad of stateful, fallible code *)

Definition M (A : Type) : Type := World -> Outcome A * World.

Definition ret {A} (a : A) : M A := fun w => (Ok a, w).

Definition raise {A} (e : exn) : M A := fun w => (Raise e, w).

Definition bind {A B} (c : M A) (k : A -> M B) : M B :=
  fun w =>
    match c w with
    | (Ok a, w') => k a w'
    | (Raise e, w') => (Raise e, w')
    end.

(** a pure computation that may raise *)
Definition lift {A} (o : Outcome A) : M A := fun w => (o, w).

Notation "'let*' x ':=' c 'in' k" := (bind c (fun x => k))
  (at level 10, x name, c at level 100, k at level 200).
Notation "c ';;' k" := (bind c (fun _ => k))
  (at level 100, k at level 200, right associativity).

(** [logger.<level>(...)] *)
Definition log (l : level) (m : message) : M unit :=
  fun w => (Ok tt, with_signals w (signals w ++ [Log l m])).

(** [time.sleep] turns its argument into a count of nanoseconds that has to
    fit a signed 64-bit integer. *)
Definition fits_nanoseconds (q : Q) : bool :=
  Qle_bool (inject_Z (- 2 ^ 63)) (q * inject_Z (10 ^ 9)) &&
  negb (Qle_bool (inject_Z (2 ^ 63)) (q * inject_Z (10 ^ 9))).

(** [time.sleep(seconds)]: not-a-number is a [ValueError]; a delay that does
    not fit is an [OverflowError], the infinities among them; a negative
    delay that fits is a [ValueError]. *)
Definition sleep (seconds : pyfloat) : M unit :=
  fun w =>
    match seconds with
    | Fin q =>
        if fits_nanoseconds q then
          if Qle_bool 0 q
          then (Ok tt, with_signals w (signals w ++ [Sleep seconds]))
          else (Raise ValueError, w)
        else (Raise OverflowError, w)
    | PosInf => (Raise OverflowError, w)
    | NegInf => (Raise OverflowError, w)
    | NaN => (Raise ValueError, w)
    end.

(** how a loop body ends: with a [return], or by reaching its end, which
    hands control back to the loop test *)
Inductive flow (A S : Type) : Type :=
  | Return (a : A)
  | Next (s : S).
Arguments Return {A S} a.
Arguments Next {A S} s.

(** [for x in items: s = body(x, s)] *)
Fixpoint for_each {A S} (items : list A) (body : A -> S -> M S) (s : S) : M S :=
  match items with
  | [] => ret s
  | x :: rest => let* s' := body x s in for_each rest body s'
  end.

(** ** External collaborators

    Library functions the provider calls and whose code is not part of it. *)
Record Externals : Type := {
  short_version : string;                        (* [subliminal.__short_version__] *)
  unicode_lower : string -> string;              (* [str.lower] on a text that is not ASCII *)
  url_accepted : string -> bool;                 (* [requests] prepares the url and has an
                                                    adapter for it: it sends the request *)
  sanitize : string -> string;                   (* [subliminal.utils.sanitize] *)
  guessit : string -> string -> list string;     (* keys of [guessit(name, {'type': t})], in order *)
  quote_plus : string -> string;                 (* [urllib.parse.quote_plus] *)
  float_of_str : string -> option pyfloat;       (* [float(s)]; [None] is its [ValueError] *)
  repr : json -> string;                         (* [str(x)] of a list or a dict *)
  archive : Type;                                (* an open [RarFile] or [ZipFile] *)
  is_rarfile : bytes -> bool;                    (* [rarfile.is_rarfile] *)
  RarFile : bytes -> Outcome archive;            (* [rarfile.RarFile] *)
  is_zipfile : bytes -> bool;                    (* [zipfile.is_zipfile] *)
  ZipFile : bytes -> Outcome archive;            (* [zipfile.ZipFile] *)
  get_subtitle_from_archive :                    (* [providers.utils.get_subtitle_from_archive] *)
    archive -> option Z -> Outcome (option bytes)
}.

#[global] Instance EpisodeAttrs_eq_dec : EqDecision EpisodeAttrs.
Proof. solve_decision. Defined.
#[global] Instance MovieAttrs_eq_dec : EqDecision MovieAttrs.
Proof. solve_decision. Defined.
#[global] Instance VideoKind_eq_dec : EqDecision VideoKind.
Proof. solve_decision. Defined.
#[global] Instance Video_eq_dec : EqDecision Video.
Proof. solve_decision. Defined.

Section Jimaku.

Context (X : Externals).

(** [s.lower()] *)
Definition str_lower (s : string) : string :=
  if PyStr.is_ascii s then PyStr.lower s else unicode_lower X s.

(** [str(x)], which is also how an f-string renders [x] *)
Definition py_str (v : json) : string :=
  match v with
  | JNull => "None"
  | JBool true => "True"
  | JBool false => "False"
  | JInt z => PyStr.of_Z z
  | JStr s => s
  | JList _ | JDict _ => repr X v
  end.

(** ** JimakuSubtitle.get_matches *)

(** [for g in guess: ...]: [g] runs over the keys of the guess. *)
Fixpoint guess_loop (video : Video) (guess : list string) (matches : gset string)
    : Outcome (gset string) :=
  match guess with
  | [] => Ok matches
  | g :: rest =>
      match PyStr.char_at g 0 with
      | None => Raise IndexError
      | Some g0 =>
          (* [g[0] == "release_group" or "source"] *)
          if String.eqb g0 "release_group" || PyStr.truthy "source" then
            match PyStr.char_at g 1 with
            | None => Raise IndexError
            | Some g1 =>
                if decide (release_group video = Some g1)
                then Ok (matches ∪ {["release_group"]})   (* [break] *)
                else guess_loop video rest matches
            end
          else guess_loop video rest matches
      end
  end.

Definition truthy_opt_Z (o : option Z) : bool :=
  match o with
  | Some z => negb (z =? 0)
  | None => false
  end.

Definition get_matches (self : JimakuSubtitle) (video : Video) : M (gset string) :=
  let matches : gset string := ∅ in
  (* Episode/Movie specific matches *)
  let* matches :=
    match kind video with
    | Episode e =>
        let* matches :=
          if PyStr.truthy (sanitize X (series e)) then
            let* self_series := lift (video_series (self_video self)) in
            if existsb (String.eqb (sanitize X self_series))
                 (map (sanitize X) ([series e] ++ alternative_series e))
            then ret (matches ∪ {["series"]})
            else ret matches
          else ret matches in
        if truthy_opt_Z (season e) then
          let* self_season := lift (video_season (self_video self)) in
          match self_season with
          | None => ret (matches ∪ {["season"]})
          | Some _ =>
              if decide (season e = self_season)
              then ret (matches ∪ {["season"]})
              else ret matches
          end
        else ret matches
    | Movie m =>
        if PyStr.truthy (sanitize X (title m)) then
          let* self_title := lift (video_title (self_video self)) in
          match self_title with
          | Some t =>
              if existsb (String.eqb (sanitize X t))
                   (map (sanitize X) ([title m] ++ alternative_titles m))
              then ret (matches ∪ {["title"]})
              else ret matches
          | None =>
              (* [sanitize(None)] is [None], which is none of the names *)
              ret matches
          end
        else ret matches
    end in
  (* General matches *)
  let matches :=
    if truthy_opt_Z (year video) &&
       bool_decide (year video = year (self_video self))
    then matches ∪ {["year"]} else matches in
  let video_type := if is_Movie video then "movie" else "episode" in
  let matches := matches ∪ {[video_type]} in
  let guess := guessit X (subtitle_filename self) video_type in
  log DEBUG (MsgGuessit guess);;
  lift (guess_loop video guess matches).

(** ** JimakuProvider: construction and session *)

(** [__init__]; [self_id] is the identity of the new object. *)
Definition JimakuProvider_init (self_id : nat) (enable_archives enable_ai_subs : bool)
    (api_key : option string) : Outcome JimakuProvider :=
  match api_key with
  | Some k =>
      if PyStr.truthy k then
        Ok {| self_id := self_id; api_key := k;
              enable_archives := enable_archives; enable_ai_subs := enable_ai_subs;
              session := None; episode_number_override := false |}
      else Raise ConfigurationError
  | None => Raise ConfigurationError
  end.

Definition with_session (p : JimakuProvider) (s : option Session) : JimakuProvider :=
  {| self_id := self_id p; api_key := api_key p;
     enable_archives := enable_archives p; enable_ai_subs := enable_ai_subs p;
     session := s; episode_number_override := episode_number_override p |}.

Definition initialize (p : JimakuProvider) : JimakuProvider :=
  with_session p
    (Some {| session_headers :=
               [("User-Agent", "Subliminal/" ++ short_version X);
                ("Content-Type", "application/json");
                ("Authorization", api_key p)] |}).

Definition terminate (p : JimakuProvider) : Outcome unit :=
  match session p with
  | Some _ => Ok tt
  | None => Raise AttributeError
  end.

(** [self.session.get(url, timeout=10)] for a url the session sends: the
    urls of the fetcher start with [api_url], which [requests] accepts
    whatever follows. *)
Definition session_get (p : JimakuProvider) (url : string) : M Response :=
  fun w =>
    match session p with
    | None => (Raise AttributeError, w)
    | Some _ =>
        (remote w (List.length (requests w)) url,
         with_requests w (requests w ++ [url]))
    end.

(** [response.raise_for_status()] *)
Definition raise_for_status (r : Response) : Outcome unit :=
  if (400 <=? status_code r) && (status_code r <? 600)
  then Raise HTTPError else Ok tt.

(** [response.json()] *)
Definition response_json (r : Response) : Outcome json :=
  match json_body r with
  | Some v => Ok v
  | None => Raise JSONDecodeError
  end.

(** [response.headers.get(name)]: header names, which are ASCII, compare
    without case. *)
Fixpoint header_get (name : string) (hs : list (string * string)) : option string :=
  match hs with
  | [] => None
  | (k, v) :: hs' =>
      if String.eqb (PyStr.lower k) (PyStr.lower name) then Some v
      else header_get name hs'
  end.

(** ** JimakuProvider._get_jimaku_response *)

(** One pass through the body of [while retry_count < limit], after
    [retry_count += 1]. *)
Definition _get_jimaku_response_body (p : JimakuProvider) (url_path url : string)
    (retry_count : Z) : M (flow json unit) :=
  let* response := session_get p url in
  (if status_code response =? 429 then
     let* api_reset_time :=
       match header_get "x-ratelimit-reset-after" (headers response) with
       | None => ret (PyFloat.of_Z 5)
       | Some s =>
           match float_of_str X s with
           | Some f => ret f
           | None => raise ValueError
           end
       end in
     let reset_time :=
       if PyFloat.gt api_reset_time (PyFloat.of_Z api_ratelimit_max_delay_seconds)
       then PyFloat.of_Z api_ratelimit_max_delay_seconds
       else api_reset_time in
     log WARNING (MsgRatelimit reset_time retry_count api_ratelimit_backoff_limit);;
     sleep reset_time
   else if status_code response =? 401 then
     raise AuthenticationError
   else ret tt);;
  lift (raise_for_status response);;
  let* data := lift (response_json response) in
  let* n := lift (Py.len data) in
  log DEBUG (MsgLength url n);;
  if n =? 0 then
    log ERROR (MsgNoItems url_path);;
    ret (Return JNull)
  else
    let* has_error := lift (Py.contains_key "error" data) in
    if has_error then
      let* err := lift (Py.get data "error") in
      let* code := lift (Py.get data "code") in
      log ERROR (MsgApiError err code);;
      ret (Return JNull)
    else
      ret (Return data).

(** [while retry_count < self.api_ratelimit_backoff_limit]: the counter goes
    up by one per pass, so [left] passes remain when it is [limit - left]. *)
Fixpoint _get_jimaku_response_loop (p : JimakuProvider) (url_path url : string)
    (left : nat) (retry_count : Z) : M json :=
  match left with
  | O =>
      (* Max retries exceeded *)
      raise APIThrottled
  | S left' =>
      let retry_count := retry_count + 1 in
      let* r := _get_jimaku_response_body p url_path url retry_count in
      match r with
      | Return v => ret v
      | Next _ => _get_jimaku_response_loop p url_path url left' retry_count
      end
  end.

(** the function under its [@cache] *)
Definition _get_jimaku_response_uncached (p : JimakuProvider) (url_path : string)
    : M json :=
  let url := api_url ++ "/" ++ url_path in
  _get_jimaku_response_loop p url_path url
    (Z.to_nat api_ratelimit_backoff_limit) 0.

(** [@cache]: a value once returned for [(self, url_path)] is returned again
    without running the function; a raised exception stores nothing. *)
Definition _get_jimaku_response (p : JimakuProvider) (url_path : string) : M json :=
  fun w =>
    match response_cache w !! (self_id p, url_path) with
    | Some v => (Ok v, w)
    | None =>
        match _get_jimaku_response_uncached p url_path w with
        | (Ok v, w') =>
            (Ok v, with_response_cache w'
                     (<[(self_id p, url_path) := v]> (response_cache w')))
        | (Raise e, w') => (Raise e, w')
        end
    end.

(** ** JimakuProvider._assemble_jimaku_search_url *)

Definition _assemble_jimaku_search_url_uncached (video : Video) (media_name : string)
    : M string :=
  let url := "entries/search" in
  let anilist_id := anilist_id video in
  match anilist_id with
  | Some i =>
      if negb (i =? 0) then
        log INFO (MsgSearchById i);;
        ret (url ++ "?anilist_id=" ++ PyStr.of_Z i)
      else
        log INFO (MsgSearchByName media_name);;
        ret (url ++ "?query=" ++ quote_plus X media_name)
  | None =>
      log INFO (MsgSearchByName media_name);;
      ret (url ++ "?query=" ++ quote_plus X media_name)
  end.

Fixpoint url_cache_get (k : nat * Video * string)
    (c : list ((nat * Video * string) * string)) : option string :=
  match c with
  | [] => None
  | (k', v) :: c' => if decide (k = k') then Some v else url_cache_get k c'
  end.

(** the function under its [@cache], keyed by [(self, video, media_name)].
    The key compares videos as objects; the model compares them as values,
    which is the same as long as one identity is one object that is not
    changed once it is built (the identity is a read-only input). *)
Definition _assemble_jimaku_search_url (p : JimakuProvider) (video : Video)
    (media_name : string) : M string :=
  fun w =>
    match url_cache_get (self_id p, video, media_name) (url_cache w) with
    | Some v => (Ok v, w)
    | None =>
        match _assemble_jimaku_search_url_uncached video media_name w with
        | (Ok v, w') =>
            (Ok v, with_url_cache w'
                     (((self_id p, video, media_name), v) :: url_cache w'))
        | (Raise e, w') => (Raise e, w')
        end
    end.

(** ** JimakuProvider._query *)

(** [url] of the file list, lines 152-155 *)
Definition files_url (video : Video) (entry_id : json) (episode_number : option Z)
    : string :=
  if is_Episode video
  then "entries/" ++ py_str entry_id ++ "/files?episode=" ++ PyStr.of_opt_Z episode_number
  else "entries/" ++ py_str entry_id ++ "/files".

(** One pass through the body of [while retry_count <= 1], after
    [retry_count += 1]; the loop carries [episode_number] and [data]. *)
Definition _query_files_body (p : JimakuProvider) (video : Video) (entry_id : json)
    (retry_count : Z) (episode_number : option Z)
    : M (flow (option (list JimakuSubtitle)) (option Z * json)) :=
  let url := files_url video entry_id episode_number in
  let* data := _get_jimaku_response p url in
  if negb (Py.truthy data) && is_Episode video && episode_number_override p
     && (retry_count <? 1)
  then
    log WARNING (MsgRetryOffset episode_number (series_anidb_episode_no video));;
    ret (Next (series_anidb_episode_no video, data))
  else if negb (Py.truthy data) then
    ret (Return None)
  else
    ret (Next (episode_number, data)).

(** [while retry_count <= 1], by the passes left *)
Fixpoint _query_files_loop (p : JimakuProvider) (video : Video) (entry_id : json)
    (left : nat) (retry_count : Z) (st : option Z * json)
    : M (flow (option (list JimakuSubtitle)) (option Z * json)) :=
  match left with
  | O => ret (Next st)
  | S left' =>
      let retry_count := retry_count + 1 in
      let* r := _query_files_body p video entry_id retry_count (fst st) in
      match r with
      | Return v => ret (Return v)
      | Next st' => _query_files_loop p video entry_id left' retry_count st'
      end
  end.

Definition disabled_archives : list string := [".zip"; ".rar"].

(** [[item for item in data if not item['name'].endswith(disabled_archives)]] *)
Definition not_archived (items : list json) : M (list json) :=
  for_each items
    (fun item acc =>
       let* name := lift (Py.getitem_str item "name") in
       let* name := lift (Py.as_str name) in
       if negb (PyStr.endswith_any name disabled_archives)
       then ret (acc ++ [item])%list else ret acc)
    [].

(** the synthesized id, lines 195-196 *)
Definition make_subtitle_id (video : Video) (anilist_id : json)
    (episode_number : option Z) : string :=
  let number := if is_Episode video then PyStr.of_opt_Z episode_number else "0" in
  py_str anilist_id ++ "_" ++ number ++ "_" ++ PyStr.of_opt_str (release_group video).

(** the body of [for item in data], lines 180-200 *)
Definition _query_item (p : JimakuProvider) (video : Video) (anilist_id : json)
    (episode_number : option Z) (archive_formats_blacklist : list string)
    (item : json) (list_of_subtitles : list JimakuSubtitle)
    : M (list JimakuSubtitle) :=
  let* subtitle_filename := lift (Py.get item "name") in
  let* subtitle_url := lift (Py.get item "url") in
  let* ai :=
    if negb (enable_ai_subs p) then
      let* name := lift (Py.as_str subtitle_filename) in
      ret (PyStr.contains "whisperai" (str_lower name))
    else ret false in
  if ai then
    log WARNING (MsgSkipAI subtitle_filename);;
    ret list_of_subtitles               (* [continue] *)
  else
    (* Check if file is obviously corrupt. If no size is returned, assume OK *)
    let* subtitle_filesize :=
      lift (Py.get_default item "size" (JInt corrupted_file_size_threshold)) in
    let* small := lift (Py.lt_int subtitle_filesize corrupted_file_size_threshold) in
    if small then
      log WARNING (MsgSkipCorrupt subtitle_filename subtitle_filesize);;
      ret list_of_subtitles             (* [continue] *)
    else
      let* name := lift (Py.as_str subtitle_filename) in
      if negb (PyStr.endswith_any name archive_formats_blacklist) then
        let subtitle_id := make_subtitle_id video anilist_id episode_number in
        ret (list_of_subtitles ++
             [JimakuSubtitle_init video subtitle_id subtitle_url name])%list
      else
        log DEBUG (MsgSkipArchive subtitle_filename (enable_archives p));;
        ret list_of_subtitles.

(** Filter subtitles, lines 165-202 *)
Definition _query_filter (p : JimakuProvider) (video : Video) (anilist_id : json)
    (episode_number : option Z) (data : json) : M (list JimakuSubtitle) :=
  let list_of_subtitles : list JimakuSubtitle := [] in
  let archive_formats_blacklist := [".7z"] in
  let* archive_formats_blacklist :=
    if negb (enable_archives p) then
      (* Handle shows that only have archives uploaded *)
      let* items := lift (Py.iter data) in
      let* filter := not_archived items in
      if (Z.of_nat (List.length filter) =? 0) then
        log WARNING MsgArchivesOnly;;
        ret archive_formats_blacklist
      else
        ret (archive_formats_blacklist ++ disabled_archives)%list
    else ret archive_formats_blacklist in
  let* items := lift (Py.iter data) in
  for_each items
    (_query_item p video anilist_id episode_number archive_formats_blacklist)
    list_of_subtitles.

(** [media_name], lines 117-125 *)
Definition media_name_of (video : Video) : Outcome string :=
  match kind video with
  | Movie m => Ok (str_lower (title m))
  | Episode e =>
      let media_name := str_lower (series e) in
      match season e with
      | None => Raise TypeError                 (* [None > 1] *)
      | Some s =>
          let season_addendum := if 1 <? s then Some (PyStr.of_Z s) else None in
          match season_addendum with
          | Some a => if PyStr.truthy a then Ok (media_name ++ " " ++ a) else Ok media_name
          | None => Ok media_name
          end
      end
  end.

(** Search for entry, lines 117-129: the [data] of the search *)
Definition _query_search (p : JimakuProvider) (video : Video) : M json :=
  let* media_name := lift (media_name_of video) in
  let* url := _assemble_jimaku_search_url p video media_name in
  _get_jimaku_response p url.

(** We only go for the first entry, lines 134-142: [entry_id] and
    [anilist_id] of [data[0]] *)
Definition _query_first_entry (data : json) : M (json * json) :=
  let* entry := lift (Py.getitem_0 data) in
  let* entry_id := lift (Py.get entry "id") in
  let* anilist_id := lift (Py.get_default entry "anilist_id" JNull) in
  let* entry_name := lift (Py.get entry "name") in
  let* english_name := lift (Py.get entry "english_name") in
  log INFO (MsgMatchedEntry entry_id anilist_id entry_name english_name);;
  let* flags := lift (Py.get entry "flags") in
  let* unverified := lift (Py.get flags "unverified") in
  (if Py.truthy unverified then log WARNING (MsgUnverified entry_id) else ret tt);;
  ret (entry_id, anilist_id).

Definition _query (p : JimakuProvider) (video : Video)
    : M (option (list JimakuSubtitle)) :=
  let* data := _query_search p video in
  if negb (Py.truthy data) then ret None
  else
    let* ids := _query_first_entry data in
    let entry_id := fst ids in
    let anilist_id := snd ids in
    (* Get a list of subtitles for entry; [episode_number] is bound for an
       episode only, and read for an episode only *)
    let episode_number :=
      match kind video with
      | Episode e => episode e
      | Movie _ => None
      end in
    let* r := _query_files_loop p video entry_id 2 0 (episode_number, data) in
    match r with
    | Return v => ret v
    | Next (episode_number, data) =>
        let* list_of_subtitles :=
          _query_filter p video anilist_id episode_number data in
        ret (Some list_of_subtitles)
    end.

(** ** JimakuProvider.list_subtitles *)

Definition list_subtitles (p : JimakuProvider) (video : Video)
    : M (list JimakuSubtitle) :=
  let* subtitles := _query p video in
  match subtitles with
  | None => ret []
  | Some [] => ret []
  | Some (s :: l) => ret (s :: l)
  end.

(** ** JimakuProvider._is_archive and download_subtitle *)

Definition _is_archive (archive_bytes : bytes) : M (option (archive X)) :=
  if is_rarfile X archive_bytes then
    log DEBUG MsgIsRar;;
    let* a := lift (RarFile X archive_bytes) in
    ret (Some a)
  else if is_zipfile X archive_bytes then
    log DEBUG MsgIsZip;;
    let* a := lift (ZipFile X archive_bytes) in
    ret (Some a)
  else
    log DEBUG MsgNoArchive;;
    ret None.

(** [self.session.get(target_url, timeout=10)] for a url taken from a listing:
    [requests] raises for what it does not accept as a url (no scheme, no
    host, no adapter for the scheme, not a string that reads as a url), and
    then nothing is sent. *)
Definition session_get_url (p : JimakuProvider) (target_url : json) : M Response :=
  match session p with
  | None => raise AttributeError
  | Some _ =>
      match target_url with
      | JStr u => if url_accepted X u then session_get p u else raise InvalidURL
      | _ => raise InvalidURL
      end
  end.

(** The candidate is changed in place; the model returns it as it is after
    the call. *)
Definition download_subtitle (p : JimakuProvider) (subtitle : JimakuSubtitle)
    : M JimakuSubtitle :=
  let target_url := subtitle_url subtitle in
  let* response := session_get_url p target_url in
  lift (raise_for_status response);;
  let* archive := _is_archive (body response) in
  match archive with
  | Some a =>
      let* episode := lift (video_episode (video subtitle)) in
      let* c := lift (get_subtitle_from_archive X a episode) in
      ret (set_content subtitle c)
  | None =>
      let* url := lift (Py.as_str (subtitle_url subtitle)) in
      if PyStr.endswith_any url [".zip"; ".rar"] then
        log WARNING MsgNotAnArchive;;
        ret subtitle
      else
        ret (set_content subtitle (Some (body response)))
  end.

End Jimaku.

(** ** Test doubles

    Externals and worlds to run the provider on concrete inputs. *)
Module Fixture.

Definition rar_magic : bytes := [x52; x61; x72; x21].   (* "Rar!" *)
Definition zip_magic : bytes := [x50; x4b; x03; x04].   (* "PK\003\004" *)

Fixpoint has_magic (magic : bytes) (b : bytes) : bool :=
  match magic, b with
  | [], _ => true
  | _ :: _, [] => false
  | m :: magic', x :: b' => Byte.eqb m x && has_magic magic' b'
  end.

(** [quote_plus] on names made of letters, digits and spaces *)
Fixpoint plus_for_space (s : string) : string :=
  match s with
  | EmptyString => EmptyString
  | String c s' =>
      String (if Ascii.eqb c " " then "+"%char else c) (plus_for_space s')
  end.

Definition X : Externals :=
  {| short_version := "2.1";
     unicode_lower := PyStr.lower;
     url_accepted := fun u => PyStr.startswith u "https://" || PyStr.startswith u "http://";
     sanitize := PyStr.lower;
     guessit := fun name video_type => ["title"; "release_group"; "type"];
     quote_plus := plus_for_space;
     float_of_str := fun s => if String.eqb s "10" then Some (Fin 10) else None;
     repr := fun _ => "[...]";
     archive := bytes;
     is_rarfile := has_magic rar_magic;
     RarFile := fun b => Ok b;
     is_zipfile := has_magic zip_magic;
     ZipFile := fun b => Ok b;
     get_subtitle_from_archive := fun a episode => Ok (Some (drop 4 a)) |}.

(** an initialized provider *)
Definition provider (enable_archives enable_ai_subs override : bool) : JimakuProvider :=
  {| self_id := 1; api_key := "secret";
     enable_archives := enable_archives; enable_ai_subs := enable_ai_subs;
     session := Some {| session_headers := [("Authorization", "secret")] |};
     episode_number_override := override |}.

(** a fresh process talking to [remote] *)
Definition world (remote : nat -> string -> Outcome Response) : World :=
  {| remote := remote; requests := []; signals := [];
     response_cache := ∅; url_cache := [] |}.

Definition respond (status : Z) (hs : list (string * string)) (v : json) : Outcome Response :=
  Ok {| status_code := status; headers := hs; body := []; json_body := Some v |}.

(** a catalog that answers by path *)
Definition catalog (pages : list (string * json)) : nat -> string -> Outcome Response :=
  fun _ url =>
    match Py.assoc url pages with
    | Some v => respond 200 [] v
    | None => respond 200 [] (JList [])
    end.

Definition episode_video (name : string) (s e : Z) (alt : option Z)
    (group : option string) (anilist : option Z) : Video :=
  {| kind := Episode {| series := name; alternative_series := [];
                        season := Some s; episode := Some e;
                        episode_title := None |};
     year := None; release_group := group; anilist_id := anilist;
     series_anidb_episode_no := alt |}.

Definition movie_video (name : string) (group : option string) (anilist : option Z)
    : Video :=
  {| kind := Movie {| title := name; alternative_titles := [] |};
     year := None; release_group := group; anilist_id := anilist;
     series_anidb_episode_no := None |}.

Definition file (name : string) (size : option Z) : json :=
  JDict ([("name", JStr name); ("url", JStr ("https://jimaku.cc/f/" ++ name))] ++
         match size with Some n => [("size", JInt n)] | None => [] end).

Definition entry (id : Z) (anilist : option Z) (name : string) : json :=
  JDict ([("id", JInt id)] ++
         match anilist with Some a => [("anilist_id", JInt a)] | None => [] end ++
         [("name", JStr name); ("english_name", JStr name);
          ("flags", JDict [("unverified", JBool false)])]).

End Fixture.

(** * Properties

    ** Vocabulary of the statements *)

(** *** The fetcher *)

(** the delay a 429 response asks for, [None] when the header does not parse *)
Definition suggested_delay (X : Externals) (r : Response) : option pyfloat :=
  match header_get "x-ratelimit-reset-after" (headers r) with
  | None => Some (PyFloat.of_Z 5)
  | Some s => float_of_str X s
  end.

(** the delay clamped to the maximum, line 251 *)
Definition clamp_delay (t : pyfloat) : pyfloat :=
  if PyFloat.gt t (PyFloat.of_Z api_ratelimit_max_delay_seconds)
  then PyFloat.of_Z api_ratelimit_max_delay_seconds
  else t.

(** the world after one GET of [url] *)
Definition after_get (w : World) (url : string) : World :=
  with_requests w (requests w ++ [url]).

(** the world after the signals [s] *)
Definition after_signals (w : World) (s : list signal) : World :=
  with_signals w (signals w ++ s).

(** [c] leaves the response cache as it is *)
Definition same_cache {A} (c : M A) : Prop :=
  forall w, response_cache (snd (c w)) = response_cache w.

(** [c] removes nothing from the response cache *)
Definition keeps_cache {A} (c : M A) : Prop :=
  forall w, response_cache w ⊆ response_cache (snd (c w)).

(** *** The file filter *)

(** A listed file as the loop reads it off an item of the listing: the name,
    the url ([None] when absent) and the size when there is one. *)
Record SubtitleFile : Type := {
  filename : string;
  download_url : json;
  size_in_bytes : option Z
}.

(** the items the catalog is specified to send: objects with a string
    [name], a [url] and an optional integer [size] *)
Definition as_file (item : json) : option SubtitleFile :=
  match item with
  | JDict d =>
      match Py.assoc "name" d with
      | Some (JStr n) =>
          let url := match Py.assoc "url" d with Some u => u | None => JNull end in
          match Py.assoc "size" d with
          | None => Some {| filename := n; download_url := url; size_in_bytes := None |}
          | Some (JInt z) =>
              Some {| filename := n; download_url := url; size_in_bytes := Some z |}
          | Some _ => None
          end
      | _ => None
      end
  | _ => None
  end.

(** the three policies on one file *)
Definition ai_origin (X : Externals) (f : SubtitleFile) : bool :=
  PyStr.contains "whisperai" (str_lower X (filename f)).

Definition probably_corrupt (f : SubtitleFile) : bool :=
  match size_in_bytes f with
  | Some z => z <? corrupted_file_size_threshold
  | None => false
  end.

Definition archived (f : SubtitleFile) : bool :=
  PyStr.endswith_any (filename f) disabled_archives.

Definition size_json (f : SubtitleFile) : json :=
  match size_in_bytes f with
  | Some z => JInt z
  | None => JInt corrupted_file_size_threshold
  end.

(** what the three policies say about one file, under a blacklist *)
Definition kept (X : Externals) (p : JimakuProvider) (blacklist : list string)
    (f : SubtitleFile) : bool :=
  negb (negb (enable_ai_subs p) && ai_origin X f) &&
  negb (probably_corrupt f) &&
  negb (PyStr.endswith_any (filename f) blacklist).



(** what the loop logs for one file *)
Definition item_signals (X : Externals) (p : JimakuProvider) (blacklist : list string)
    (f : SubtitleFile) : list signal :=
  if negb (enable_ai_subs p) && ai_origin X f then
    [Log WARNING (MsgSkipAI (JStr (filename f)))]
  else if probably_corrupt f then
    [Log WARNING (MsgSkipCorrupt (JStr (filename f)) (size_json f))]
  else if PyStr.endswith_any (filename f) blacklist then
    [Log DEBUG (MsgSkipArchive (JStr (filename f)) (enable_archives p))]
  else [].

(** the candidate a kept file becomes *)
Definition candidate (X : Externals) (video : Video) (anilist_id : json)
    (episode_number : option Z) (f : SubtitleFile) : JimakuSubtitle :=
  JimakuSubtitle_init video (make_subtitle_id X video anilist_id episode_number)
    (download_url f) (filename f).

(** the blacklist lines 168-177 arrive at for a listing *)
Definition blacklist_for (p : JimakuProvider) (files : list SubtitleFile) : list string :=
  if enable_archives p then [".7z"]
  else if forallb archived files then [".7z"]
  else [".7z"; ".zip"; ".rar"].

Definition archives_only_warning (p : JimakuProvider) (files : list SubtitleFile) : list signal :=
  if negb (enable_archives p) && forallb archived files
  then [Log WARNING MsgArchivesOnly] else [].



(** *** Match scoring, retrieval, ids *)

(** the key [g] has a second character, and it is the known release group *)
Definition second_char_is_release_group (video : Video) (g : string) : Prop :=
  exists g1, PyStr.char_at g 1 = Some g1 /\ release_group video = Some g1.

(** [_is_archive] recognizes the bytes and opens them as [a] *)
Definition recognized (X : Externals) (b : bytes) (a : archive X) : Prop :=
  (is_rarfile X b = true /\ RarFile X b = Ok a) \/
  (is_rarfile X b = false /\ is_zipfile X b = true /\ ZipFile X b = Ok a).

Definition unrecognized (X : Externals) (b : bytes) : Prop :=
  is_rarfile X b = false /\ is_zipfile X b = false.

Definition sniff_signal (X : Externals) (b : bytes) : signal :=
  if is_rarfile X b then Log DEBUG MsgIsRar
  else if is_zipfile X b then Log DEBUG MsgIsZip
  else Log DEBUG MsgNoArchive.

(** no character of [s] is an underscore *)
Fixpoint no_underscore (s : string) : bool :=
  match s with
  | EmptyString => true
  | String c s' => negb (Ascii.eqb c "_") && no_underscore s'
  end.

(** the external id of an entry as the search response carries it *)
Definition external_id_json (o : option Z) : json :=
  match o with
  | Some i => JInt i
  | None => JNull
  end.

(** the id as it is put together: the external id of the entry as the
    search response has it, the number of the episode (0 for a movie), the
    release group of the video *)
Definition synthesized_id (X : Externals) (external_id : json) (number : string)
    (group : option string) : string :=
  py_str X external_id ++ "_" ++ number ++ "_" ++ PyStr.of_opt_str group.

(** the episode number an identity is listed under, as the id renders it *)
Definition listed_number (video : Video) : string :=
  match kind video with
  | Episode e => PyStr.of_opt_Z (episode e)
  | Movie _ => "0"
  end.

(** the first entry of a search response and its external id *)
Definition first_entry_external_id (data : json) (external_id : json) : Prop :=
  exists entry,
    Py.getitem_0 data = Ok entry /\
    Py.get_default entry "anilist_id" JNull = Ok external_id.

(** the tuple of the claim: the external id of the identity, or its name
    when it has none; the episode number; the release group *)
Definition identity_tuple (v : Video) : (Z + string) * option Z * option string :=
  (match anilist_id v with
   | Some i => inl i
   | None => inr (match kind v with Episode e => series e | Movie m => title m end)
   end,
   match kind v with Episode e => episode e | Movie _ => None end,
   release_group v).

(** *** Scenarios the statements are run on *)

Definition sample_world : World := Fixture.world (Fixture.catalog []).

Definition sample_episode : Video :=
  Fixture.episode_video "Show" 2 5 (Some 17) (Some "grp") (Some 1234).

(** a catalog that answers every request with 429 and asks for 10 seconds *)
Definition always_rate_limited : nat -> string -> Outcome Response :=
  fun _ _ =>
    Fixture.respond 429 [("x-ratelimit-reset-after", "10")]
      (JDict [("error", JStr "Too many requests")]).

(** a catalog that answers 429 once and 200 from then on *)
Definition rate_limited_then_ok : nat -> string -> Outcome Response :=
  fun n _ =>
    if (n <? 1)%nat
    then Fixture.respond 429 [("X-RateLimit-Reset-After", "10")]
           (JDict [("error", JStr "Too many requests")])
    else Fixture.respond 200 [] (JList [Fixture.entry 7 (Some 1234) "show"]).

(** An episode of a second cour: the catalog files it under the offset
    number 17, not under 5. *)
Definition cour_catalog : nat -> string -> Outcome Response :=
  Fixture.catalog
    [("https://jimaku.cc/api/entries/search?anilist_id=1234",
      JList [Fixture.entry 7 (Some 1234) "show"]);
     ("https://jimaku.cc/api/entries/7/files?episode=17",
      JList [Fixture.file "show - 17.srt" (Some 40000)])].

Definition cour_episode : Video :=
  Fixture.episode_video "Show" 2 5 (Some 17) (Some "grp") (Some 1234).

Definition miss_catalog : nat -> string -> Outcome Response :=
  Fixture.catalog
    [("https://jimaku.cc/api/entries/search?anilist_id=1",
      JList [Fixture.entry 7 (Some 1) "listed, no files"]);
     ("https://jimaku.cc/api/entries/search?anilist_id=2",
      JList [Fixture.entry 8 (Some 2) "listed, bad files"]);
     ("https://jimaku.cc/api/entries/8/files?episode=5",
      JList [Fixture.file "a.7z" None; Fixture.file "b.srt" (Some 12);
             Fixture.file "c.WhisperAI.srt" None])].

Definition zip_body : bytes := (Fixture.zip_magic ++ [x31; x0a])%list.

Definition download_remote : nat -> string -> Outcome Response :=
  fun _ _ => Ok {| status_code := 200; headers := []; body := zip_body;
                   json_body := None |}.

Definition movie_candidate : JimakuSubtitle :=
  JimakuSubtitle_init (Fixture.movie_video "Film" (Some "grp") (Some 99))
    "99_0_grp" (JStr "https://jimaku.cc/f/film.zip") "film.zip".

(** Two shows the catalog lists without an external id. *)
Definition unlinked_catalog : nat -> string -> Outcome Response :=
  Fixture.catalog
    [("https://jimaku.cc/api/entries/search?query=show+a",
      JList [Fixture.entry 7 None "Show A"]);
     ("https://jimaku.cc/api/entries/search?query=show+b",
      JList [Fixture.entry 8 None "Show B"]);
     ("https://jimaku.cc/api/entries/7/files?episode=5",
      JList [Fixture.file "Show A - 05.srt" None]);
     ("https://jimaku.cc/api/entries/8/files?episode=5",
      JList [Fixture.file "Show B - 05.srt" None])].

(** *** Further vocabulary: the fetcher and the provider's life cycle *)

(** every cached response is [None] or a non-empty body *)
Definition cache_normal (w : World) : Prop :=
  forall k v, response_cache w !! k = Some v -> v = JNull \/ Py.truthy v = true.

(** what a 2xx body is normalised to: [None] when it is empty or carries an
    [error] key *)
Definition normalised (data : json) (n : Z) (has_error : bool) : json :=
  if (n =? 0) || has_error then JNull else data.

(** a catalog that refuses the key *)
Definition unauthorized_remote : nat -> string -> Outcome Response :=
  fun _ _ => Fixture.respond 401 [] (JDict [("error", JStr "Unauthorized")]).

(** a catalog that is down for the first request and well from then on *)
Definition flaky_remote : nat -> string -> Outcome Response :=
  fun n _ =>
    if (n <? 1)%nat
    then Fixture.respond 503 [] (JDict [("error", JStr "Service unavailable")])
    else Fixture.respond 200 [] (JList [Fixture.file "a.srt" None]).

(** a catalog that answers every request with the given JSON body *)
Definition answering (v : json) : nat -> string -> Outcome Response :=
  fun _ _ => Fixture.respond 200 [] v.

(** *** Further vocabulary: the query *)

(** [c] leaves the cache of search urls as it is *)
Definition same_url_cache {A} (c : M A) : Prop :=
  forall w, url_cache (snd (c w)) = url_cache w.

(** [c] does nothing but log: its outcome and its log records are the same
    in every world *)
Definition only_logs {A} (c : M A) : Prop :=
  exists (o : Outcome A) (s : list signal), forall w, c w = (o, after_signals w s).

(** the search path for an identity with a known external id *)
Definition search_path_by_id (i : Z) : string :=
  "entries/search?anilist_id=" ++ PyStr.of_Z i.

(** the name an episode is searched by: the series in lower case, followed
    by the season number from the second season on *)
Definition episode_search_name (X : Externals) (series : string) (season : Z) : string :=
  str_lower X series ++ (if 1 <? season then " " ++ PyStr.of_Z season else EmptyString).

(** a catalog with one show, listed under a name, with two files for
    episode 5 *)
Definition named_catalog : nat -> string -> Outcome Response :=
  Fixture.catalog
    [("https://jimaku.cc/api/entries/search?query=show+2",
      JList [Fixture.entry 7 (Some 1234) "Show 2"]);
     ("https://jimaku.cc/api/entries/search?anilist_id=1234",
      JList [Fixture.entry 7 (Some 1234) "Show 2"]);
     ("https://jimaku.cc/api/entries/7/files?episode=5",
      JList [Fixture.file "show - 05.srt" (Some 40000);
             Fixture.file "show - 05.WhisperAI.srt" (Some 39000)])].

(** a catalog whose only entry comes without its flags *)
Definition flagless_catalog : nat -> string -> Outcome Response :=
  answering (JList [JDict [("id", JInt 7); ("name", JStr "Show")]]).

(** the search of an identity is in the caches of [w], with the data [d] *)
Definition search_cached (X : Externals) (p : JimakuProvider) (video : Video) (d : json)
    (w : World)
    : Prop :=
  exists m url,
    media_name_of X video = Ok m /\
    url_cache_get (self_id p, video, m) (url_cache w) = Some url /\
    response_cache w !! (self_id p, url) = Some d.

(** an episode of the second season that is known by name only *)
Definition unlinked_episode : Video :=
  Fixture.episode_video "Show" 2 5 None (Some "grp") None.

(** *** Further vocabulary: the filter *)

(** the policies that apply when archives are enabled *)
Definition kept_with_archives (X : Externals) (p : JimakuProvider) (f : SubtitleFile)
    : bool :=
  negb (negb (enable_ai_subs p) && ai_origin X f) &&
  negb (probably_corrupt f) &&
  negb (PyStr.endswith (filename f) ".7z").

(** a listing of mixed files *)
Definition mixed_listing : list json :=
  [Fixture.file "show - 05.srt" (Some 40000);
   Fixture.file "show - 05.zip" (Some 90000);
   Fixture.file "show - 05.7z" (Some 90000);
   Fixture.file "show - 05.WhisperAI.srt" (Some 39000);
   Fixture.file "show - 05.ass" None].

Definition mixed_files : list SubtitleFile :=
  [ {| filename := "show - 05.srt";
       download_url := JStr "https://jimaku.cc/f/show - 05.srt";
       size_in_bytes := Some 40000 |};
    {| filename := "show - 05.zip";
       download_url := JStr "https://jimaku.cc/f/show - 05.zip";
       size_in_bytes := Some 90000 |};
    {| filename := "show - 05.7z";
       download_url := JStr "https://jimaku.cc/f/show - 05.7z";
       size_in_bytes := Some 90000 |};
    {| filename := "show - 05.WhisperAI.srt";
       download_url := JStr "https://jimaku.cc/f/show - 05.WhisperAI.srt";
       size_in_bytes := Some 39000 |};
    {| filename := "show - 05.ass";
       download_url := JStr "https://jimaku.cc/f/show - 05.ass";
       size_in_bytes := None |} ].

(** an item of a listing that has lost its name *)
Definition nameless_item : json :=
  JDict [("url", JStr "https://jimaku.cc/f/unknown"); ("size", JInt 40000)].

(** *** Further vocabulary: match scoring *)

(** the tags [get_matches] can return *)
Definition match_tags : gset string :=
  {[ "series"; "season"; "title"; "year"; "movie"; "episode"; "release_group" ]}.

(** lines 53-54 and 60-61: the subtitle's own name is among the names of the
    video, all of them sanitized, and the video has a name *)
Definition name_matches (X : Externals) (own name : string) (alternatives : list string)
    : bool :=
  PyStr.truthy (sanitize X name) &&
  existsb (String.eqb (sanitize X own)) (map (sanitize X) (name :: alternatives)).

(** line 57 *)
Definition season_matches (season own_season : option Z) : bool :=
  truthy_opt_Z season &&
  match own_season with
  | None => true
  | Some _ => bool_decide (season = own_season)
  end.

(** what [get_matches] has collected when it comes to the guess, lines
    49-71 *)
Definition collected (X : Externals) (self : JimakuSubtitle) (video : Video)
    : gset string :=
  let matches : gset string := ∅ in
  let matches :=
    match kind video, kind (self_video self) with
    | Episode e, Episode e' =>
        let matches :=
          if name_matches X (series e') (series e) (alternative_series e)
          then matches ∪ {["series"]} else matches in
        if season_matches (season e) (season e')
        then matches ∪ {["season"]} else matches
    | Movie m, Movie m' =>
        if name_matches X (title m') (title m) (alternative_titles m)
        then matches ∪ {["title"]} else matches
    | Movie m, Episode e' =>
        (* the title of the subtitle's episode, when it has one *)
        match episode_title e' with
        | Some t =>
            if name_matches X t (title m) (alternative_titles m)
            then matches ∪ {["title"]} else matches
        | None => matches
        end
    | Episode _, Movie _ =>
        (* nothing of the subtitle's movie can be read *)
        matches
    end in
  let matches :=
    if truthy_opt_Z (year video) && bool_decide (year video = year (self_video self))
    then matches ∪ {["year"]} else matches in
  matches ∪ {[ if is_Movie video then "movie" else "episode" ]}.

(** the keys of the guess for a subtitle scored against a video *)
Definition guess_keys (X : Externals) (self : JimakuSubtitle) (video : Video)
    : list string :=
  guessit X (subtitle_filename self) (if is_Movie video then "movie" else "episode").

(** a movie that goes by the name of the sample episode's series *)
Definition sample_movie : Video := Fixture.movie_video "Show" (Some "grp") (Some 1234).

(** a candidate for the sample episode, and one for a movie *)
Definition episode_candidate : JimakuSubtitle :=
  JimakuSubtitle_init sample_episode "1234_5_grp"
    (JStr "https://jimaku.cc/f/show - 05.srt") "show - 05.srt".

(** *** Further vocabulary: retrieval *)

Definition plain_body : bytes := [x31; x0a; x30; x30].

(** a host that serves the same plain bytes under every url *)
Definition plain_remote : nat -> string -> Outcome Response :=
  fun _ _ => Ok {| status_code := 200; headers := []; body := plain_body;
                   json_body := None |}.

(** a host that has lost every file *)
Definition gone_remote : nat -> string -> Outcome Response :=
  fun _ _ => Ok {| status_code := 404; headers := []; body := []; json_body := None |}.

(** externals whose rar reader fails on what it has recognized, and whose
    zip reader would succeed *)
Definition broken_rar : Externals :=
  {| short_version := "2.1";
     unicode_lower := PyStr.lower;
     url_accepted := fun _ => true;
     sanitize := PyStr.lower;
     guessit := fun name video_type => ["title"; "release_group"; "type"];
     quote_plus := Fixture.plus_for_space;
     float_of_str := fun s => None;
     repr := fun _ => "[...]";
     archive := bytes;
     is_rarfile := fun _ => true;
     RarFile := fun _ => Raise (LibraryError 1);
     is_zipfile := fun _ => true;
     ZipFile := fun b => Ok b;
     get_subtitle_from_archive := fun a episode => Ok (Some a) |}.

Definition rar_candidate : JimakuSubtitle :=
  JimakuSubtitle_init sample_episode "1234_5_grp"
    (JStr "https://jimaku.cc/f/show - 05.rar") "show - 05.rar".

(** a candidate whose url has lost its scheme *)
Definition schemeless_candidate : JimakuSubtitle :=
  JimakuSubtitle_init sample_episode "1234_5_grp"
    (JStr "jimaku.cc/f/show - 05.srt") "show - 05.srt".

(** [c] issues no request *)
Definition same_requests {A} (c : M A) : Prop :=
  forall w, requests (snd (c w)) = requests w.

(** ** Facts about the string operations *)

Module PyStrFacts.
Import PyStr.



Lemma endswith_spec s suffix :
  endswith s suffix = true <-> exists pre, s = pre ++ suffix.
Proof.
  induction s as [|c s IH].
  - cbn [endswith]. rewrite orb_false_r, String.eqb_eq. split.
    + intros <-. now exists EmptyString.
    + intros [pre H]. destruct pre; simpl in H; [ exact H | discriminate ].
  - cbn [endswith]. rewrite orb_true_iff, String.eqb_eq, IH. split.
    + intros [<- | [pre ->]]; [ now exists EmptyString | now exists (String c pre) ].
    + intros [pre H]. destruct pre as [|c' pre]; simpl in H.
      * now left.
      * right. injection H as _ H. now exists pre.
Qed.





End PyStrFacts.
(** ** The rate-limited fetcher *)

Section Fetcher.

Context (X : Externals).

(** No pass through the body of the retry loop reaches the end of the body:
    it returns or raises. *)
Lemma _get_jimaku_response_body_returns p url_path url retry_count w s w' :
  _get_jimaku_response_body X p url_path url retry_count w = (Ok (Next s), w') ->
  False.
Proof.
  unfold _get_jimaku_response_body, bind, session_get, lift, ret, raise, log, sleep.
  repeat first
    [ progress intros
    | discriminate
    | match goal with
      | H : context [match ?x with _ => _ end] |- _ => destruct x eqn:?
      | H : context [if ?x then _ else _] |- _ => destruct x eqn:?
      end ].
Qed.

(** A delay between 0 and the maximum of 5 seconds is one [time.sleep]
    takes. *)
Lemma small_delay_fits q :
  Qle_bool 0 q = true -> Qle_bool q (inject_Z 5) = true -> fits_nanoseconds q = true.
Proof.
  intros H0 H5. apply Qle_bool_iff in H0, H5.
  unfold fits_nanoseconds. apply andb_true_iff. split.
  - apply Qle_bool_iff.
    change (inject_Z (- 2 ^ 63)) with (-9223372036854775808 # 1)%Q.
    change (inject_Z (10 ^ 9)) with (1000000000 # 1)%Q.
    change (inject_Z 5) with (5 # 1)%Q in H5. lra.
  - apply negb_true_iff, not_true_iff_false. rewrite Qle_bool_iff.
    change (inject_Z (2 ^ 63)) with (9223372036854775808 # 1)%Q.
    change (inject_Z (10 ^ 9)) with (1000000000 # 1)%Q.
    change (inject_Z 5) with (5 # 1)%Q in H5. lra.
Qed.

Lemma clamped_delay_fits d q :
  clamp_delay d = Fin q -> Qle_bool 0 q = true -> fits_nanoseconds q = true.
Proof.
  unfold clamp_delay. intros Hc H0.
  destruct (PyFloat.gt d (PyFloat.of_Z api_ratelimit_max_delay_seconds)) eqn:Hgt.
  - injection Hc as <-. reflexivity.
  - subst d. apply small_delay_fits; [ exact H0 | ].
    unfold PyFloat.gt, PyFloat.of_Z in Hgt. now apply negb_false_iff in Hgt.
Qed.

Lemma fetch_429 p url_path w s r d q (retry_count : Z) :
  session p = Some s ->
  remote w (List.length (requests w)) (api_url ++ "/" ++ url_path) = Ok r ->
  status_code r = 429 ->
  suggested_delay X r = Some d ->
  clamp_delay d = Fin q ->
  Qle_bool 0 q = true ->
  _get_jimaku_response_body X p url_path (api_url ++ "/" ++ url_path) retry_count w =
    (Raise HTTPError,
     after_signals (after_get w (api_url ++ "/" ++ url_path))
       [Log WARNING (MsgRatelimit (Fin q) retry_count api_ratelimit_backoff_limit);
        Sleep (Fin q)]).
Proof.
  intros Hs Hr Hst Hd Hc Hq.
  pose proof (clamped_delay_fits d q Hc Hq) as Hfit.
  unfold _get_jimaku_response_body, bind, session_get.
  rewrite Hs, Hr, Hst. simpl.
  unfold suggested_delay in Hd. unfold clamp_delay in Hc.
  destruct (header_get _ _) as [h|].
  - rewrite Hd. unfold ret, log, sleep, lift, raise_for_status. simpl.
    rewrite Hc, Hfit, Hq. simpl. rewrite Hst. simpl.
    unfold after_signals, after_get, with_signals, with_requests. simpl.
    rewrite <- app_assoc. reflexivity.
  - injection Hd as <-. vm_compute in Hc. injection Hc as <-.
    unfold ret, log, sleep, lift, raise_for_status. simpl. rewrite Hst. simpl.
    unfold after_signals, after_get, with_signals, with_requests. simpl.
    rewrite <- app_assoc. reflexivity.
Qed.

(** Whatever the catalog answers, a fetch that misses the cache issues
    exactly one GET: the loop never comes to a second pass. *)
Lemma fetch_issues_one_get p url_path w s :
  session p = Some s ->
  response_cache w !! (self_id p, url_path) = None ->
  requests (snd (_get_jimaku_response X p url_path w)) =
    (requests w ++ [(api_url ++ "/" ++ url_path)%string])%list.
Proof.
  intros Hs Hc. unfold _get_jimaku_response. rewrite Hc.
  unfold _get_jimaku_response_uncached.
  change (Z.to_nat api_ratelimit_backoff_limit) with 3%nat.
  cbn [_get_jimaku_response_loop].
  unfold bind at 1.
  destruct (_get_jimaku_response_body X p url_path _ (0 + 1) w) as [[[v|u]|e] w1] eqn:Hb.
  2: { exfalso. eapply _get_jimaku_response_body_returns; eauto. }
  all: revert Hb;
    unfold _get_jimaku_response_body, bind, session_get, lift, ret, raise, log, sleep;
    rewrite Hs;
    repeat first
      [ progress intros
      | discriminate
      | match goal with
        | H : (_, _) = (_, _) |- _ => injection H as ? ?; subst
        | H : context [match ?x with _ => _ end] |- _ => destruct x eqn:?
        | H : context [if ?x then _ else _] |- _ => destruct x eqn:?
        end ];
    reflexivity.
Qed.

(** C1: a 429 response does not lead to a retry.  The fetcher logs, sleeps
    for the suggested delay clamped to the 5 second maximum (5 seconds when
    the header is absent), and then [raise_for_status] raises [HTTPError] for
    that same response: one GET has been issued, nothing is stored in the
    cache, and neither a later 2xx body nor [APIThrottled] is ever reached. *)
Theorem rate_limited_fetch_raises_http_error p url_path w s r d q :
  session p = Some s ->
  response_cache w !! (self_id p, url_path) = None ->
  remote w (List.length (requests w)) (api_url ++ "/" ++ url_path) = Ok r ->
  status_code r = 429 ->
  suggested_delay X r = Some d ->
  clamp_delay d = Fin q ->
  Qle_bool 0 q = true ->
  _get_jimaku_response X p url_path w =
    (Raise HTTPError,
     after_signals (after_get w (api_url ++ "/" ++ url_path))
       [Log WARNING (MsgRatelimit (Fin q) 1 api_ratelimit_backoff_limit);
        Sleep (Fin q)]).
Proof.
  intros Hs Hc Hr Hst Hd Hcl Hq.
  unfold _get_jimaku_response. rewrite Hc.
  unfold _get_jimaku_response_uncached.
  change (Z.to_nat api_ratelimit_backoff_limit) with 3%nat.
  cbn [_get_jimaku_response_loop]. unfold bind at 1.
  change (0 + 1) with 1.
  rewrite (fetch_429 p url_path w s r d q 1 Hs Hr Hst Hd Hcl Hq).
  reflexivity.
Qed.

(** A value in the cache is what the fetch returns, and the world stays as
    it is. *)
Lemma fetch_hit p url_path w v :
  response_cache w !! (self_id p, url_path) = Some v ->
  _get_jimaku_response X p url_path w = (Ok v, w).
Proof. intros H. unfold _get_jimaku_response. rewrite H. reflexivity. Qed.

(** A fetch that returns leaves its value in the cache. *)
Lemma fetch_stores p url_path w v w' :
  _get_jimaku_response X p url_path w = (Ok v, w') ->
  response_cache w' !! (self_id p, url_path) = Some v.
Proof.
  unfold _get_jimaku_response. intros H.
  destruct (response_cache w !! (self_id p, url_path)) as [v0|] eqn:Hc.
  - injection H as <- <-. exact Hc.
  - destruct (_get_jimaku_response_uncached X p url_path w) as [[v0|e] w1].
    + injection H as <- <-. simpl. apply lookup_insert_eq.
    + discriminate.
Qed.

(** C9: once a fetch of a path has returned (a body or [None]), every later
    fetch of that path on the same instance returns the same value from the
    cache, in any world that still holds the cache entries: the world is
    left as it was, so no GET is issued and nothing is logged. *)
Theorem fetch_is_memoized p url_path w v w' :
  _get_jimaku_response X p url_path w = (Ok v, w') ->
  forall w'', response_cache w' ⊆ response_cache w'' ->
    _get_jimaku_response X p url_path w'' = (Ok v, w'').
Proof.
  intros H w'' Hsub. apply fetch_hit.
  eapply lookup_weaken; [ eapply fetch_stores; exact H | exact Hsub ].
Qed.

End Fetcher.

Lemma rate_limited_fetch_witness :
  _get_jimaku_response Fixture.X (Fixture.provider false false false)
    "entries/search?anilist_id=1234" (Fixture.world rate_limited_then_ok) =
  (Raise HTTPError,
   {| remote := rate_limited_then_ok;
      requests := ["https://jimaku.cc/api/entries/search?anilist_id=1234"];
      signals := [Log WARNING (MsgRatelimit (Fin 5) 1 3); Sleep (Fin 5)];
      response_cache := ∅; url_cache := [] |}).
Proof.
  eapply (rate_limited_fetch_raises_http_error Fixture.X
            (Fixture.provider false false false)
            "entries/search?anilist_id=1234" (Fixture.world rate_limited_then_ok)
            _ _ (Fin 10) 5);
    reflexivity.
Defined.

Lemma fetch_is_memoized_witness :
  let p := Fixture.provider false false false in
  let w := Fixture.world (Fixture.catalog
             [("https://jimaku.cc/api/entries/7/files", JList [Fixture.file "a.srt" None])]) in
  let w' := snd (_get_jimaku_response Fixture.X p "entries/7/files" w) in
  _get_jimaku_response Fixture.X p "entries/7/files" w' =
    (Ok (JList [Fixture.file "a.srt" None]), w') /\
  requests w' = ["https://jimaku.cc/api/entries/7/files"].
Proof.
  intros p w w'. split; [| reflexivity].
  apply (fetch_is_memoized Fixture.X p "entries/7/files" w _ w').
  - reflexivity.
  - reflexivity.
Defined.

(** Three 429 answers in a row are never seen: the first one ends the fetch
    with [HTTPError] after one GET and one sleep of 5 seconds, and
    [APIThrottled] is not raised. *)
Example sustained_rate_limit_is_not_throttled :
  let r := _get_jimaku_response Fixture.X (Fixture.provider false false false)
             "entries/7/files" (Fixture.world always_rate_limited) in
  fst r = Raise HTTPError /\
  requests (snd r) = ["https://jimaku.cc/api/entries/7/files"] /\
  signals (snd r) = [Log WARNING (MsgRatelimit (Fin 5) 1 3); Sleep (Fin 5)].
Proof. repeat split. Qed.

(** ** The caches live as long as the process: nothing evicts an entry *)

Section Cache.

Context (X : Externals).

Lemma same_ret {A} (a : A) : same_cache (ret a).
Proof. intros w. reflexivity. Qed.

Lemma same_raise {A} e : same_cache (@raise A e).
Proof. intros w. reflexivity. Qed.

Lemma same_lift {A} (o : Outcome A) : same_cache (lift o).
Proof. intros w. reflexivity. Qed.

Lemma same_log l m : same_cache (log l m).
Proof. intros w. reflexivity. Qed.

Lemma same_sleep t : same_cache (sleep t).
Proof. intros w. unfold sleep. destruct t as [q| | |]; try reflexivity.
  destruct (fits_nanoseconds q); [ | reflexivity ].
  destruct (Qle_bool 0 q); reflexivity. Qed.

Lemma same_session_get p url : same_cache (session_get p url).
Proof. intros w. unfold session_get. destruct (session p); reflexivity. Qed.

Lemma same_bind {A B} (c : M A) (k : A -> M B) :
  same_cache c -> (forall a, same_cache (k a)) -> same_cache (bind c k).
Proof.
  intros Hc Hk w. unfold bind. specialize (Hc w).
  destruct (c w) as [[a|e] w1]; simpl in *; [ | exact Hc ].
  now rewrite Hk.
Qed.

Lemma keeps_of_same {A} (c : M A) : same_cache c -> keeps_cache c.
Proof. intros H w. now rewrite H. Qed.

Lemma keeps_bind {A B} (c : M A) (k : A -> M B) :
  keeps_cache c -> (forall a, keeps_cache (k a)) -> keeps_cache (bind c k).
Proof.
  intros Hc Hk w. unfold bind. specialize (Hc w).
  destruct (c w) as [[a|e] w1]; simpl in *; [ | exact Hc ].
  etransitivity; [ exact Hc | apply Hk ].
Qed.

Lemma keeps_for_each {A S} (body : A -> S -> M S) items :
  (forall x s, keeps_cache (body x s)) ->
  forall s, keeps_cache (for_each items body s).
Proof.
  intros Hb. induction items as [|x items IH]; intros s; cbn [for_each].
  - apply keeps_of_same, same_ret.
  - apply keeps_bind; [ apply Hb | exact IH ].
Qed.

Ltac same_cache_step :=
  first
    [ apply same_ret | apply same_raise | apply same_lift | apply same_log
    | apply same_sleep | apply same_session_get
    | apply same_bind; [ | intros ]
    | match goal with
      | |- same_cache (if ?b then _ else _) => destruct b
      | |- same_cache (match ?x with _ => _ end) => destruct x
      end ].

Ltac keeps_cache_step :=
  first
    [ apply keeps_bind; [ | intros ]
    | match goal with
      | |- keeps_cache (if ?b then _ else _) => destruct b
      | |- keeps_cache (match ?x with _ => _ end) => destruct x
      end
    | apply keeps_of_same; repeat same_cache_step ].

Lemma same__get_jimaku_response_uncached p url_path :
  same_cache (_get_jimaku_response_uncached X p url_path).
Proof.
  unfold _get_jimaku_response_uncached.
  generalize 0. generalize (Z.to_nat api_ratelimit_backoff_limit).
  intros left. induction left as [|left IH]; intros retry_count;
    cbn [_get_jimaku_response_loop].
  - apply same_raise.
  - apply same_bind.
    + unfold _get_jimaku_response_body. repeat same_cache_step.
    + intros [v|u]; [ apply same_ret | apply IH ].
Qed.

Lemma keeps__get_jimaku_response p url_path :
  keeps_cache (_get_jimaku_response X p url_path).
Proof.
  intros w. unfold _get_jimaku_response.
  destruct (response_cache w !! (self_id p, url_path)) eqn:Hc; [ reflexivity | ].
  pose proof (same__get_jimaku_response_uncached p url_path w) as Hs.
  destruct (_get_jimaku_response_uncached X p url_path w) as [[v|e] w1];
    simpl in *; rewrite Hs; [ | reflexivity ].
  now apply insert_subseteq.
Qed.

Lemma same__assemble_jimaku_search_url p video media_name :
  same_cache (_assemble_jimaku_search_url X p video media_name).
Proof.
  intros w. unfold _assemble_jimaku_search_url.
  destruct (url_cache_get _ _); [ reflexivity | ].
  assert (Hs : same_cache (_assemble_jimaku_search_url_uncached X video media_name))
    by (unfold _assemble_jimaku_search_url_uncached; repeat same_cache_step).
  specialize (Hs w).
  destruct (_assemble_jimaku_search_url_uncached X video media_name w) as [[v|e] w1];
    exact Hs.
Qed.

Lemma keeps__query_files_loop p video entry_id left : forall retry_count st,
  keeps_cache (_query_files_loop X p video entry_id left retry_count st).
Proof.
  induction left as [|left IH]; intros retry_count st; cbn [_query_files_loop].
  - apply keeps_of_same, same_ret.
  - apply keeps_bind.
    + unfold _query_files_body. apply keeps_bind;
        [ apply keeps__get_jimaku_response | intros; repeat keeps_cache_step ].
    + intros [v|st']; [ apply keeps_of_same, same_ret | apply IH ].
Qed.

Lemma keeps__query_filter p video anilist_id episode_number data :
  keeps_cache (_query_filter X p video anilist_id episode_number data).
Proof.
  unfold _query_filter. apply keeps_bind.
  - destruct (negb (enable_archives p)); [ | apply keeps_of_same, same_ret ].
    apply keeps_bind; [ apply keeps_of_same, same_lift | intros items ].
    apply keeps_bind.
    + unfold not_archived. apply keeps_for_each. intros. repeat keeps_cache_step.
    + intros. repeat keeps_cache_step.
  - intros bl. apply keeps_bind; [ apply keeps_of_same, same_lift | intros items ].
    apply keeps_for_each. intros. unfold _query_item. repeat keeps_cache_step.
Qed.

(** Listing leaves every cached response in place. *)
Lemma keeps_list_subtitles p video : keeps_cache (list_subtitles X p video).
Proof.
  unfold list_subtitles. apply keeps_bind; [ | intros; repeat keeps_cache_step ].
  unfold _query. apply keeps_bind.
  - unfold _query_search. apply keeps_bind; [ apply keeps_of_same, same_lift | intros ].
    apply keeps_bind;
      [ apply keeps_of_same, same__assemble_jimaku_search_url
      | intros; apply keeps__get_jimaku_response ].
  - intros data. destruct (negb (Py.truthy data)); [ apply keeps_of_same, same_ret | ].
    apply keeps_bind.
    + unfold _query_first_entry. repeat keeps_cache_step.
    + intros ids. apply keeps_bind; [ apply keeps__query_files_loop | ].
      intros [v|[n d]]; [ apply keeps_of_same, same_ret | ].
      apply keeps_bind; [ apply keeps__query_filter | intros ].
      apply keeps_of_same, same_ret.
Qed.

(** A download leaves the cache as it is. *)
Lemma same_download_subtitle p subtitle : same_cache (download_subtitle X p subtitle).
Proof.
  unfold download_subtitle, session_get_url, _is_archive. repeat same_cache_step.
Qed.

(** So a path fetched once is still answered from the cache after any
    listing made in between. *)
Corollary fetch_survives_listing p url_path w v w1 video :
  _get_jimaku_response X p url_path w = (Ok v, w1) ->
  let w2 := snd (list_subtitles X p video w1) in
  _get_jimaku_response X p url_path w2 = (Ok v, w2).
Proof.
  intros H w2. apply fetch_hit.
  eapply lookup_weaken; [ eapply fetch_stores; exact H | apply keeps_list_subtitles ].
Qed.

(** The search url is assembled once per (instance, video, name): the second
    call returns the stored url and logs nothing. *)
Lemma search_url_is_memoized p video media_name w url w' :
  _assemble_jimaku_search_url X p video media_name w = (Ok url, w') ->
  _assemble_jimaku_search_url X p video media_name w' = (Ok url, w').
Proof.
  unfold _assemble_jimaku_search_url. intros H.
  destruct (url_cache_get (self_id p, video, media_name) (url_cache w)) as [u|] eqn:Hc.
  - injection H as <- <-. now rewrite Hc.
  - destruct (_assemble_jimaku_search_url_uncached X video media_name w)
      as [[u|e] w1]; [ | discriminate ].
    injection H as <- <-. cbn [url_cache with_url_cache url_cache_get].
    destruct (decide _); [ reflexivity | contradiction ].
Qed.

End Cache.

(** ** Entry resolution and file listing *)

Section Query.

Context (X : Externals).

(** When the file list comes back with data, the second pass of the loop asks
    for the same path again and is served from the cache. *)
Lemma files_loop_with_data p video entry_id episode_number data0 w d w1 :
  _get_jimaku_response X p (files_url X video entry_id episode_number) w = (Ok d, w1) ->
  Py.truthy d = true ->
  _query_files_loop X p video entry_id 2 0 (episode_number, data0) w =
    (Ok (Next (episode_number, d)), w1).
Proof.
  intros H Ht.
  cbn [_query_files_loop fst]. unfold bind at 1.
  unfold _query_files_body at 1. unfold bind at 1. rewrite H, Ht.
  cbn -[_get_jimaku_response files_url].
  unfold bind at 1. unfold _query_files_body. unfold bind at 1.
  rewrite (fetch_hit X p _ w1 d (fetch_stores X p _ w d w1 H)), Ht.
  reflexivity.
Qed.

(** C2: the loop does not retry.  When the first file-list request comes
    back with no data, [_query] returns [None] at once, in the world the
    first fetch left: no request with the offset-adjusted episode number is
    made, whether or not [episode_number_override] is set. *)
Theorem files_loop_gives_up_without_retry p video entry_id episode_number data0 w d w1 :
  _get_jimaku_response X p (files_url X video entry_id episode_number) w = (Ok d, w1) ->
  Py.truthy d = false ->
  _query_files_loop X p video entry_id 2 0 (episode_number, data0) w =
    (Ok (Return None), w1).
Proof.
  intros H Ht.
  cbn [_query_files_loop fst]. unfold bind at 1.
  unfold _query_files_body. unfold bind at 1. rewrite H, Ht.
  change (0 + 1 <? 1) with false.
  rewrite andb_false_r. reflexivity.
Qed.

(** C3: absence at any layer ends in the empty sequence, without an
    exception: (1) the search yields no data; (2) an entry is found and the
    file listing yields none; (3) the files are listed and the filter keeps
    none of them. *)
Theorem list_subtitles_empty_on_miss p video w :
  (forall d w1,
     _query_search X p video w = (Ok d, w1) ->
     Py.truthy d = false ->
     list_subtitles X p video w = (Ok [], w1)) /\
  (forall d w1 ids w2 w3,
     _query_search X p video w = (Ok d, w1) ->
     Py.truthy d = true ->
     _query_first_entry d w1 = (Ok ids, w2) ->
     _query_files_loop X p video (fst ids) 2 0
       (match kind video with Episode e => episode e | Movie _ => None end, d) w2 =
       (Ok (Return None), w3) ->
     list_subtitles X p video w = (Ok [], w3)) /\
  (forall d w1 ids w2 episode_number files w3 w4,
     _query_search X p video w = (Ok d, w1) ->
     Py.truthy d = true ->
     _query_first_entry d w1 = (Ok ids, w2) ->
     _query_files_loop X p video (fst ids) 2 0
       (match kind video with Episode e => episode e | Movie _ => None end, d) w2 =
       (Ok (Next (episode_number, files)), w3) ->
     _query_filter X p video (snd ids) episode_number files w3 = (Ok [], w4) ->
     list_subtitles X p video w = (Ok [], w4)).
Proof.
  repeat split.
  - intros d w1 Hs Ht.
    unfold list_subtitles, _query. unfold bind at 1. unfold bind at 1.
    rewrite Hs, Ht. reflexivity.
  - intros d w1 ids w2 w3 Hs Ht He Hl.
    unfold list_subtitles, _query. unfold bind at 1. unfold bind at 1.
    rewrite Hs, Ht. cbn [negb]. unfold bind at 1. rewrite He.
    unfold bind at 1. rewrite Hl. reflexivity.
  - intros d w1 ids w2 episode_number files w3 w4 Hs Ht He Hl Hf.
    unfold list_subtitles, _query. unfold bind at 1. unfold bind at 1.
    rewrite Hs, Ht. cbn [negb]. unfold bind at 1. rewrite He.
    unfold bind at 1. rewrite Hl. unfold bind at 1. rewrite Hf.
    reflexivity.
Qed.

End Query.

Lemma files_loop_gives_up_witness :
  let p := Fixture.provider true true true in
  fst (_query_files_loop Fixture.X p cour_episode (JInt 7) 2 0 (Some 5, JNull)
         (Fixture.world cour_catalog)) = Ok (Return None) /\
  requests (snd (_query_files_loop Fixture.X p cour_episode (JInt 7) 2 0 (Some 5, JNull)
         (Fixture.world cour_catalog))) =
    ["https://jimaku.cc/api/entries/7/files?episode=5"].
Proof.
  intros p.
  rewrite (files_loop_gives_up_without_retry Fixture.X p cour_episode (JInt 7)
             (Some 5) JNull (Fixture.world cour_catalog) JNull
             (snd (_get_jimaku_response Fixture.X p "entries/7/files?episode=5"
                     (Fixture.world cour_catalog))));
    [ split; reflexivity | reflexivity | reflexivity ].
Defined.

(** The failing input of C2 end to end: with the override set, the listing
    of the cour episode is empty after two GETs, none of them for episode 17,
    although the catalog has a file under that number. *)
Example offset_retry_is_never_made :
  let p := Fixture.provider true true true in
  let r := list_subtitles Fixture.X p cour_episode (Fixture.world cour_catalog) in
  episode_number_override p = true /\
  fst r = Ok [] /\
  requests (snd r) =
    ["https://jimaku.cc/api/entries/search?anilist_id=1234";
     "https://jimaku.cc/api/entries/7/files?episode=5"] /\
  fst (_get_jimaku_response Fixture.X p "entries/7/files?episode=17"
         (Fixture.world cour_catalog)) =
    Ok (JList [Fixture.file "show - 17.srt" (Some 40000)]).
Proof. vm_compute. repeat split. Qed.

Lemma list_subtitles_empty_on_miss_witness :
  let p := Fixture.provider true false false in
  let v := fun a => Fixture.episode_video "Show" 1 5 None None (Some a) in
  fst (list_subtitles Fixture.X p (v 3) (Fixture.world miss_catalog)) = Ok [] /\
  fst (list_subtitles Fixture.X p (v 1) (Fixture.world miss_catalog)) = Ok [] /\
  fst (list_subtitles Fixture.X p (v 2) (Fixture.world miss_catalog)) = Ok [].
Proof.
  intros p v. split; [| split].
  - destruct (list_subtitles_empty_on_miss Fixture.X p (v 3) (Fixture.world miss_catalog))
      as (H & _ & _).
    erewrite H; [ reflexivity | vm_compute; reflexivity | reflexivity ].
  - destruct (list_subtitles_empty_on_miss Fixture.X p (v 1) (Fixture.world miss_catalog))
      as (_ & H & _).
    erewrite H;
      [ reflexivity | vm_compute; reflexivity | reflexivity
      | vm_compute; reflexivity | vm_compute; reflexivity ].
  - destruct (list_subtitles_empty_on_miss Fixture.X p (v 2) (Fixture.world miss_catalog))
      as (_ & _ & H).
    erewrite H;
      [ reflexivity | vm_compute; reflexivity | reflexivity
      | vm_compute; reflexivity | vm_compute; reflexivity | vm_compute; reflexivity ].
Defined.

(** ** The exclusion policies of the file filter *)

Lemma after_signals_nil w : after_signals w [] = w.
Proof.
  destruct w. unfold after_signals, with_signals. simpl.
  now rewrite app_nil_r.
Qed.

Lemma after_signals_app w a b :
  after_signals (after_signals w a) b = after_signals w (a ++ b)%list.
Proof.
  unfold after_signals, with_signals. simpl. now rewrite app_assoc.
Qed.

Lemma after_signals_inj w a b : after_signals w a = after_signals w b -> a = b.
Proof.
  unfold after_signals, with_signals. intros H.
  injection H as H. now apply app_inv_head in H.
Qed.

(** a property of the loop state that every pass keeps holds at the end *)
Lemma for_each_invariant {A S} (P : S -> Prop) (body : A -> S -> M S) items :
  (forall x s w s' w', P s -> body x s w = (Ok s', w') -> P s') ->
  forall s w s' w', P s -> for_each items body s w = (Ok s', w') -> P s'.
Proof.
  intros Hb. induction items as [|x items IH]; intros s w s' w' Hs; cbn [for_each].
  - intros [= <- _]. exact Hs.
  - unfold bind at 1. destruct (body x s w) as [[s1|e] w1] eqn:Hx; [ | discriminate ].
    apply IH. eapply Hb; eauto.
Qed.

Section Filter.

Context (X : Externals).
Context (p : JimakuProvider) (video : Video) (anilist_id : json)
        (episode_number : option Z).

(** the loop body on a well-formed item *)
Lemma _query_item_spec blacklist item f subs w :
  as_file item = Some f ->
  _query_item X p video anilist_id episode_number blacklist item subs w =
    (Ok (subs ++ if kept X p blacklist f then [candidate X video anilist_id episode_number f] else [])%list,
     after_signals w (item_signals X p blacklist f)).
Proof.
  intros Hf. destruct item as [| | | |l|d]; try discriminate.
  unfold as_file in Hf.
  destruct (Py.assoc "name" d) as [[| | |n| |]|] eqn:Hn; try discriminate.
  assert (Hsz : exists url, f = {| filename := n; download_url := url;
                                   size_in_bytes := size_in_bytes f |} /\
                url = match Py.assoc "url" d with Some u => u | None => JNull end /\
                match Py.assoc "size" d with
                | None => size_in_bytes f = None
                | Some v => exists z, v = JInt z /\ size_in_bytes f = Some z
                end).
  { destruct (Py.assoc "size" d) as [[| |z| | |]|]; try discriminate;
      injection Hf as <-; eexists; repeat split; eauto. }
  clear Hf. destruct Hsz as (url & Hf & Hurl & Hsize).
  unfold _query_item, kept, item_signals, candidate, ai_origin, probably_corrupt,
    size_json, bind, lift, ret, log, Py.get, Py.get_default.
  rewrite Hn. rewrite Hf. cbn [filename size_in_bytes download_url Py.as_str].
  rewrite <- Hurl.
  assert (Hlt : (corrupted_file_size_threshold <? corrupted_file_size_threshold) = false)
    by reflexivity.
  destruct (enable_ai_subs p); cbn [negb andb];
    [ | destruct (PyStr.contains "whisperai" (str_lower X n)); cbn [negb andb];
        [ now rewrite app_nil_r | ] ];
    (destruct (Py.assoc "size" d) as [v|];
     [ destruct Hsize as (z & -> & ->); cbn [Py.lt_int];
       destruct (z <? corrupted_file_size_threshold)
     | rewrite Hsize; cbn [Py.lt_int]; rewrite Hlt ]);
    cbn [negb andb];
    try (destruct (PyStr.endswith_any n blacklist); cbn [negb]);
    rewrite ?app_nil_r, ?after_signals_nil; reflexivity.
Qed.

Lemma as_file_name item f :
  as_file item = Some f ->
  exists d, item = JDict d /\ Py.assoc "name" d = Some (JStr (filename f)).
Proof.
  intros Hf. destruct item as [| | | |l|d]; try discriminate.
  exists d. split; [ reflexivity | ]. unfold as_file in Hf.
  destruct (Py.assoc "name" d) as [[| | |n| |]|]; try discriminate.
  destruct (Py.assoc "size" d) as [[| |z| | |]|]; try discriminate;
    now injection Hf as <-.
Qed.

(** the loop over a well-formed listing *)
Lemma for_each_items_spec blacklist items files :
  Forall2 (fun item f => as_file item = Some f) items files ->
  forall subs w,
  for_each items (_query_item X p video anilist_id episode_number blacklist) subs w =
    (Ok (subs ++ map (candidate X video anilist_id episode_number) (List.filter (kept X p blacklist) files))%list,
     after_signals w (concat (map (item_signals X p blacklist) files))).
Proof.
  induction 1 as [|item f items files Hf _ IH]; intros subs w.
  - cbn. now rewrite app_nil_r, after_signals_nil.
  - cbn [for_each]. unfold bind at 1.
    rewrite (_query_item_spec blacklist item f subs w Hf), IH.
    cbn [List.filter map concat]. rewrite after_signals_app.
    destruct (kept X p blacklist f); cbn [map].
    + now rewrite <- app_assoc.
    + now rewrite app_nil_r.
Qed.

(** the comprehension that looks for a file that is not an archive *)
Lemma not_archived_loop_spec items files :
  Forall2 (fun item f => as_file item = Some f) items files ->
  forall acc w,
  exists l,
    for_each items
      (fun item acc =>
         let* name := lift (Py.getitem_str item "name") in
         let* name := lift (Py.as_str name) in
         if negb (PyStr.endswith_any name disabled_archives)
         then ret (acc ++ [item])%list else ret acc) acc w = (Ok (acc ++ l)%list, w) /\
    (l = [] <-> forallb archived files = true).
Proof.
  induction 1 as [|item f items files Hf _ IH]; intros acc w.
  - exists []. cbn. rewrite app_nil_r. now split.
  - destruct (as_file_name item f Hf) as (d & -> & Hn).
    cbn [for_each]. unfold bind at 1. unfold bind at 1.
    unfold lift at 1. cbn [Py.getitem_str]. rewrite Hn.
    unfold bind at 1. unfold lift at 1. cbn [Py.as_str forallb].
    unfold archived at 1.
    destruct (PyStr.endswith_any (filename f) disabled_archives); cbn [negb andb].
    + unfold ret at 1. apply IH.
    + unfold ret at 1. destruct (IH (acc ++ [JDict d])%list w) as (l & -> & _).
      exists (JDict d :: l). rewrite <- app_assoc. split; [ reflexivity | ].
      split; discriminate.
Qed.

(** the filter on a well-formed listing: total, and equal to the three
    policies applied file by file under the blacklist the listing selects *)
Lemma _query_filter_spec items files w :
  Forall2 (fun item f => as_file item = Some f) items files ->
  _query_filter X p video anilist_id episode_number (JList items) w =
    (Ok (map (candidate X video anilist_id episode_number) (List.filter (kept X p (blacklist_for p files)) files)),
     after_signals w
       (archives_only_warning p files ++
        concat (map (item_signals X p (blacklist_for p files)) files))%list).
Proof.
  intros Hfiles. unfold _query_filter, blacklist_for, archives_only_warning.
  destruct (enable_archives p); cbn [negb andb].
  - unfold bind at 1. unfold ret at 1. unfold bind at 1. unfold lift at 1.
    cbn [Py.iter]. rewrite (for_each_items_spec _ items files Hfiles).
    reflexivity.
  - unfold bind at 1. unfold bind at 1. unfold lift at 1. cbn [Py.iter].
    unfold bind at 1. unfold not_archived.
    destruct (not_archived_loop_spec items files Hfiles [] w) as (l & -> & Hl).
    cbn [app]. destruct l as [|x l].
    + rewrite (proj1 Hl eq_refl). simpl (Z.of_nat _ =? 0). cbv beta iota.
      unfold bind at 1. unfold log at 1. unfold ret at 1.
      unfold bind at 1. unfold lift at 1. cbn [Py.iter].
      rewrite (for_each_items_spec _ items files Hfiles).
      unfold after_signals, with_signals. cbn [signals remote requests
        response_cache url_cache]. now rewrite <- app_assoc.
    + destruct (forallb archived files) eqn:Hall.
      * discriminate (proj2 Hl eq_refl).
      * simpl (Z.of_nat _ =? 0). cbv beta iota.
        unfold ret at 1.
        unfold bind at 1. unfold lift at 1. cbn [Py.iter].
        rewrite (for_each_items_spec _ items files Hfiles).
        reflexivity.
Qed.

Lemma item_signals_no_archives_warning blacklist f :
  ~ In (Log WARNING MsgArchivesOnly) (item_signals X p blacklist f).
Proof.
  unfold item_signals.
  repeat match goal with |- context [if ?b then _ else _] => destruct b end;
    cbn; intuition discriminate.
Qed.


(** Whatever the item is, a pass of the loop leaves the list as it is or
    appends one candidate, whose id is the one id of the listing. *)
Lemma _query_item_appends blacklist item subs w subs' w' :
  _query_item X p video anilist_id episode_number blacklist item subs w = (Ok subs', w') ->
  subs' = subs \/
  exists url name,
    subs' = (subs ++ [JimakuSubtitle_init video
                        (make_subtitle_id X video anilist_id episode_number)
                        url name])%list.
Proof.
  unfold _query_item, bind, lift, ret, log.
  repeat first
    [ progress intros
    | discriminate
    | match goal with
      | H : (Ok _, _) = (Ok _, _) |- _ => injection H as ? ?; subst
      | H : context [match ?x with _ => _ end] |- _ => destruct x eqn:?
      | H : context [if ?x then _ else _] |- _ => destruct x eqn:?
      end ];
    first [ now left | right; do 2 eexists; reflexivity ].
Qed.

(** So every candidate the filter returns carries that id, for any listing
    the catalog may send. *)
Lemma _query_filter_ids data w subs w' :
  _query_filter X p video anilist_id episode_number data w = (Ok subs, w') ->
  Forall (fun s => subtitle_id s = make_subtitle_id X video anilist_id episode_number)
    subs.
Proof.
  unfold _query_filter. unfold bind at 1.
  match goal with
  | |- context [match ?c w with _ => _ end] => destruct (c w) as [[bl|e] w1]
  end; [ | discriminate ].
  unfold bind at 1. destruct (lift (Py.iter data) w1) as [[items|e] w2];
    [ | discriminate ].
  apply for_each_invariant; [ | constructor ].
  intros item s0 w0 s' w0' Hs0 Hitem.
  apply _query_item_appends in Hitem as [-> | (url & name & ->)]; [ exact Hs0 | ].
  apply Forall_app. split; [ exact Hs0 | ]. now repeat constructor.
Qed.

End Filter.

Section Policies.

Context (X : Externals).
Context (p : JimakuProvider) (video : Video) (anilist_id : json)
        (episode_number : option Z).


(** a list does not grow into itself *)
Lemma app_one_neq {A} (l : list A) x : (l ++ [x])%list <> l.
Proof.
  intros E. apply (f_equal (@List.length A)) in E.
  rewrite length_app in E. simpl in E. lia.
Qed.



(** C5: a well-formed file that comes to the size check (it is not skipped
    as AI generated) is skipped as possibly corrupt exactly when it reports
    a size strictly below the threshold of 500 bytes; and, its extension
    permitting, it becomes a candidate exactly when it reports no size or a
    size of 500 bytes or more. *)
Theorem corrupt_size_filter blacklist item f subs w :
  as_file item = Some f ->
  negb (enable_ai_subs p) && ai_origin X f = false ->
  (_query_item X p video anilist_id episode_number blacklist item subs w =
     (Ok subs,
      after_signals w [Log WARNING (MsgSkipCorrupt (JStr (filename f)) (size_json f))])
   <-> exists z, size_in_bytes f = Some z /\ z < 500) /\
  (PyStr.endswith_any (filename f) blacklist = false ->
   (_query_item X p video anilist_id episode_number blacklist item subs w =
      (Ok (subs ++ [candidate X video anilist_id episode_number f])%list, w)
    <-> size_in_bytes f = None \/ exists z, size_in_bytes f = Some z /\ 500 <= z)).
Proof.
  intros Hf Hai.
  rewrite (_query_item_spec X p video anilist_id episode_number blacklist item f subs w Hf).
  unfold kept, item_signals. rewrite Hai. cbn [negb andb].
  unfold probably_corrupt, corrupted_file_size_threshold.
  split.
  - destruct (size_in_bytes f) as [z|] eqn:Hs.
    + destruct (Z.ltb_spec z 500) as [Hlt|Hge]; cbn [negb andb].
      * split; [ intros _; now exists z | intros _; now rewrite app_nil_r ].
      * split.
        -- intros H. injection H as _ H. apply app_inv_head in H.
           destruct (PyStr.endswith_any (filename f) blacklist); discriminate.
        -- intros (z' & Hz & Hlt). injection Hz as <-. lia.
    + cbn [negb andb]. split.
      * intros H. injection H as _ H. apply app_inv_head in H.
        destruct (PyStr.endswith_any (filename f) blacklist); discriminate.
      * intros (z' & Hz & _). discriminate.
  - intros Hext. rewrite Hext. cbn [negb].
    destruct (size_in_bytes f) as [z|] eqn:Hs.
    + destruct (Z.ltb_spec z 500) as [Hlt|Hge]; cbn [negb andb].
      * split.
        -- intros H. injection H as H _. rewrite app_nil_r in H.
           symmetry in H. now apply app_one_neq in H.
        -- intros [H | (z' & Hz & Hge)]; [ discriminate | ].
           injection Hz as <-. lia.
      * rewrite after_signals_nil. split; [ | reflexivity ].
        intros _. right. now exists z.
    + cbn [negb andb]. rewrite after_signals_nil. split; [ now left | reflexivity ].
Qed.


End Policies.



Lemma corrupt_size_filter_witness :
  let run := fun size =>
    _query_item Fixture.X (Fixture.provider true true false) sample_episode (JInt 1234)
      (Some 5) [".7z"] (Fixture.file "a.srt" size) [] sample_world in
  let a := fun size => {| filename := "a.srt";
                          download_url := JStr "https://jimaku.cc/f/a.srt";
                          size_in_bytes := size |} in
  run (Some 499) =
    (Ok [], after_signals sample_world
              [Log WARNING (MsgSkipCorrupt (JStr "a.srt") (JInt 499))]) /\
  run (Some 500) =
    (Ok [candidate Fixture.X sample_episode (JInt 1234) (Some 5) (a (Some 500))],
     sample_world) /\
  run None =
    (Ok [candidate Fixture.X sample_episode (JInt 1234) (Some 5) (a None)],
     sample_world).
Proof.
  intros run a.
  pose (thm := fun size =>
          corrupt_size_filter Fixture.X (Fixture.provider true true false)
            sample_episode (JInt 1234) (Some 5) [".7z"]
            (Fixture.file "a.srt" size) (a size) [] sample_world).
  split; [ | split ].
  - destruct (thm (Some 499) eq_refl eq_refl) as [Hskip _].
    apply (proj2 Hskip). exists 499. split; [ reflexivity | lia ].
  - destruct (thm (Some 500) eq_refl eq_refl) as [_ Hkeep].
    apply (proj2 (Hkeep eq_refl)). right. exists 500. split; [ reflexivity | lia ].
  - destruct (thm None eq_refl eq_refl) as [_ Hkeep].
    apply (proj2 (Hkeep eq_refl)). now left.
Defined.

(** The boundary of the size check: 499 bytes is skipped, 500 bytes and a
    file without a size become candidates. *)
Example corrupt_size_boundaries :
  let names := fun size =>
    match fst (_query_item Fixture.X (Fixture.provider true true false) sample_episode
                 (JInt 1234) (Some 5) [".7z"] (Fixture.file "a.srt" size) []
                 sample_world) with
    | Ok l => Some (map subtitle_filename l)
    | Raise _ => None
    end in
  names (Some 499) = Some [] /\
  names (Some 500) = Some ["a.srt"] /\
  names None = Some ["a.srt"].
Proof. repeat split. Qed.


(** ** Match scoring: the release group *)

Section Matches.

Context (X : Externals).

Lemma char_at_0 g : (2 <= String.length g)%nat -> exists g0, PyStr.char_at g 0 = Some g0.
Proof.
  destruct g as [|c g]; simpl; [ lia | ]. intros _. now eexists.
Qed.

Lemma char_at_1 g : (2 <= String.length g)%nat -> exists g1, PyStr.char_at g 1 = Some g1.
Proof.
  destruct g as [|c [|c' g]]; simpl; try lia. intros _. now eexists.
Qed.

(** The loop over the keys: it ends, and it adds the match exactly when
    some key has the release group as its second character. *)
Lemma guess_loop_spec video guess matches :
  (forall g, In g guess -> (2 <= String.length g)%nat) ->
  exists matches',
    guess_loop video guess matches = Ok matches' /\
    ("release_group" ∈ matches' <->
     "release_group" ∈ matches \/
     exists g, In g guess /\ second_char_is_release_group video g).
Proof.
  induction guess as [|g guess IH]; intros Hlen.
  - exists matches. split; [ reflexivity | ].
    split; [ now left | intros [H | (g & [] & _)]; exact H ].
  - cbn [guess_loop].
    destruct (char_at_0 g (Hlen g (or_introl eq_refl))) as [g0 ->].
    rewrite orb_true_r.
    destruct (char_at_1 g (Hlen g (or_introl eq_refl))) as [g1 Hg1]. rewrite Hg1.
    destruct (decide (release_group video = Some g1)) as [Heq | Hne].
    + eexists. split; [ reflexivity | ]. split.
      * intros _. right. exists g. split; [ now left | now exists g1 ].
      * intros _. set_solver.
    + destruct IH as (m' & Hm' & Hiff).
      { intros g' Hg'. apply Hlen. now right. }
      exists m'. split; [ exact Hm' | ]. rewrite Hiff. split.
      * intros [H | (g' & Hin & Hs)]; [ now left | ].
        right. exists g'. split; [ now right | exact Hs ].
      * intros [H | (g' & [<- | Hin] & Hs)]; [ now left | | ].
        -- destruct Hs as (g1' & Hc & Hr). congruence.
        -- right. now exists g'.
Qed.

(** Up to the loop, [get_matches] has collected no "release_group": when the
    two videos are of the same kind it arrives at the loop with such a set. *)
Lemma get_matches_before_loop self video w :
  is_Episode video = is_Episode (self_video self) ->
  exists matches,
    ("release_group" ∉ matches) /\
    get_matches X self video w =
      (guess_loop video
         (guessit X (subtitle_filename self) (if is_Movie video then "movie" else "episode"))
         matches,
       after_signals w
         [Log DEBUG
            (MsgGuessit
               (guessit X (subtitle_filename self)
                  (if is_Movie video then "movie" else "episode")))]).
Proof.
  unfold get_matches, is_Episode, is_Movie, video_series, video_season, video_title.
  intros Hkind.
  destruct (kind video) as [e | m]; destruct (kind (self_video self)) as [e' | m'];
    try discriminate; unfold bind, lift, ret, log;
    repeat match goal with
      | |- context [if ?b then _ else _] => destruct b
      | |- context [match ?o with Some _ => _ | None => _ end] => destruct o
      end;
    eexists; (split; [ | reflexivity ]);
    rewrite ?not_elem_of_union, ?not_elem_of_singleton;
    repeat split; first [ discriminate | apply not_elem_of_empty ].
Qed.

(** C10: the guard of the loop holds for every key, whatever its first
    character; and the match is added exactly when the video's release
    group equals the second character of some key of the guess. *)
Theorem release_group_match self video w :
  (forall g,
     In g (guessit X (subtitle_filename self)
             (if is_Movie video then "movie" else "episode")) ->
     (2 <= String.length g)%nat) ->
  is_Episode video = is_Episode (self_video self) ->
  (forall g g0, PyStr.char_at g 0 = Some g0 ->
     String.eqb g0 "release_group" || PyStr.truthy "source" = true) /\
  exists matches w',
    get_matches X self video w = (Ok matches, w') /\
    ("release_group" ∈ matches <->
     exists g,
       In g (guessit X (subtitle_filename self)
               (if is_Movie video then "movie" else "episode")) /\
       second_char_is_release_group video g).
Proof.
  intros Hlen Hkind. split.
  - intros g g0 _. apply orb_true_r.
  - destruct (get_matches_before_loop self video w Hkind) as (m0 & Hm0 & ->).
    destruct (guess_loop_spec video _ m0 Hlen) as (m' & -> & Hiff).
    do 2 eexists. split; [ reflexivity | ].
    rewrite Hiff. split; [ intros [H | H]; [ contradiction | exact H ] | now right ].
Qed.

End Matches.

Lemma release_group_match_witness :
  let v := Fixture.episode_video "Show" 1 5 None (Some "e") None in
  let self := JimakuSubtitle_init v "None_5_e" (JStr "https://jimaku.cc/f/a.srt")
                "[Group] Show - 05.srt" in
  exists matches w',
    get_matches Fixture.X self v (Fixture.world (Fixture.catalog [])) = (Ok matches, w') /\
    "release_group" ∈ matches.
Proof.
  intros v self.
  destruct (release_group_match Fixture.X self v (Fixture.world (Fixture.catalog [])))
    as (_ & matches & w' & Hm & Hiff).
  - intros g [<- | [<- | [<- | []]]]; simpl; lia.
  - reflexivity.
  - exists matches, w'. split; [ exact Hm | ].
    apply Hiff. exists "release_group". split; [ right; now left | ].
    exists "e". split; reflexivity.
Defined.

(** The release group "e" matches through the key "release_group" itself,
    and a subtitle from the video's actual group does not match. *)
Example release_group_match_by_key_letter :
  let v := fun group => Fixture.episode_video "Show" 1 5 None (Some group) None in
  let self := fun group =>
    JimakuSubtitle_init (v group) "None_5" (JStr "https://jimaku.cc/f/a.srt")
      "[Group] Show - 05.srt" in
  let matched := fun group =>
    match fst (get_matches Fixture.X (self group) (v group)
                 (Fixture.world (Fixture.catalog []))) with
    | Ok m => bool_decide ("release_group" ∈ m)
    | Raise _ => false
    end in
  matched "e" = true /\ matched "i" = true /\ matched "Group" = false.
Proof. vm_compute. repeat split. Qed.

(** ** Retrieval and unpacking *)

Section Download.

Context (X : Externals).

Lemma _is_archive_recognized b a w :
  recognized X b a ->
  _is_archive X b w = (Ok (Some a), after_signals w [sniff_signal X b]).
Proof.
  unfold recognized, _is_archive, sniff_signal, bind, log, lift, ret.
  intros [[-> ->] | (-> & -> & ->)]; reflexivity.
Qed.

Lemma _is_archive_unrecognized b w :
  unrecognized X b ->
  _is_archive X b w = (Ok None, after_signals w [sniff_signal X b]).
Proof.
  unfold unrecognized, _is_archive, sniff_signal, bind, log, lift, ret.
  intros [-> ->]. reflexivity.
Qed.

Lemma raise_for_status_2xx r :
  200 <= status_code r < 300 -> raise_for_status r = Ok tt.
Proof.
  intros H. unfold raise_for_status.
  destruct (Z.leb_spec 400 (status_code r)); [ lia | reflexivity ].
Qed.

(** the start of a download whose url is sent and answered with a 2xx
    response *)
Lemma download_subtitle_2xx p subtitle w s u r :
  session p = Some s ->
  subtitle_url subtitle = JStr u ->
  url_accepted X u = true ->
  remote w (List.length (requests w)) u = Ok r ->
  200 <= status_code r < 300 ->
  download_subtitle X p subtitle w =
    (let* archive := _is_archive X (body r) in
     match archive with
     | Some a =>
         let* episode := lift (video_episode (video subtitle)) in
         let* c := lift (get_subtitle_from_archive X a episode) in
         ret (set_content subtitle c)
     | None =>
         if PyStr.endswith_any u [".zip"; ".rar"] then
           log WARNING MsgNotAnArchive;;
           ret subtitle
         else
           ret (set_content subtitle (Some (body r)))
     end) (after_get w u).
Proof.
  intros Hs Hu Ha Hr Hst. unfold download_subtitle. rewrite Hu.
  unfold session_get_url, session_get, bind, lift.
  rewrite Hs, Ha, Hr, (raise_for_status_2xx r Hst).
  fold (after_get w u). cbn [Py.as_str].
  destruct (_is_archive X (body r) (after_get w u)) as [[[a|]|e] w1]; reflexivity.
Qed.

(** What the retrieval does where it works as described: for an episode
    candidate the member the helper selects is attached; bytes that are no
    archive under a ".zip" or ".rar" url leave the content as it was, with a
    warning and no exception; any other body is attached as it is. *)
Lemma download_subtitle_cases p subtitle w s u r :
  session p = Some s ->
  subtitle_url subtitle = JStr u ->
  url_accepted X u = true ->
  remote w (List.length (requests w)) u = Ok r ->
  200 <= status_code r < 300 ->
  (forall a e c,
     recognized X (body r) a ->
     kind (video subtitle) = Episode e ->
     get_subtitle_from_archive X a (episode e) = Ok c ->
     download_subtitle X p subtitle w =
       (Ok (set_content subtitle c),
        after_signals (after_get w u) [sniff_signal X (body r)])) /\
  (unrecognized X (body r) ->
   PyStr.endswith_any u [".zip"; ".rar"] = true ->
   download_subtitle X p subtitle w =
     (Ok subtitle,
      after_signals (after_get w u)
        [sniff_signal X (body r); Log WARNING MsgNotAnArchive])) /\
  (unrecognized X (body r) ->
   PyStr.endswith_any u [".zip"; ".rar"] = false ->
   download_subtitle X p subtitle w =
     (Ok (set_content subtitle (Some (body r))),
      after_signals (after_get w u) [sniff_signal X (body r)])).
Proof.
  intros Hs Hu Ha Hr Hst.
  rewrite (download_subtitle_2xx p subtitle w s u r Hs Hu Ha Hr Hst).
  split; [ | split ].
  - intros a e c Hrec Hk Hc. unfold bind at 1.
    rewrite (_is_archive_recognized _ a _ Hrec).
    unfold bind, lift, ret, video_episode. rewrite Hk, Hc. reflexivity.
  - intros Hun Hext. unfold bind at 1.
    rewrite (_is_archive_unrecognized _ _ Hun), Hext.
    unfold bind, log, ret, after_signals, with_signals.
    cbn [signals remote requests response_cache url_cache].
    now rewrite <- app_assoc.
  - intros Hun Hext. unfold bind at 1.
    rewrite (_is_archive_unrecognized _ _ Hun), Hext. reflexivity.
Qed.

(** C7: for a movie candidate whose download (of a url that is sent, and
    answered with a 2xx response) is a recognized archive the retrieval
    raises: it reads [subtitle.video.episode], which a movie does not have,
    before the member selection is called, and attaches nothing. *)
Theorem download_subtitle_movie_archive_raises p subtitle w s u r a m :
  session p = Some s ->
  subtitle_url subtitle = JStr u ->
  url_accepted X u = true ->
  remote w (List.length (requests w)) u = Ok r ->
  200 <= status_code r < 300 ->
  recognized X (body r) a ->
  kind (video subtitle) = Movie m ->
  download_subtitle X p subtitle w =
    (Raise AttributeError, after_signals (after_get w u) [sniff_signal X (body r)]).
Proof.
  intros Hs Hu Ha Hr Hst Hrec Hk.
  rewrite (download_subtitle_2xx p subtitle w s u r Hs Hu Ha Hr Hst).
  unfold bind at 1. rewrite (_is_archive_recognized _ a _ Hrec).
  unfold bind, lift, video_episode. rewrite Hk. reflexivity.
Qed.

End Download.

Lemma download_subtitle_movie_archive_witness :
  fst (download_subtitle Fixture.X (Fixture.provider true true false) movie_candidate
         (Fixture.world download_remote)) = Raise AttributeError.
Proof.
  rewrite (download_subtitle_movie_archive_raises Fixture.X
             (Fixture.provider true true false) movie_candidate
             (Fixture.world download_remote)
             {| session_headers := [("Authorization", "secret")] |}
             "https://jimaku.cc/f/film.zip"
             {| status_code := 200; headers := []; body := zip_body; json_body := None |}
             zip_body
             {| title := "Film"; alternative_titles := [] |}).
  - reflexivity.
  - reflexivity.
  - reflexivity.
  - reflexivity.
  - reflexivity.
  - simpl. lia.
  - right. repeat split.
  - reflexivity.
Defined.

(** The same archive downloaded for an episode candidate is unpacked. *)
Example download_subtitle_episode_archive :
  let candidate :=
    JimakuSubtitle_init (Fixture.episode_video "Show" 1 5 None (Some "grp") (Some 99))
      "99_5_grp" (JStr "https://jimaku.cc/f/show.zip") "show.zip" in
  content <$> (match fst (download_subtitle Fixture.X (Fixture.provider true true false)
                            candidate (Fixture.world download_remote)) with
               | Ok s => Some s
               | Raise _ => None
               end) = Some (Some [x31; x0a]).
Proof. reflexivity. Qed.

(** ** The synthesized id *)

Module IdFacts.

(** Two strings cut at their first underscore agree part by part. *)
Lemma split_at_underscore s1 : forall s2 t1 t2,
  no_underscore s1 = true -> no_underscore s2 = true ->
  s1 ++ "_" ++ t1 = s2 ++ "_" ++ t2 -> s1 = s2 /\ t1 = t2.
Proof.
  induction s1 as [|c s1 IH]; intros [|c' s2] t1 t2 H1 H2 E; simpl in E.
  - now injection E.
  - injection E as <- _. discriminate.
  - injection E as -> _. discriminate.
  - injection E as <- E. simpl in H1, H2.
    apply andb_true_iff in H1 as [_ H1]. apply andb_true_iff in H2 as [_ H2].
    destruct (IH s2 t1 t2 H1 H2 E) as [-> ->]. now split.
Qed.

Lemma uint_no_underscore d : no_underscore (NilEmpty.string_of_uint d) = true.
Proof. induction d; simpl; auto. Qed.

Lemma of_Z_no_underscore z : no_underscore (PyStr.of_Z z) = true.
Proof.
  unfold PyStr.of_Z, NilZero.string_of_int, NilZero.string_of_uint.
  destruct (Z.to_int z) as [d | d]; destruct d; simpl;
    rewrite ?uint_no_underscore; reflexivity.
Qed.

Lemma to_int_parses z :
  NilZero.int_of_string (PyStr.of_Z z) = Some (Z.to_int z).
Proof.
  unfold PyStr.of_Z. apply NilZero.isi.
  - destruct z; simpl; intros [=]. now apply (DecimalPos.Unsigned.to_uint_nonnil p).
  - destruct z; simpl; intros [=]. now apply (DecimalPos.Unsigned.to_uint_nonnil p).
Qed.

Lemma of_Z_inj z z' : PyStr.of_Z z = PyStr.of_Z z' -> z = z'.
Proof.
  intros E. apply DecimalZ.to_int_inj.
  assert (H : Some (Z.to_int z) = Some (Z.to_int z'))
    by (rewrite <- !to_int_parses; now rewrite E).
  now injection H.
Qed.

Lemma of_Z_not_None z : PyStr.of_Z z <> "None".
Proof.
  intros E. pose proof (to_int_parses z) as H. rewrite E in H. discriminate.
Qed.

Lemma of_opt_Z_no_underscore o : no_underscore (PyStr.of_opt_Z o) = true.
Proof. destruct o; [ apply of_Z_no_underscore | reflexivity ]. Qed.

Lemma of_opt_Z_inj o o' : PyStr.of_opt_Z o = PyStr.of_opt_Z o' -> o = o'.
Proof.
  destruct o as [z|], o' as [z'|]; simpl; intros E.
  - f_equal. now apply of_Z_inj.
  - now apply of_Z_not_None in E.
  - symmetry in E. now apply of_Z_not_None in E.
  - reflexivity.
Qed.

End IdFacts.

Section Ids.

Context (X : Externals).

(** the listing loop hands on the episode number it was started with: the
    offset number is never put in its place *)
Lemma files_body_keeps_number p video entry_id retry_count n w n' d w' :
  1 <= retry_count ->
  _query_files_body X p video entry_id retry_count n w = (Ok (Next (n', d)), w') ->
  n' = n.
Proof.
  intros Hrc. unfold _query_files_body. unfold bind at 1.
  destruct (_get_jimaku_response X p (files_url X video entry_id n) w)
    as [[data|e] w1]; [ | discriminate ].
  destruct (Z.ltb_spec retry_count 1) as [Hlt|_]; [ lia | ].
  rewrite andb_false_r.
  destruct (negb (Py.truthy data)); unfold ret; intros [=]; congruence.
Qed.

Lemma files_loop_keeps_number p video entry_id n d0 w n' d w' :
  _query_files_loop X p video entry_id 2 0 (n, d0) w = (Ok (Next (n', d)), w') ->
  n' = n.
Proof.
  cbn [_query_files_loop fst]. unfold bind at 1.
  destruct (_query_files_body X p video entry_id (0 + 1) n w)
    as [[[v|[n1 d1]]|e] w1] eqn:H1; try discriminate.
  apply files_body_keeps_number in H1 as ->; [ | lia ].
  unfold bind at 1. cbn [fst].
  destruct (_query_files_body X p video entry_id (0 + 1 + 1) n w1)
    as [[[v|[n2 d2]]|e] w2] eqn:H2; try discriminate.
  apply files_body_keeps_number in H2 as ->; [ | lia ].
  unfold ret. intros [=]. congruence.
Qed.

(** when the loop returns, it returns [None] *)
Lemma files_body_returns_none p video entry_id retry_count n w v w' :
  _query_files_body X p video entry_id retry_count n w = (Ok (Return v), w') ->
  v = None.
Proof.
  unfold _query_files_body. unfold bind at 1.
  destruct (_get_jimaku_response X p (files_url X video entry_id n) w)
    as [[data|e] w1]; [ | discriminate ].
  repeat match goal with
    | |- context [if ?b then _ else _] => destruct b
    end;
    unfold bind, log, ret; intros [=]; congruence.
Qed.

Lemma files_loop_returns_none p video entry_id n d0 w v w' :
  _query_files_loop X p video entry_id 2 0 (n, d0) w = (Ok (Return v), w') ->
  v = None.
Proof.
  cbn [_query_files_loop fst]. unfold bind at 1.
  destruct (_query_files_body X p video entry_id (0 + 1) n w)
    as [[[v1|[n1 d1]]|e] w1] eqn:H1; try discriminate.
  { apply files_body_returns_none in H1 as ->. unfold ret. intros [=]. congruence. }
  unfold bind at 1. cbn [fst].
  destruct (_query_files_body X p video entry_id (0 + 1 + 1) n1 w1)
    as [[[v2|[n2 d2]]|e] w2] eqn:H2; try discriminate.
  apply files_body_returns_none in H2 as ->. unfold ret. intros [=]. congruence.
Qed.

(** the external id the listing goes on with is the [anilist_id] of the
    first entry of the search response, [None] when the entry has none *)
Lemma _query_first_entry_external_id data w ids w' :
  _query_first_entry data w = (Ok ids, w') ->
  first_entry_external_id data (snd ids).
Proof.
  unfold _query_first_entry, first_entry_external_id. unfold bind at 1. unfold lift at 1.
  destruct (Py.getitem_0 data) as [entry|e]; [ | discriminate ].
  intros H. exists entry. split; [ reflexivity | ].
  revert H. unfold bind, lift, ret, log.
  repeat first
    [ progress intros
    | discriminate
    | match goal with
      | H : (Ok _, _) = (Ok _, _) |- _ => injection H as ? ?; subst
      | H : context [match ?x with _ => _ end] |- _ => destruct x eqn:?
      | H : context [if ?x then _ else _] |- _ => destruct x eqn:?
      end ];
    reflexivity.
Qed.

Lemma make_subtitle_id_synthesized video external_id :
  make_subtitle_id X video external_id
    (match kind video with Episode e => episode e | Movie _ => None end) =
  synthesized_id X external_id (listed_number video) (release_group video).
Proof.
  unfold make_subtitle_id, synthesized_id, listed_number, is_Episode.
  destruct (kind video); reflexivity.
Qed.

(** the ids of everything a query returns *)
Lemma _query_ids p video w subs w' :
  _query X p video w = (Ok (Some subs), w') ->
  exists data w1 external_id,
    _query_search X p video w = (Ok data, w1) /\
    first_entry_external_id data external_id /\
    Forall (fun s => subtitle_id s =
                     synthesized_id X external_id (listed_number video)
                       (release_group video)) subs.
Proof.
  unfold _query. unfold bind at 1.
  destruct (_query_search X p video w) as [[data|e] w1]; [ | discriminate ].
  destruct (negb (Py.truthy data)); [ discriminate | ].
  unfold bind at 1.
  destruct (_query_first_entry data w1) as [[ids|e] w2] eqn:Hentry; [ | discriminate ].
  apply _query_first_entry_external_id in Hentry.
  unfold bind at 1.
  destruct (_query_files_loop X p video (fst ids) 2 0 _ w2)
    as [[[v|[n d]]|e] w3] eqn:Hloop; try discriminate.
  - unfold ret. intros [= -> _].
    apply files_loop_returns_none in Hloop. discriminate.
  - apply files_loop_keeps_number in Hloop as ->.
    unfold bind at 1.
    destruct (_query_filter X p video (snd ids) _ d w3) as [[l|e] w4] eqn:Hfilter;
      [ | discriminate ].
    unfold ret. intros [= <- _].
    exists data, w1, (snd ids). split; [ reflexivity | ]. split; [ exact Hentry | ].
    apply _query_filter_ids in Hfilter.
    now rewrite make_subtitle_id_synthesized in Hfilter.
Qed.

(** C8, as the code has it: the id of every candidate a listing returns is
    put together from the external id of the first entry of the search
    response (absent: "None"), the episode number of the video ("0" for a
    movie) and the release group of the video, and from nothing else: the
    id and the name of the entry do not enter it; and two such ids, for
    external ids that are absent or integers and for episodes, are equal
    exactly when the external ids agree, the episode numbers agree and the
    release groups render alike. *)
Theorem subtitle_id_determined_by_triple :
  (forall p video w subs w' s,
     list_subtitles X p video w = (Ok subs, w') ->
     In s subs ->
     exists data w1 external_id,
       _query_search X p video w = (Ok data, w1) /\
       first_entry_external_id data external_id /\
       id_ s = synthesized_id X external_id (listed_number video) (release_group video)) /\
  (forall a a' n n' g g',
     synthesized_id X (external_id_json a) (PyStr.of_opt_Z n) g =
       synthesized_id X (external_id_json a') (PyStr.of_opt_Z n') g'
     <-> a = a' /\ n = n' /\ PyStr.of_opt_str g = PyStr.of_opt_str g').
Proof.
  split.
  - intros p video w subs w' s. unfold list_subtitles. unfold bind at 1.
    destruct (_query X p video w) as [[[l|]|e] wq] eqn:Hq; try discriminate.
    2: { unfold ret. intros [= <- _] []. }
    intros Hl Hin.
    assert (Hsubs : subs = l) by (destruct l; now injection Hl).
    subst l. destruct (_query_ids p video w subs wq Hq) as (data & w1 & a & Hs & Ha & Hids).
    exists data, w1, a. split; [ exact Hs | ]. split; [ exact Ha | ].
    rewrite List.Forall_forall in Hids. exact (Hids s Hin).
  - intros a a' n n' g g'. unfold synthesized_id.
    assert (Hstr : forall o, py_str X (external_id_json o) = PyStr.of_opt_Z o)
      by (intros [z|]; reflexivity).
    rewrite !Hstr. split.
    + intros E.
      apply IdFacts.split_at_underscore in E as [Ea E];
        try apply IdFacts.of_opt_Z_no_underscore.
      apply IdFacts.split_at_underscore in E as [En Eg];
        try apply IdFacts.of_opt_Z_no_underscore.
      apply IdFacts.of_opt_Z_inj in Ea. apply IdFacts.of_opt_Z_inj in En.
      now repeat split.
    + intros (-> & -> & ->). reflexivity.
Qed.

End Ids.

Lemma subtitle_id_determined_witness :
  let p := Fixture.provider true true false in
  let v := Fixture.episode_video "Show A" 1 5 None (Some "grp") None in
  (exists s,
     fst (list_subtitles Fixture.X p v (Fixture.world unlinked_catalog)) = Ok [s] /\
     id_ s = "None_5_grp") /\
  synthesized_id Fixture.X (external_id_json (Some 1234)) (PyStr.of_opt_Z (Some 5))
    (Some "grp") =
  synthesized_id Fixture.X (external_id_json (Some 1234)) (PyStr.of_opt_Z (Some 5))
    (Some "grp").
Proof.
  intros p v.
  destruct (subtitle_id_determined_by_triple Fixture.X) as [Hbuilt Hinj].
  split.
  - destruct (list_subtitles Fixture.X p v (Fixture.world unlinked_catalog))
      as [[subs|e] w'] eqn:Hrun.
    2: { vm_compute in Hrun. discriminate. }
    assert (Hone : exists s, subs = [s]).
    { vm_compute in Hrun. injection Hrun as <- _. eexists. reflexivity. }
    destruct Hone as [s ->]. exists s. split; [ reflexivity | ].
    destruct (Hbuilt p v _ [s] w' s Hrun (or_introl eq_refl))
      as (data & w1 & a & Hsearch & Hentry & ->).
    vm_compute in Hsearch. injection Hsearch as <- _.
    destruct Hentry as (entry & Hfirst & Hget). vm_compute in Hfirst.
    injection Hfirst as <-. vm_compute in Hget. injection Hget as <-.
    reflexivity.
  - apply (proj2 (Hinj (Some 1234) (Some 1234) (Some 5) (Some 5) (Some "grp") (Some "grp"))).
    repeat split.
Defined.

(** C8 as stated fails: two episode identities with distinct tuples (the
    names differ, neither has an external id) get candidates with one and the
    same id, "None_5_grp"; the entry ids 7 and 8 do not enter it. *)
Lemma distinct_identities_share_an_id :
  let p := Fixture.provider true true false in
  let v1 := Fixture.episode_video "Show A" 1 5 None (Some "grp") None in
  let v2 := Fixture.episode_video "Show B" 1 5 None (Some "grp") None in
  identity_tuple v1 <> identity_tuple v2 /\
  exists s1 s2,
    fst (list_subtitles Fixture.X p v1 (Fixture.world unlinked_catalog)) = Ok [s1] /\
    fst (list_subtitles Fixture.X p v2 (Fixture.world unlinked_catalog)) = Ok [s2] /\
    subtitle_filename s1 <> subtitle_filename s2 /\
    id_ s1 = "None_5_grp" /\
    id_ s2 = "None_5_grp".
Proof.
  intros p v1 v2. split; [ discriminate | ].
  do 2 eexists. split; [ vm_compute; reflexivity | ].
  split; [ vm_compute; reflexivity | ].
  split; [ discriminate | split; reflexivity ].
Qed.

(** ** More on the fetcher: statuses, bodies, and what the cache holds *)

Section FetcherOutcomes.

Context (X : Externals).

Lemma len_nonzero_truthy data n :
  Py.len data = Ok n -> (n =? 0) = false -> Py.truthy data = true.
Proof.
  destruct data as [| | |s|l|d]; try discriminate; intros [= <-].
  - destruct s; [ discriminate | reflexivity ].
  - destruct l; [ discriminate | reflexivity ].
  - destruct d; [ discriminate | reflexivity ].
Qed.

(** a cache miss runs the body of the loop once *)
Lemma fetch_miss p url_path w :
  response_cache w !! (self_id p, url_path) = None ->
  _get_jimaku_response X p url_path w =
    (let* r := _get_jimaku_response_body X p url_path (api_url ++ "/" ++ url_path) 1 in
     match r with
     | Return v =>
         fun w' =>
           (Ok v, with_response_cache w'
                    (<[(self_id p, url_path) := v]> (response_cache w')))
     | Next _ => raise APIThrottled
     end) w.
Proof.
  intros Hc. unfold bind.
  destruct (_get_jimaku_response_body X p url_path (api_url ++ "/" ++ url_path) 1 w)
    as [[[v|u]|e] w1] eqn:Hb.
  2: { exfalso. eapply _get_jimaku_response_body_returns; eauto. }
  all: unfold _get_jimaku_response; rewrite Hc;
    unfold _get_jimaku_response_uncached;
    change (Z.to_nat api_ratelimit_backoff_limit) with 3%nat;
    cbn [_get_jimaku_response_loop]; unfold bind at 1;
    change (0 + 1) with 1; rewrite Hb; reflexivity.
Qed.

(** X1: a 401 answer ends the fetch with [AuthenticationError] after the one
    GET: nothing is slept, logged or stored. *)
Theorem fetch_unauthorized p url_path w s r :
  session p = Some s ->
  response_cache w !! (self_id p, url_path) = None ->
  remote w (List.length (requests w)) (api_url ++ "/" ++ url_path) = Ok r ->
  status_code r = 401 ->
  _get_jimaku_response X p url_path w =
    (Raise AuthenticationError, after_get w (api_url ++ "/" ++ url_path)).
Proof.
  intros Hs Hc Hr Hst. rewrite (fetch_miss p url_path w Hc).
  unfold _get_jimaku_response_body, bind, session_get.
  rewrite Hs, Hr, Hst. reflexivity.
Qed.

(** X2: any other 4xx or 5xx answer ends the fetch with [HTTPError] after
    the one GET, without a sleep and without a second attempt. *)
Theorem fetch_http_error p url_path w s r :
  session p = Some s ->
  response_cache w !! (self_id p, url_path) = None ->
  remote w (List.length (requests w)) (api_url ++ "/" ++ url_path) = Ok r ->
  400 <= status_code r < 600 ->
  status_code r <> 429 ->
  status_code r <> 401 ->
  _get_jimaku_response X p url_path w =
    (Raise HTTPError, after_get w (api_url ++ "/" ++ url_path)).
Proof.
  intros Hs Hc Hr Hst H429 H401. rewrite (fetch_miss p url_path w Hc).
  unfold _get_jimaku_response_body, bind, session_get.
  rewrite Hs, Hr.
  apply Z.eqb_neq in H429, H401. rewrite H429, H401.
  unfold ret, lift, raise_for_status.
  destruct (Z.leb_spec 400 (status_code r)); [ | lia ].
  destruct (Z.ltb_spec (status_code r) 600); [ | lia ].
  reflexivity.
Qed.

(** X3: a fetch that raises stores nothing: the cache is as before and has
    no entry for the path, so the next fetch of the path asks the catalog
    again. *)
Theorem fetch_failure_is_not_memoized p url_path w e w' :
  _get_jimaku_response X p url_path w = (Raise e, w') ->
  response_cache w' = response_cache w /\
  response_cache w' !! (self_id p, url_path) = None /\
  forall s, session p = Some s ->
    requests (snd (_get_jimaku_response X p url_path w')) =
      (requests w' ++ [(api_url ++ "/" ++ url_path)%string])%list.
Proof.
  intros H. unfold _get_jimaku_response in H.
  destruct (response_cache w !! (self_id p, url_path)) eqn:Hc; [ discriminate | ].
  pose proof (same__get_jimaku_response_uncached X p url_path w) as Hsame.
  destruct (_get_jimaku_response_uncached X p url_path w) as [[v|e'] w1];
    [ discriminate | ].
  injection H as <- <-. simpl in Hsame.
  assert (Hnone : response_cache w1 !! (self_id p, url_path) = None)
    by now rewrite Hsame.
  repeat split; [ exact Hsame | exact Hnone | ].
  intros s Hs. now apply (fetch_issues_one_get X p url_path w1 s).
Qed.

(** X4: a 2xx answer with a JSON body is normalised: an empty body and an
    object with an [error] key give [None], any other body is returned as
    it is; the value is stored under the path, after one GET. *)
Theorem fetch_2xx_normalises p url_path w s r data n has_error :
  session p = Some s ->
  response_cache w !! (self_id p, url_path) = None ->
  remote w (List.length (requests w)) (api_url ++ "/" ++ url_path) = Ok r ->
  200 <= status_code r < 300 ->
  json_body r = Some data ->
  Py.len data = Ok n ->
  Py.contains_key "error" data = Ok has_error ->
  (n <> 0 -> has_error = true -> exists d, data = JDict d) ->
  let out := _get_jimaku_response X p url_path w in
  fst out = Ok (normalised data n has_error) /\
  response_cache (snd out) =
    <[(self_id p, url_path) := normalised data n has_error]> (response_cache w) /\
  requests (snd out) = (requests w ++ [(api_url ++ "/" ++ url_path)%string])%list.
Proof.
  intros Hs Hc Hr Hst Hj Hlen Herr Hdict out. subst out.
  rewrite (fetch_miss p url_path w Hc).
  unfold _get_jimaku_response_body, bind, session_get.
  rewrite Hs, Hr.
  assert (H429 : (status_code r =? 429) = false) by (apply Z.eqb_neq; lia).
  assert (H401 : (status_code r =? 401) = false) by (apply Z.eqb_neq; lia).
  rewrite H429, H401. unfold ret, lift, raise_for_status, response_json, log.
  destruct (Z.leb_spec 400 (status_code r)); [ lia | ].
  cbn [andb]. rewrite Hj, Hlen. unfold normalised.
  destruct (n =? 0) eqn:Hn0; cbn [orb].
  - repeat split.
  - rewrite Herr. destruct has_error.
    + destruct Hdict as [d ->]; [ now apply Z.eqb_neq | reflexivity | ].
      cbn. repeat split.
    + repeat split.
Qed.

(** X5: what a fetch returns is [None] or a non-empty body, as long as the
    cache held nothing else before; and the cache keeps that shape. *)
Theorem fetch_returns_none_or_data p url_path w v w' :
  cache_normal w ->
  _get_jimaku_response X p url_path w = (Ok v, w') ->
  (v = JNull \/ Py.truthy v = true) /\ cache_normal w'.
Proof.
  intros Hn H.
  destruct (response_cache w !! (self_id p, url_path)) as [v0|] eqn:Hc.
  - rewrite (fetch_hit X p url_path w v0 Hc) in H. injection H as <- <-.
    split; [ eapply Hn; eauto | exact Hn ].
  - rewrite (fetch_miss p url_path w Hc) in H.
    pose proof (same__get_jimaku_response_uncached X p url_path w) as Hsame.
    unfold bind at 1 in H.
    destruct (_get_jimaku_response_body X p url_path _ 1 w) as [[[v1|u]|e] w1] eqn:Hb;
      [ | exfalso; eapply _get_jimaku_response_body_returns; eauto | discriminate ].
    injection H as <- <-.
    assert (Hv : v1 = JNull \/ Py.truthy v1 = true).
    { revert Hb.
      unfold _get_jimaku_response_body, bind, session_get, lift, ret, raise, log, sleep.
      repeat first
        [ progress intros
        | discriminate
        | match goal with
          | H : (_, _) = (_, _) |- _ => injection H as ? ?; subst
          | H : context [match ?x with _ => _ end] |- _ => destruct x eqn:?
          | H : context [if ?x then _ else _] |- _ => destruct x eqn:?
          end ];
      first [ now left | right; eapply len_nonzero_truthy; eauto ]. }
    split; [ exact Hv | ].
    assert (Hw1 : response_cache w1 = response_cache w).
    { revert Hsame. unfold _get_jimaku_response_uncached.
      change (Z.to_nat api_ratelimit_backoff_limit) with 3%nat.
      cbn [_get_jimaku_response_loop]. unfold bind at 1.
      change (0 + 1) with 1. rewrite Hb. trivial. }
    intros k v' Hk. cbn [response_cache with_response_cache] in Hk.
    rewrite Hw1 in Hk.
    destruct (decide ((self_id p, url_path) = k)) as [<- | Hne].
    + rewrite lookup_insert_eq in Hk. now injection Hk as <-.
    + rewrite lookup_insert_ne in Hk by exact Hne. eapply Hn; eauto.
Qed.

(** X6: a 2xx body that is a JSON array holding the string "error" is taken
    for an error payload, and reading its message raises [AttributeError]:
    the fetch does not return [None] for it. *)
Theorem fetch_error_string_in_array_raises p url_path w s r l :
  session p = Some s ->
  response_cache w !! (self_id p, url_path) = None ->
  remote w (List.length (requests w)) (api_url ++ "/" ++ url_path) = Ok r ->
  200 <= status_code r < 300 ->
  json_body r = Some (JList l) ->
  In (JStr "error") l ->
  fst (_get_jimaku_response X p url_path w) = Raise AttributeError.
Proof.
  intros Hs Hc Hr Hst Hj Hin.
  rewrite (fetch_miss p url_path w Hc).
  unfold _get_jimaku_response_body, bind, session_get.
  rewrite Hs, Hr.
  assert (H429 : (status_code r =? 429) = false) by (apply Z.eqb_neq; lia).
  assert (H401 : (status_code r =? 401) = false) by (apply Z.eqb_neq; lia).
  rewrite H429, H401. unfold ret, lift, raise_for_status, response_json, log.
  destruct (Z.leb_spec 400 (status_code r)); [ lia | ].
  cbn [andb]. rewrite Hj. cbn [Py.len Py.contains_key Py.get].
  destruct l as [|x l]; [ contradiction | ].
  change (Z.of_nat (List.length (x :: l)) =? 0) with false. cbv beta iota.
  assert (He : existsb (Py.is_str "error") (x :: l) = true).
  { apply existsb_exists. exists (JStr "error"). split; [ exact Hin | reflexivity ]. }
  rewrite He. reflexivity.
Qed.

End FetcherOutcomes.

Lemma fetch_unauthorized_witness :
  _get_jimaku_response Fixture.X (Fixture.provider true true false) "entries/7/files"
    (Fixture.world unauthorized_remote) =
  (Raise AuthenticationError,
   after_get (Fixture.world unauthorized_remote) "https://jimaku.cc/api/entries/7/files").
Proof.
  eapply (fetch_unauthorized Fixture.X (Fixture.provider true true false)
            "entries/7/files" (Fixture.world unauthorized_remote));
    reflexivity.
Defined.

Lemma fetch_http_error_witness :
  _get_jimaku_response Fixture.X (Fixture.provider true true false) "entries/7/files"
    (Fixture.world flaky_remote) =
  (Raise HTTPError,
   after_get (Fixture.world flaky_remote) "https://jimaku.cc/api/entries/7/files").
Proof.
  eapply (fetch_http_error Fixture.X (Fixture.provider true true false)
            "entries/7/files" (Fixture.world flaky_remote));
    first [ reflexivity | simpl; lia | discriminate ].
Defined.

Lemma fetch_failure_is_not_memoized_witness :
  let p := Fixture.provider true true false in
  let w' := snd (_get_jimaku_response Fixture.X p "entries/7/files"
                   (Fixture.world flaky_remote)) in
  requests (snd (_get_jimaku_response Fixture.X p "entries/7/files" w')) =
    ["https://jimaku.cc/api/entries/7/files"; "https://jimaku.cc/api/entries/7/files"].
Proof.
  intros p w'.
  destruct (fetch_failure_is_not_memoized Fixture.X p "entries/7/files"
              (Fixture.world flaky_remote) HTTPError w' eq_refl) as (_ & _ & H).
  exact (H _ eq_refl).
Defined.

Lemma fetch_2xx_normalises_witness :
  let p := Fixture.provider true true false in
  fst (_get_jimaku_response Fixture.X p "entries/7/files"
         (Fixture.world (answering (JDict [("error", JStr "Entry not found");
                                           ("code", JInt 404)])))) = Ok JNull /\
  fst (_get_jimaku_response Fixture.X p "entries/7/files"
         (Fixture.world (answering (JList [Fixture.file "a.srt" None])))) =
    Ok (JList [Fixture.file "a.srt" None]).
Proof.
  intros p. split.
  - eapply (fetch_2xx_normalises Fixture.X p "entries/7/files"
              (Fixture.world (answering (JDict [("error", JStr "Entry not found");
                                                ("code", JInt 404)])))
              _ _ _ 2 true);
      first [ reflexivity | simpl; lia | intros _ _; eexists; reflexivity ].
  - eapply (fetch_2xx_normalises Fixture.X p "entries/7/files"
              (Fixture.world (answering (JList [Fixture.file "a.srt" None])))
              _ _ _ 1 false);
      first [ reflexivity | simpl; lia | intros _ [=] ].
Defined.

Lemma fetch_returns_none_or_data_witness :
  let p := Fixture.provider true true false in
  let out := _get_jimaku_response Fixture.X p "entries/7/files"
               (Fixture.world (answering (JList []))) in
  (fst out = Ok JNull) /\ cache_normal (snd out).
Proof.
  intros p out. split; [ reflexivity | ].
  apply (fetch_returns_none_or_data Fixture.X p "entries/7/files"
           (Fixture.world (answering (JList []))) JNull (snd out)).
  - intros k v Hk. cbn in Hk. rewrite lookup_empty in Hk. discriminate.
  - reflexivity.
Defined.

Lemma fetch_error_string_in_array_witness :
  fst (_get_jimaku_response Fixture.X (Fixture.provider true true false)
         "entries/7/files"
         (Fixture.world (answering (JList [JStr "warning"; JStr "error"])))) =
  Raise AttributeError.
Proof.
  eapply (fetch_error_string_in_array_raises Fixture.X
            (Fixture.provider true true false) "entries/7/files"
            (Fixture.world (answering (JList [JStr "warning"; JStr "error"]))));
    first [ reflexivity | simpl; lia | right; left; reflexivity ].
Defined.

(** ** The provider's life cycle *)

Section LifeCycle.

Context (X : Externals).

(** X7: a provider as [__init__] builds it has no session: a fetch that
    misses the cache raises [AttributeError] and reaches no catalog, and
    [terminate] raises as well.  After [initialize] the same fetch issues its
    GET, and the session sends the key as its [Authorization] header. *)
Theorem provider_needs_initialize ident archives ai_subs key p url_path w :
  JimakuProvider_init ident archives ai_subs key = Ok p ->
  response_cache w !! (ident, url_path) = None ->
  _get_jimaku_response X p url_path w = (Raise AttributeError, w) /\
  terminate p = Raise AttributeError /\
  requests (snd (_get_jimaku_response X (initialize X p) url_path w)) =
    (requests w ++ [(api_url ++ "/" ++ url_path)%string])%list /\
  (exists s, session (initialize X p) = Some s /\
             header_get "authorization" (session_headers s) = key).
Proof.
  unfold JimakuProvider_init. intros Hinit Hc.
  destruct key as [k|]; [ | discriminate ].
  destruct (PyStr.truthy k); [ | discriminate ].
  injection Hinit as Hp.
  assert (Hid : self_id p = ident) by now subst p.
  assert (Hs : session p = None) by now subst p.
  assert (Hk : api_key p = k) by now subst p.
  rewrite <- Hid in Hc.
  split; [ | split; [ | split ] ].
  - rewrite (fetch_miss X p url_path w Hc).
    unfold bind, _get_jimaku_response_body, session_get. now rewrite Hs.
  - unfold terminate. now rewrite Hs.
  - eapply fetch_issues_one_get; [ reflexivity | exact Hc ].
  - eexists. split; [ reflexivity | ]. cbn. now rewrite Hk.
Qed.

End LifeCycle.

Lemma provider_needs_initialize_witness :
  _get_jimaku_response Fixture.X
    {| self_id := 1; api_key := "secret"; enable_archives := true;
       enable_ai_subs := true; session := None; episode_number_override := false |}
    "entries/7/files" (Fixture.world (answering (JList []))) =
  (Raise AttributeError, Fixture.world (answering (JList []))).
Proof.
  apply (provider_needs_initialize Fixture.X 1 true true (Some "secret") _
           "entries/7/files" (Fixture.world (answering (JList []))) eq_refl).
  reflexivity.
Defined.

(** ** More on the query: the requests it makes, and repeating it *)

Section QueryRequests.

Context (X : Externals).

Lemma of_Z_truthy z : PyStr.truthy (PyStr.of_Z z) = true.
Proof.
  unfold PyStr.truthy. destruct (String.eqb_spec (PyStr.of_Z z) EmptyString) as [E|];
    [ | reflexivity ].
  pose proof (IdFacts.to_int_parses z) as H. rewrite E in H. discriminate.
Qed.

Lemma append_empty_r s : s ++ EmptyString = s.
Proof.
  induction s as [|c s IH]; [ reflexivity | ].
  change (String c (s ++ EmptyString) = String c s). now rewrite IH.
Qed.

Lemma media_name_of_episode video e sn :
  kind video = Episode e -> season e = Some sn ->
  media_name_of X video = Ok (episode_search_name X (series e) sn).
Proof.
  intros Hk Hs. unfold media_name_of, episode_search_name. rewrite Hk, Hs.
  destruct (1 <? sn).
  - now rewrite of_Z_truthy.
  - now rewrite append_empty_r.
Qed.

(** the search, at a miss of both caches, is one GET of the assembled path *)
Lemma _query_search_requests p video w s m path :
  session p = Some s ->
  media_name_of X video = Ok m ->
  url_cache_get (self_id p, video, m) (url_cache w) = None ->
  fst (_assemble_jimaku_search_url_uncached X video m w) = Ok path ->
  response_cache w !! (self_id p, path) = None ->
  requests (snd (_query_search X p video w)) =
    (requests w ++ [(api_url ++ "/" ++ path)%string])%list.
Proof.
  intros Hs Hm Hu Hp Hc. unfold _query_search. unfold bind at 1. unfold lift at 1.
  rewrite Hm. unfold bind at 1. unfold _assemble_jimaku_search_url. rewrite Hu.
  assert (Hsame : same_cache (_assemble_jimaku_search_url_uncached X video m)).
  { intros w0. unfold _assemble_jimaku_search_url_uncached, bind, log, ret.
    destruct (anilist_id video) as [i|]; [ destruct (negb (i =? 0)) | ]; reflexivity. }
  assert (Hreq : requests (snd (_assemble_jimaku_search_url_uncached X video m w)) =
                 requests w).
  { unfold _assemble_jimaku_search_url_uncached, bind, log, ret.
    destruct (anilist_id video) as [i|]; [ destruct (negb (i =? 0)) | ]; reflexivity. }
  specialize (Hsame w).
  destruct (_assemble_jimaku_search_url_uncached X video m w) as [[u|e] w1];
    simpl in Hp, Hsame, Hreq; [ | discriminate ].
  injection Hp as ->.
  rewrite (fetch_issues_one_get X p path _ s Hs).
  - cbn [requests with_url_cache]. now rewrite Hreq.
  - cbn [response_cache with_url_cache]. now rewrite Hsame.
Qed.

(** X8: an identity with a known, non-zero external id is searched by that
    id alone: at a miss of the caches the search is one GET of
    [entries/search?anilist_id=<id>], whatever the name and the season. *)
Theorem search_by_external_id p video w s m i :
  session p = Some s ->
  media_name_of X video = Ok m ->
  anilist_id video = Some i ->
  i <> 0 ->
  url_cache_get (self_id p, video, m) (url_cache w) = None ->
  response_cache w !! (self_id p, search_path_by_id i) = None ->
  requests (snd (_query_search X p video w)) =
    (requests w ++ [(api_url ++ "/" ++ search_path_by_id i)%string])%list.
Proof.
  intros Hs Hm Ha Hi Hu Hc.
  apply (_query_search_requests p video w s m _ Hs Hm Hu); [ | exact Hc ].
  unfold _assemble_jimaku_search_url_uncached. rewrite Ha.
  apply Z.eqb_neq in Hi. rewrite Hi. reflexivity.
Qed.

(** X9: an episode without an external id (or with the id 0) is searched by
    name: the series as [str.lower()] renders it, with the season number
    appended from season 2 on, url-quoted into [entries/search?query=...];
    for a series of ASCII characters the rendering is the series with its
    capital letters in lower case. *)
Theorem search_episode_by_name p video w s e sn :
  session p = Some s ->
  kind video = Episode e ->
  season e = Some sn ->
  anilist_id video = None \/ anilist_id video = Some 0 ->
  let name := episode_search_name X (series e) sn in
  url_cache_get (self_id p, video, name) (url_cache w) = None ->
  response_cache w !! (self_id p, "entries/search?query=" ++ quote_plus X name) = None ->
  requests (snd (_query_search X p video w)) =
    (requests w ++
     [(api_url ++ "/" ++ "entries/search?query=" ++ quote_plus X name)%string])%list /\
  (PyStr.is_ascii (series e) = true ->
   name = PyStr.lower (series e) ++
          (if 1 <? sn then " " ++ PyStr.of_Z sn else EmptyString)).
Proof.
  intros Hs Hk Hsn Ha name Hu Hc. split.
  - apply (_query_search_requests p video w s name _ Hs
             (media_name_of_episode video e sn Hk Hsn) Hu); [ | exact Hc ].
    unfold _assemble_jimaku_search_url_uncached.
    destruct Ha as [-> | ->]; reflexivity.
  - intros Hascii. subst name. unfold episode_search_name, str_lower.
    now rewrite Hascii.
Qed.

(** X10: an entry that comes without an object under [flags] does not count
    as a miss: the listing raises [AttributeError] when it reads the
    [unverified] flag, and makes no further request. *)
Theorem entry_without_flags_raises p video w d rest w1 :
  _query_search X p video w = (Ok (JList (JDict d :: rest)), w1) ->
  (forall fl, Py.assoc "flags" d <> Some (JDict fl)) ->
  fst (list_subtitles X p video w) = Raise AttributeError /\
  requests (snd (list_subtitles X p video w)) = requests w1.
Proof.
  intros Hs Hfl.
  assert (Hl : exists sigs,
             list_subtitles X p video w = (Raise AttributeError, after_signals w1 sigs)).
  { unfold list_subtitles, _query.
    unfold bind at 1. unfold bind at 1. rewrite Hs. cbn [Py.truthy negb].
    unfold bind at 1.
    unfold _query_first_entry, bind, lift, log, ret.
    cbn [Py.getitem_0 Py.get Py.get_default].
    destruct (Py.assoc "flags" d) as [[|b|z|s0|l|fl]|];
      try (now destruct (Hfl fl)); cbn [Py.get]; eexists; reflexivity. }
  destruct Hl as [sigs ->]. split; reflexivity.
Qed.

(** X11: when the file list comes back with data, the listing loop makes
    that one request only: its second pass is answered from the cache, and
    the loop ends with the episode number and the data of the first pass. *)
Theorem listing_with_data_requests_once p video entry_id episode_number data0 w s d w1 :
  session p = Some s ->
  response_cache w !! (self_id p, files_url X video entry_id episode_number) = None ->
  _get_jimaku_response X p (files_url X video entry_id episode_number) w = (Ok d, w1) ->
  Py.truthy d = true ->
  let out := _query_files_loop X p video entry_id 2 0 (episode_number, data0) w in
  fst out = Ok (Next (episode_number, d)) /\
  requests (snd out) =
    (requests w ++
     [(api_url ++ "/" ++ files_url X video entry_id episode_number)%string])%list.
Proof.
  intros Hs Hc H Ht out. subst out.
  rewrite (files_loop_with_data X p video entry_id episode_number data0 w d w1 H Ht).
  split; [ reflexivity | ].
  pose proof (fetch_issues_one_get X p _ w s Hs Hc) as Hreq.
  now rewrite H in Hreq.
Qed.

End QueryRequests.

(** ** Repeating a listing *)

Section Replay.

Context (X : Externals).

(** *** Code that only logs *)

Lemma only_logs_ret {A} (a : A) : only_logs (ret a).
Proof. exists (Ok a), []. intros w. now rewrite after_signals_nil. Qed.

Lemma only_logs_raise {A} e : only_logs (@raise A e).
Proof. exists (Raise e), []. intros w. now rewrite after_signals_nil. Qed.

Lemma only_logs_lift {A} (o : Outcome A) : only_logs (lift o).
Proof. exists o, []. intros w. now rewrite after_signals_nil. Qed.

Lemma only_logs_log l m : only_logs (log l m).
Proof. exists (Ok tt), [Log l m]. intros w. reflexivity. Qed.

Lemma only_logs_bind {A B} (c : M A) (k : A -> M B) :
  only_logs c -> (forall a, only_logs (k a)) -> only_logs (bind c k).
Proof.
  intros (o & s & Hc) Hk. destruct o as [a|e].
  - destruct (Hk a) as (o' & s' & Hka). exists o', (s ++ s')%list.
    intros w. unfold bind. now rewrite Hc, Hka, after_signals_app.
  - exists (Raise e), s. intros w. unfold bind. now rewrite Hc.
Qed.

Lemma only_logs_for_each {A S} (body : A -> S -> M S) items :
  (forall x s, only_logs (body x s)) ->
  forall s, only_logs (for_each items body s).
Proof.
  intros Hb. induction items as [|x items IH]; intros s; cbn [for_each].
  - apply only_logs_ret.
  - apply only_logs_bind; [ apply Hb | exact IH ].
Qed.

Ltac only_logs_step :=
  first
    [ apply only_logs_ret | apply only_logs_raise | apply only_logs_lift
    | apply only_logs_log
    | apply only_logs_bind; [ | intros ]
    | apply only_logs_for_each; intros
    | match goal with
      | |- only_logs (if ?b then _ else _) => destruct b
      | |- only_logs (match ?x with _ => _ end) => destruct x
      end ].

Lemma only_logs__query_first_entry data : only_logs (_query_first_entry data).
Proof. unfold _query_first_entry. repeat only_logs_step. Qed.

Lemma only_logs__query_filter p video anilist_id episode_number data :
  only_logs (_query_filter X p video anilist_id episode_number data).
Proof. unfold _query_filter, not_archived, _query_item. repeat only_logs_step. Qed.

(** *** What a fetch leaves in the caches *)

Lemma fetch_same_url_cache p url_path : same_url_cache (_get_jimaku_response X p url_path).
Proof.
  intros w. unfold _get_jimaku_response.
  destruct (response_cache w !! (self_id p, url_path)); [ reflexivity | ].
  unfold _get_jimaku_response_uncached.
  change (Z.to_nat api_ratelimit_backoff_limit) with 3%nat.
  cbn [_get_jimaku_response_loop]. unfold bind at 1.
  destruct (_get_jimaku_response_body X p url_path _ (0 + 1) w) as [[[v|u]|e] w1] eqn:Hb.
  2: { exfalso. eapply _get_jimaku_response_body_returns; eauto. }
  all: revert Hb;
    unfold _get_jimaku_response_body, bind, session_get, lift, ret, raise, log, sleep;
    repeat first
      [ progress intros
      | discriminate
      | match goal with
        | H : (_, _) = (_, _) |- _ => injection H as ? ?; subst
        | H : context [match ?x with _ => _ end] |- _ => destruct x eqn:?
        | H : context [if ?x then _ else _] |- _ => destruct x eqn:?
        end ];
    reflexivity.
Qed.

Lemma search_cached_hit p video d w :
  search_cached X p video d w -> _query_search X p video w = (Ok d, w).
Proof.
  intros (m & url & Hm & Hu & Hc). unfold _query_search.
  unfold bind at 1. unfold lift at 1. rewrite Hm.
  unfold bind at 1. unfold _assemble_jimaku_search_url. rewrite Hu.
  now apply fetch_hit.
Qed.

Lemma search_cached_after p video d w w2 :
  search_cached X p video d w ->
  url_cache w2 = url_cache w ->
  response_cache w ⊆ response_cache w2 ->
  search_cached X p video d w2.
Proof.
  intros (m & url & Hm & Hu & Hc) Hurl Hsub. exists m, url.
  rewrite Hurl. repeat split; try assumption.
  eapply lookup_weaken; eauto.
Qed.

Lemma assemble_stores p video m w url wa :
  _assemble_jimaku_search_url X p video m w = (Ok url, wa) ->
  url_cache_get (self_id p, video, m) (url_cache wa) = Some url.
Proof.
  unfold _assemble_jimaku_search_url. intros H.
  destruct (url_cache_get (self_id p, video, m) (url_cache w)) as [u|] eqn:Hc.
  - injection H as <- <-. exact Hc.
  - destruct (_assemble_jimaku_search_url_uncached X video m w) as [[u|e] w1];
      [ | discriminate ].
    injection H as <- <-. cbn [url_cache with_url_cache url_cache_get].
    destruct (decide _); [ reflexivity | contradiction ].
Qed.

Lemma _query_search_stores p video w d wb :
  _query_search X p video w = (Ok d, wb) -> search_cached X p video d wb.
Proof.
  unfold _query_search. unfold bind at 1. unfold lift at 1.
  destruct (media_name_of X video) as [m|e] eqn:Hm; [ | discriminate ].
  unfold bind at 1.
  destruct (_assemble_jimaku_search_url X p video m w) as [[url|e] wa] eqn:Ha;
    [ | discriminate ].
  intros Hf. exists m, url. split; [ exact Hm | ]. split.
  - pose proof (fetch_same_url_cache p url wa) as Hsame. rewrite Hf in Hsame.
    simpl in Hsame. rewrite Hsame. eapply assemble_stores; eauto.
  - eapply fetch_stores; eauto.
Qed.

(** *** The listing loop, given what the fetch of the file list returns *)

Lemma files_loop_of_fetch p video entry_id episode_number data0 w d w1 :
  _get_jimaku_response X p (files_url X video entry_id episode_number) w = (Ok d, w1) ->
  _query_files_loop X p video entry_id 2 0 (episode_number, data0) w =
    (Ok (if Py.truthy d then Next (episode_number, d) else Return None), w1).
Proof.
  intros H. destruct (Py.truthy d) eqn:Ht.
  - now apply files_loop_with_data.
  - cbn [_query_files_loop fst]. unfold bind at 1.
    unfold _query_files_body. unfold bind at 1. rewrite H, Ht.
    change (0 + 1 <? 1) with false. now rewrite andb_false_r.
Qed.

Lemma files_loop_inv p video entry_id episode_number data0 w fl w1 :
  _query_files_loop X p video entry_id 2 0 (episode_number, data0) w = (Ok fl, w1) ->
  exists d,
    response_cache w1 !! (self_id p, files_url X video entry_id episode_number) = Some d /\
    url_cache w1 = url_cache w /\
    response_cache w ⊆ response_cache w1 /\
    fl = (if Py.truthy d then Next (episode_number, d) else Return None).
Proof.
  intros H.
  destruct (_get_jimaku_response X p (files_url X video entry_id episode_number) w)
    as [[d|e] wf] eqn:Hf.
  - rewrite (files_loop_of_fetch p video entry_id episode_number data0 w d wf Hf) in H.
    injection H as <- <-. exists d. repeat split.
    + eapply fetch_stores; eauto.
    + pose proof (fetch_same_url_cache p
                    (files_url X video entry_id episode_number) w) as Hu.
      now rewrite Hf in Hu.
    + pose proof (keeps__get_jimaku_response X p
                    (files_url X video entry_id episode_number) w) as Hk.
      now rewrite Hf in Hk.
  - cbn [_query_files_loop fst] in H. unfold bind at 1 in H.
    unfold _query_files_body in H. unfold bind at 1 in H. rewrite Hf in H.
    discriminate.
Qed.

(** *** The query, run again *)

Lemma _query_replay p video w q w' :
  _query X p video w = (Ok q, w') ->
  exists sigs, _query X p video w' = (Ok q, after_signals w' sigs).
Proof.
  unfold _query at 1. unfold bind at 1.
  destruct (_query_search X p video w) as [[d|e] wb] eqn:Hsearch; [ | discriminate ].
  apply _query_search_stores in Hsearch.
  destruct (Py.truthy d) eqn:Ht; cbn [negb].
  2: { intros [= <- <-]. exists []. rewrite after_signals_nil.
       unfold _query. unfold bind at 1.
       rewrite (search_cached_hit p video d wb Hsearch), Ht. reflexivity. }
  destruct (only_logs__query_first_entry d) as (o1 & s1 & H1).
  unfold bind at 1. rewrite H1.
  destruct o1 as [ids|e]; [ | discriminate ].
  unfold bind at 1.
  set (n0 := match kind video with Episode e => episode e | Movie _ => None end).
  destruct (_query_files_loop X p video (fst ids) 2 0 (n0, d) (after_signals wb s1))
    as [[fl|e] wd] eqn:Hloop; [ | discriminate ].
  destruct (files_loop_inv p video (fst ids) n0 d _ fl wd Hloop)
    as (d2 & Hd2 & Hurl & Hsub & ->).
  assert (Hsearch_d : search_cached X p video d wd)
    by (eapply search_cached_after; [ exact Hsearch | exact Hurl | exact Hsub ]).
  (* the second run up to the loop, in a world that has these caches *)
  assert (Hstart : forall w2,
             search_cached X p video d w2 ->
             response_cache w2 !! (self_id p, files_url X video (fst ids) n0) = Some d2 ->
             _query X p video w2 =
               match (if Py.truthy d2 then Next (n0, d2) else Return None)
                     : flow (option (list JimakuSubtitle)) (option Z * json) with
               | Return v => ret v
               | Next (episode_number, data) =>
                   let* list_of_subtitles :=
                     _query_filter X p video (snd ids) episode_number data in
                   ret (Some list_of_subtitles)
               end (after_signals w2 s1)).
  { intros w2 Hs2 Hc2. unfold _query. unfold bind at 1.
    rewrite (search_cached_hit p video d w2 Hs2), Ht. cbn [negb].
    unfold bind at 1. rewrite H1. unfold bind at 1. fold n0.
    rewrite (files_loop_of_fetch p video (fst ids) n0 d (after_signals w2 s1) d2
               (after_signals w2 s1)); [ reflexivity | ].
    apply fetch_hit. exact Hc2. }
  destruct (Py.truthy d2) eqn:Ht2.
  - destruct (only_logs__query_filter p video (snd ids) n0 d2) as (o2 & s2 & H2).
    unfold bind at 1. rewrite H2. destruct o2 as [l|e]; [ | discriminate ].
    intros [= <- <-]. exists (s1 ++ s2)%list.
    rewrite Hstart.
    + unfold bind at 1. rewrite H2. unfold ret. now rewrite after_signals_app.
    + eapply search_cached_after; [ exact Hsearch_d | reflexivity | reflexivity ].
    + exact Hd2.
  - intros [= <- <-]. exists s1.
    rewrite Hstart; [ reflexivity | exact Hsearch_d | exact Hd2 ].
Qed.

(** X12: a listing that has returned is repeatable without the catalog: run
    again for the same identity, in the world it left, it returns the same
    candidates and issues no request at all. *)
Theorem repeated_listing_is_served_from_cache p video w subs w' :
  list_subtitles X p video w = (Ok subs, w') ->
  fst (list_subtitles X p video w') = Ok subs /\
  requests (snd (list_subtitles X p video w')) = requests w'.
Proof.
  unfold list_subtitles at 1. unfold bind at 1.
  destruct (_query X p video w) as [[q|e] wq] eqn:Hq; [ | discriminate ].
  intros H.
  assert (Hw : wq = w') by (destruct q as [[|x l]|]; now injection H).
  subst wq.
  destruct (_query_replay p video w q w' Hq) as (sigs & Hq').
  assert (Hl : list_subtitles X p video w' = (Ok subs, after_signals w' sigs)).
  { unfold list_subtitles, bind. rewrite Hq'.
    destruct q as [[|x l]|]; injection H as <-; reflexivity. }
  rewrite Hl. split; reflexivity.
Qed.

End Replay.

Lemma search_by_external_id_witness :
  requests (snd (_query_search Fixture.X (Fixture.provider true true false)
                   sample_episode (Fixture.world named_catalog))) =
  ["https://jimaku.cc/api/entries/search?anilist_id=1234"].
Proof.
  apply (search_by_external_id Fixture.X (Fixture.provider true true false)
           sample_episode (Fixture.world named_catalog)
           {| session_headers := [("Authorization", "secret")] |} "show 2" 1234);
    first [ reflexivity | discriminate ].
Defined.

Lemma search_episode_by_name_witness :
  requests (snd (_query_search Fixture.X (Fixture.provider true true false)
                   unlinked_episode (Fixture.world named_catalog))) =
  ["https://jimaku.cc/api/entries/search?query=show+2"].
Proof.
  apply (search_episode_by_name Fixture.X (Fixture.provider true true false)
           unlinked_episode (Fixture.world named_catalog)
           {| session_headers := [("Authorization", "secret")] |}
           {| series := "Show"; alternative_series := [];
              season := Some 2; episode := Some 5; episode_title := None |} 2);
    first [ reflexivity | now left ].
Defined.

Lemma entry_without_flags_witness :
  fst (list_subtitles Fixture.X (Fixture.provider true true false) unlinked_episode
         (Fixture.world flagless_catalog)) = Raise AttributeError.
Proof.
  apply (entry_without_flags_raises Fixture.X (Fixture.provider true true false)
           unlinked_episode (Fixture.world flagless_catalog)
           [("id", JInt 7); ("name", JStr "Show")] []
           (snd (_query_search Fixture.X (Fixture.provider true true false)
                   unlinked_episode (Fixture.world flagless_catalog)))).
  - reflexivity.
  - intros fl. discriminate.
Defined.

Lemma listing_with_data_requests_once_witness :
  requests (snd (_query_files_loop Fixture.X (Fixture.provider true true false)
                   unlinked_episode (JInt 7) 2 0 (Some 5, JNull)
                   (Fixture.world named_catalog))) =
  ["https://jimaku.cc/api/entries/7/files?episode=5"].
Proof.
  apply (listing_with_data_requests_once Fixture.X (Fixture.provider true true false)
           unlinked_episode (JInt 7) (Some 5) JNull (Fixture.world named_catalog)
           {| session_headers := [("Authorization", "secret")] |}
           (JList [Fixture.file "show - 05.srt" (Some 40000);
                   Fixture.file "show - 05.WhisperAI.srt" (Some 39000)])
           (snd (_get_jimaku_response Fixture.X (Fixture.provider true true false)
                   "entries/7/files?episode=5" (Fixture.world named_catalog))));
    reflexivity.
Defined.

Lemma repeated_listing_witness :
  let p := Fixture.provider true false false in
  let w' := snd (list_subtitles Fixture.X p unlinked_episode
                   (Fixture.world named_catalog)) in
  (exists s, fst (list_subtitles Fixture.X p unlinked_episode w') = Ok [s]) /\
  requests (snd (list_subtitles Fixture.X p unlinked_episode w')) =
    ["https://jimaku.cc/api/entries/search?query=show+2";
     "https://jimaku.cc/api/entries/7/files?episode=5"].
Proof.
  intros p w'. subst w'.
  destruct (list_subtitles Fixture.X p unlinked_episode (Fixture.world named_catalog))
    as [[subs|e] w1] eqn:Hrun.
  2: { vm_compute in Hrun. discriminate. }
  cbn [snd].
  destruct (repeated_listing_is_served_from_cache Fixture.X p unlinked_episode
              (Fixture.world named_catalog) subs w1 Hrun) as [Hsame Hreq].
  rewrite Hsame, Hreq. vm_compute in Hrun. injection Hrun as <- <-.
  split; [ eexists; reflexivity | reflexivity ].
Defined.

(** ** More on the filter *)

Section FilterMore.

Context (X : Externals).
Context (p : JimakuProvider) (video : Video) (anilist_id : json)
        (episode_number : option Z).

Lemma filter_all {A} (P : A -> bool) l :
  (forall x, In x l -> P x = true) -> List.filter P l = l.
Proof.
  induction l as [|x l IH]; intros H; [ reflexivity | ].
  cbn [List.filter]. rewrite (H x (or_introl eq_refl)).
  f_equal. apply IH. intros y Hy. apply H. now right.
Qed.

Lemma sublist_map_filter {A B} (g : A -> B) (P : A -> bool) l :
  sublist (map g (List.filter P l)) (map g l).
Proof.
  induction l as [|x l IH]; cbn [List.filter map]; [ constructor | ].
  destruct (P x); cbn [map]; now constructor.
Qed.

Lemma kept_7z_only blacklist f :
  In ".7z" blacklist -> kept X p blacklist f = true -> kept X p [".7z"] f = true.
Proof.
  unfold kept. intros Hin H.
  apply andb_true_iff in H as [H1 H2]. rewrite H1. cbn [andb].
  apply negb_true_iff in H2. apply negb_true_iff.
  unfold PyStr.endswith_any in *. cbn [existsb]. rewrite orb_false_r.
  destruct (PyStr.endswith (filename f) ".7z") eqn:E; [ | reflexivity ].
  rewrite <- H2. symmetry. apply existsb_exists. now exists ".7z".
Qed.

Lemma blacklist_for_cases files :
  blacklist_for p files = [".7z"] \/
  (blacklist_for p files = [".7z"; ".zip"; ".rar"] /\
   enable_archives p = false /\ forallb archived files = false).
Proof.
  unfold blacklist_for. destruct (enable_archives p); [ now left | ].
  destruct (forallb archived files); [ now left | now right ].
Qed.

(** the survivors of a listing pass the filter a second time *)
Lemma kept_twice files :
  let files' := List.filter (kept X p (blacklist_for p files)) files in
  List.filter (kept X p (blacklist_for p files')) files' = files'.
Proof.
  intros files'. apply filter_all. intros f Hf.
  apply filter_In in Hf as [Hin Hk].
  destruct (blacklist_for_cases files') as [-> | (-> & Hdis & Hall')].
  - eapply kept_7z_only; [ | exact Hk ].
    destruct (blacklist_for_cases files) as [-> | (-> & _)]; now left.
  - destruct (blacklist_for_cases files) as [Hb | (Hb & _)].
    + (* the first pass was relaxed: the survivors are archives again *)
      exfalso. unfold blacklist_for in Hb. rewrite Hdis in Hb.
      destruct (forallb archived files) eqn:Hall; [ | discriminate ].
      assert (Hall'' : forallb archived files' = true).
      { apply forallb_forall. intros g Hg. apply filter_In in Hg as [Hg _].
        eapply forallb_forall in Hall; eauto. }
      congruence.
    + now rewrite <- Hb.
Qed.

(** X13: filtering is idempotent: listing the files that survived a filter
    again gives the same candidates. *)
Theorem filter_is_idempotent items files items' w w0 :
  Forall2 (fun item f => as_file item = Some f) items files ->
  Forall2 (fun item f => as_file item = Some f) items'
    (List.filter (kept X p (blacklist_for p files)) files) ->
  fst (_query_filter X p video anilist_id episode_number (JList items') w0) =
  fst (_query_filter X p video anilist_id episode_number (JList items) w).
Proof.
  intros H H'.
  rewrite (_query_filter_spec X p video anilist_id episode_number items files w H).
  rewrite (_query_filter_spec X p video anilist_id episode_number items' _ w0 H').
  cbn [fst]. now rewrite kept_twice.
Qed.

(** X14: the filter keeps the order of the listing and invents nothing: the
    names of the candidates are a sublist of the listed names. *)
Theorem filter_preserves_order items files w :
  Forall2 (fun item f => as_file item = Some f) items files ->
  exists subs w',
    _query_filter X p video anilist_id episode_number (JList items) w = (Ok subs, w') /\
    sublist (map subtitle_filename subs) (map filename files) /\
    (List.length subs <= List.length files)%nat.
Proof.
  intros H.
  rewrite (_query_filter_spec X p video anilist_id episode_number items files w H).
  do 2 eexists. split; [ reflexivity | ].
  rewrite map_map. cbn [candidate JimakuSubtitle_init subtitle_filename].
  split; [ apply sublist_map_filter | ].
  rewrite length_map. apply filter_length_le.
Qed.

(** X15: with archives enabled only ".7z" is excluded for its extension:
    ".zip" and ".rar" files become candidates like any other file that
    passes the AI-origin and the size policy, and the archives-only warning
    is never logged. *)
Theorem archives_enabled_filter items files w :
  enable_archives p = true ->
  Forall2 (fun item f => as_file item = Some f) items files ->
  exists sigs,
    _query_filter X p video anilist_id episode_number (JList items) w =
      (Ok (map (candidate X video anilist_id episode_number)
             (List.filter (kept_with_archives X p) files)),
       after_signals w sigs) /\
    ~ In (Log WARNING MsgArchivesOnly) sigs.
Proof.
  intros Hen H.
  rewrite (_query_filter_spec X p video anilist_id episode_number items files w H).
  unfold blacklist_for, archives_only_warning. rewrite Hen. cbn [negb andb app].
  eexists. split.
  - f_equal. f_equal. f_equal. apply filter_ext. intros f.
    unfold kept, kept_with_archives, PyStr.endswith_any. cbn [existsb].
    now rewrite orb_false_r.
  - intros Hin. apply in_concat in Hin as (l & Hl & Hin).
    apply in_map_iff in Hl as (f & <- & _).
    now apply item_signals_no_archives_warning in Hin.
Qed.

(** X16: every candidate of a listing is made the same way: the language is
    "jpn", there is no content yet, the release info is the file name, the
    video is the one asked for, and the id is the one id of the listing, so
    all candidates of a listing share their id. *)
Theorem candidates_of_a_listing items files w :
  Forall2 (fun item f => as_file item = Some f) items files ->
  exists subs w',
    _query_filter X p video anilist_id episode_number (JList items) w = (Ok subs, w') /\
    forall s, In s subs ->
      language s = "jpn" /\
      content s = None /\
      release_info s = subtitle_filename s /\
      self_video s = video /\
      id_ s = make_subtitle_id X video anilist_id episode_number.
Proof.
  intros H.
  rewrite (_query_filter_spec X p video anilist_id episode_number items files w H).
  do 2 eexists. split; [ reflexivity | ].
  intros s Hs. apply in_map_iff in Hs as (f & <- & _). repeat split.
Qed.

Lemma for_each_app {A S} (body : A -> S -> M S) l1 l2 : forall s w,
  for_each (l1 ++ l2)%list body s w =
  (let* s' := for_each l1 body s in for_each l2 body s') w.
Proof.
  induction l1 as [|x l1 IH]; intros s w; [ reflexivity | ].
  cbn [app for_each]. unfold bind.
  destruct (body x s w) as [[s'|e] w1]; [ | reflexivity ].
  rewrite IH. reflexivity.
Qed.

(** X17: with archives disabled, one listed item without a [name] makes the
    whole listing fail with [KeyError], however many good files come before
    or after it. *)
Theorem nameless_item_aborts_listing pre files_pre d rest w :
  enable_archives p = false ->
  Forall2 (fun item f => as_file item = Some f) pre files_pre ->
  Py.assoc "name" d = None ->
  fst (_query_filter X p video anilist_id episode_number
         (JList (pre ++ JDict d :: rest)) w) = Raise KeyError.
Proof.
  intros Hdis Hpre Hname. unfold _query_filter. rewrite Hdis. cbn [negb].
  unfold bind at 1. unfold bind at 1. unfold lift at 1. cbn [Py.iter].
  unfold bind at 1. unfold not_archived. rewrite for_each_app.
  unfold bind at 1.
  destruct (not_archived_loop_spec pre files_pre Hpre [] w) as (l & -> & _).
  cbn [for_each]. unfold bind at 1. unfold bind at 1. unfold lift at 1.
  cbn [Py.getitem_str]. rewrite Hname. reflexivity.
Qed.

End FilterMore.

Lemma filter_is_idempotent_witness :
  let p := Fixture.provider false false false in
  fst (_query_filter Fixture.X p sample_episode (JInt 1234) (Some 5)
         (JList [Fixture.file "show - 05.srt" (Some 40000);
                 Fixture.file "show - 05.ass" None]) sample_world) =
  fst (_query_filter Fixture.X p sample_episode (JInt 1234) (Some 5)
         (JList mixed_listing) sample_world).
Proof.
  intros p.
  apply (filter_is_idempotent Fixture.X p sample_episode (JInt 1234) (Some 5)
           mixed_listing mixed_files).
  - repeat constructor.
  - repeat constructor.
Defined.

Lemma filter_preserves_order_witness :
  exists subs w',
    _query_filter Fixture.X (Fixture.provider false false false) sample_episode
      (JInt 1234) (Some 5) (JList mixed_listing) sample_world = (Ok subs, w') /\
    sublist (map subtitle_filename subs) (map filename mixed_files).
Proof.
  destruct (filter_preserves_order Fixture.X (Fixture.provider false false false)
              sample_episode (JInt 1234) (Some 5) mixed_listing mixed_files
              sample_world) as (subs & w' & H & Hsub & _).
  - repeat constructor.
  - now exists subs, w'.
Defined.

Lemma archives_enabled_filter_witness :
  exists w',
    _query_filter Fixture.X (Fixture.provider true false false) sample_episode
      (JInt 1234) (Some 5) (JList mixed_listing) sample_world =
    (Ok (map (candidate Fixture.X sample_episode (JInt 1234) (Some 5))
           (List.filter (kept_with_archives Fixture.X (Fixture.provider true false false))
              mixed_files)), w').
Proof.
  destruct (archives_enabled_filter Fixture.X (Fixture.provider true false false)
              sample_episode (JInt 1234) (Some 5) mixed_listing mixed_files
              sample_world eq_refl) as (sigs & H & _).
  - repeat constructor.
  - eexists. exact H.
Defined.

(** With archives enabled the zip of the mixed listing is a candidate. *)
Example archives_enabled_keeps_zip :
  match fst (_query_filter Fixture.X (Fixture.provider true false false)
               sample_episode (JInt 1234) (Some 5) (JList mixed_listing)
               sample_world) with
  | Ok subs => map subtitle_filename subs
  | Raise _ => []
  end = ["show - 05.srt"; "show - 05.zip"; "show - 05.ass"].
Proof. reflexivity. Qed.

Lemma candidates_of_a_listing_witness :
  exists subs w',
    _query_filter Fixture.X (Fixture.provider true true false) sample_episode
      (JInt 1234) (Some 5) (JList mixed_listing) sample_world = (Ok subs, w') /\
    forall s, In s subs -> id_ s = "1234_5_grp".
Proof.
  destruct (candidates_of_a_listing Fixture.X (Fixture.provider true true false)
              sample_episode (JInt 1234) (Some 5) mixed_listing mixed_files
              sample_world) as (subs & w' & H & Hall).
  - repeat constructor.
  - exists subs, w'. split; [ exact H | ].
    intros s Hs. now destruct (Hall s Hs) as (_ & _ & _ & _ & ->).
Defined.

Lemma nameless_item_aborts_listing_witness :
  fst (_query_filter Fixture.X (Fixture.provider false true false) sample_episode
         (JInt 1234) (Some 5)
         (JList ([Fixture.file "show - 05.srt" (Some 40000)] ++
                 nameless_item :: [Fixture.file "show - 05.ass" None]))
         sample_world) = Raise KeyError.
Proof.
  apply (nameless_item_aborts_listing Fixture.X (Fixture.provider false true false)
           sample_episode (JInt 1234) (Some 5)
           [Fixture.file "show - 05.srt" (Some 40000)]
           [ {| filename := "show - 05.srt";
                download_url := JStr "https://jimaku.cc/f/show - 05.srt";
                size_in_bytes := Some 40000 |} ]).
  - reflexivity.
  - repeat constructor.
  - reflexivity.
Defined.

(** ** More on match scoring *)

Local Set Warnings "-clear-no-such-hyp".

Section MatchesMore.

Context (X : Externals).

(** up to the guess, [get_matches] collects [collected] and logs the guess *)
Lemma get_matches_collects self video w :
  (is_Episode video = true -> is_Episode (self_video self) = true) ->
  get_matches X self video w =
    (guess_loop video (guess_keys X self video) (collected X self video),
     after_signals w [Log DEBUG (MsgGuessit (guess_keys X self video))]).
Proof.
  unfold get_matches, collected, guess_keys, name_matches, season_matches,
    is_Episode, is_Movie, video_series, video_season, video_title.
  intros Hkind.
  destruct (kind video) as [e | m]; destruct (kind (self_video self)) as [e' | m'];
    try (now specialize (Hkind eq_refl)); unfold bind, lift, ret, log; cbn [app map].
  - destruct (PyStr.truthy (sanitize X (series e))); cbn [andb];
      [ destruct (existsb _ _) | ];
      (destruct (truthy_opt_Z (season e)); cbn [andb];
       [ destruct (season e') as [s'|];
         [ destruct (decide (season e = Some s')) as [Hd|Hd];
           [ rewrite (bool_decide_eq_true_2 _ Hd)
           | rewrite (bool_decide_eq_false_2 _ Hd) ]
         | ]
       | ]);
      reflexivity.
  - destruct (PyStr.truthy (sanitize X (title m))); cbn [andb];
      [ destruct (episode_title e') as [t|]; [ destruct (existsb _ _) | ] | ];
      try reflexivity.
    now destruct (episode_title e').
  - destruct (PyStr.truthy (sanitize X (title m))); cbn [andb];
      [ destruct (existsb _ _) | ]; reflexivity.
Qed.

Lemma guess_loop_adds video guess matches matches' :
  guess_loop video guess matches = Ok matches' ->
  matches' = matches \/ matches' = matches ∪ {["release_group"]}.
Proof.
  induction guess as [|g guess IH]; cbn [guess_loop].
  - intros [= <-]. now left.
  - destruct (PyStr.char_at g 0); [ | discriminate ].
    rewrite orb_true_r.
    destruct (PyStr.char_at g 1); [ | discriminate ].
    destruct (decide _); [ intros [= <-]; now right | exact IH ].
Qed.

Lemma collected_tags self video : collected X self video ⊆ match_tags.
Proof.
  unfold collected, match_tags, is_Movie.
  destruct (kind video), (kind (self_video self));
    repeat match goal with
      | |- context [match episode_title ?e with _ => _ end] => destruct (episode_title e)
      | |- context [if ?b then _ else _] => destruct b
      end;
    set_solver.
Qed.

Lemma collected_kind self video :
  ("episode" ∈ collected X self video <-> is_Episode video = true) /\
  ("movie" ∈ collected X self video <-> is_Movie video = true).
Proof.
  unfold collected, is_Movie, is_Episode.
  destruct (kind video), (kind (self_video self));
    repeat match goal with
      | |- context [match episode_title ?e with _ => _ end] => destruct (episode_title e)
      | |- context [if ?b then _ else _] => destruct b
      end;
    split; split; intros H; try reflexivity; try discriminate;
    set_unfold; intuition discriminate.
Qed.

Lemma not_release_group_in_collected self video :
  "release_group" ∉ collected X self video.
Proof.
  unfold collected, is_Movie.
  destruct (kind video), (kind (self_video self));
    repeat match goal with
      | |- context [match episode_title ?e with _ => _ end] => destruct (episode_title e)
      | |- context [if ?b then _ else _] => destruct b
      end;
    set_unfold; intuition discriminate.
Qed.

(** [get_matches] returns when the guess has keys of two characters or more
    and the subtitle of a movie is not scored against an episode; its result
    is [collected], with or without the release group *)
Lemma get_matches_returns self video w :
  (forall g, In g (guess_keys X self video) -> (2 <= String.length g)%nat) ->
  (is_Episode video = true -> is_Episode (self_video self) = true) ->
  exists matches,
    get_matches X self video w =
      (Ok matches, after_signals w [Log DEBUG (MsgGuessit (guess_keys X self video))]) /\
    (matches = collected X self video \/
     matches = collected X self video ∪ {["release_group"]}).
Proof.
  intros Hlen Hkind. rewrite (get_matches_collects self video w Hkind).
  destruct (guess_loop_spec video (guess_keys X self video) (collected X self video) Hlen)
    as (m & Hm & _).
  exists m. rewrite Hm. split; [ reflexivity | ].
  eapply guess_loop_adds; eauto.
Qed.

(** X18: the result of a scoring is made of the seven known tags, and it
    names the kind of the video: it has "episode" exactly for an episode and
    "movie" exactly for a movie. *)
Theorem get_matches_names_the_kind self video w :
  (forall g, In g (guess_keys X self video) -> (2 <= String.length g)%nat) ->
  is_Episode video = is_Episode (self_video self) ->
  exists matches w',
    get_matches X self video w = (Ok matches, w') /\
    matches ⊆ match_tags /\
    ("episode" ∈ matches <-> is_Episode video = true) /\
    ("movie" ∈ matches <-> is_Movie video = true).
Proof.
  intros Hlen Hkind.
  destruct (get_matches_returns self video w Hlen) as (m & -> & Hm);
    [ intros Hv; now rewrite <- Hkind | ].
  do 2 eexists. split; [ reflexivity | ].
  pose proof (collected_tags self video) as Htags.
  destruct (collected_kind self video) as [Hep Hmv].
  destruct Hm as [-> | ->].
  - repeat split; auto; apply Hep || apply Hmv.
  - split; [ | split ].
    + apply union_subseteq. split; [ exact Htags | ].
      unfold match_tags. set_solver.
    + rewrite <- Hep. set_unfold. intuition discriminate.
    + rewrite <- Hmv. set_unfold. intuition discriminate.
Qed.

(** X19: scored against its own video, a subtitle matches on everything
    that is known about the video: the series (or the title) when it has a
    sanitized name, the season and the year when they are set. *)
Theorem get_matches_own_video self w :
  (forall g, In g (guess_keys X self (self_video self)) -> (2 <= String.length g)%nat) ->
  exists matches w',
    get_matches X self (self_video self) w = (Ok matches, w') /\
    ("year" ∈ matches <-> truthy_opt_Z (year (self_video self)) = true) /\
    (forall e, kind (self_video self) = Episode e ->
       ("series" ∈ matches <-> PyStr.truthy (sanitize X (series e)) = true) /\
       ("season" ∈ matches <-> truthy_opt_Z (season e) = true)) /\
    (forall m, kind (self_video self) = Movie m ->
       ("title" ∈ matches <-> PyStr.truthy (sanitize X (title m)) = true)).
Proof.
  intros Hlen.
  destruct (get_matches_returns self (self_video self) w Hlen (fun H => H))
    as (m & -> & Hm).
  do 2 eexists. split; [ reflexivity | ].
  assert (Hin : forall t, t <> "release_group" ->
                  (t ∈ m <-> t ∈ collected X self (self_video self))).
  { intros t Ht. destruct Hm as [-> | ->]; [ reflexivity | ].
    set_unfold. intuition congruence. }
  assert (Hself : forall n alts,
             existsb (String.eqb (sanitize X n)) (map (sanitize X) (n :: alts)) = true).
  { intros n alts. cbn [map existsb]. now rewrite String.eqb_refl. }
  split; [ | split ].
  - rewrite Hin by discriminate. unfold collected, is_Movie.
    rewrite bool_decide_eq_true_2 by reflexivity. rewrite andb_true_r.
    destruct (kind (self_video self));
      repeat match goal with
        | |- context [if ?b then _ else _] => destruct b
        end;
      split; intros H; try reflexivity; try discriminate;
      set_unfold; intuition discriminate.
  - intros e He. rewrite !Hin by discriminate. unfold collected, is_Movie.
    rewrite He. unfold name_matches, season_matches. rewrite Hself, !andb_true_r.
    assert (Hs : match season e with
                 | Some _ => bool_decide (season e = season e)
                 | None => true
                 end = true)
      by (destruct (season e); [ now apply bool_decide_eq_true_2 | reflexivity ]).
    rewrite Hs, andb_true_r.
    destruct (PyStr.truthy (sanitize X (series e))), (truthy_opt_Z (season e));
      match goal with
      | |- context [if ?b then _ else _] => destruct b
      end;
      split; split; intros H; try reflexivity; try discriminate;
      set_unfold; intuition discriminate.
  - intros mv Hmv. rewrite Hin by discriminate. unfold collected, is_Movie.
    rewrite Hmv. unfold name_matches. rewrite Hself, andb_true_r.
    destruct (PyStr.truthy (sanitize X (title mv)));
      match goal with
      | |- context [if ?b then _ else _] => destruct b
      end;
      split; intros H; try reflexivity; try discriminate;
      set_unfold; intuition discriminate.
Qed.

(** X20: scoring across the kinds is not symmetric.  A subtitle of a movie
    cannot be scored against an episode that has a sanitized series name or
    a season: reading the series or the season of the subtitle's movie raises
    [AttributeError].  A subtitle of an episode can be scored against a
    movie: an episode has a title of its own, so the scoring returns; its
    result names the movie kind and none of the episode tags, and it has
    "title" exactly when the episode has a title that is, sanitized, among
    the sanitized titles of the movie. *)
Theorem get_matches_across_kinds self video w :
  (forall e m,
     kind video = Episode e -> kind (self_video self) = Movie m ->
     PyStr.truthy (sanitize X (series e)) = true \/ truthy_opt_Z (season e) = true ->
     get_matches X self video w = (Raise AttributeError, w)) /\
  (forall m e,
     kind video = Movie m -> kind (self_video self) = Episode e ->
     (forall g, In g (guess_keys X self video) -> (2 <= String.length g)%nat) ->
     exists matches w',
       get_matches X self video w = (Ok matches, w') /\
       "movie" ∈ matches /\
       ("episode" ∉ matches) /\ ("series" ∉ matches) /\ ("season" ∉ matches) /\
       ("title" ∈ matches <->
        exists t, episode_title e = Some t /\
                  name_matches X t (title m) (alternative_titles m) = true)).
Proof.
  split.
  - intros e m Hv Hs Hc.
    unfold get_matches, video_series, video_season. rewrite Hv, Hs.
    unfold bind, lift, ret.
    destruct (PyStr.truthy (sanitize X (series e))); [ reflexivity | ].
    destruct Hc as [Hc | ->]; [ discriminate | reflexivity ].
  - intros m e Hv Hs Hlen.
    destruct (get_matches_returns self video w Hlen) as (ms & -> & Hm).
    { unfold is_Episode. now rewrite Hv. }
    do 2 eexists. split; [ reflexivity | ].
    assert (Hin : forall t, t <> "release_group" ->
                    (t ∈ ms <-> t ∈ collected X self video)).
    { intros t Ht. destruct Hm as [-> | ->]; [ reflexivity | ].
      set_unfold. intuition congruence. }
    rewrite !Hin by discriminate.
    unfold collected, is_Movie. rewrite Hv, Hs.
    destruct (episode_title e) as [t|];
      repeat match goal with
        | |- context [if ?b then _ else _] => destruct b eqn:?
        end;
      repeat split; intros; set_unfold;
      repeat match goal with
        | H : exists _, _ |- _ => destruct H
        | H : _ /\ _ |- _ => destruct H
        | H : Some _ = Some _ |- _ => injection H as ?; subst
        end;
      try discriminate; try congruence; eauto; try (intuition discriminate).
Qed.

End MatchesMore.

Lemma get_matches_names_the_kind_witness :
  exists matches w',
    get_matches Fixture.X episode_candidate sample_episode sample_world =
      (Ok matches, w') /\
    "episode" ∈ matches.
Proof.
  destruct (get_matches_names_the_kind Fixture.X episode_candidate sample_episode
              sample_world) as (m & w' & H & _ & Hep & _).
  - intros g [<- | [<- | [<- | []]]]; simpl; lia.
  - reflexivity.
  - exists m, w'. split; [ exact H | now apply Hep ].
Defined.

Lemma get_matches_own_video_witness :
  exists matches w',
    get_matches Fixture.X episode_candidate sample_episode sample_world =
      (Ok matches, w') /\
    "series" ∈ matches /\ "season" ∈ matches.
Proof.
  destruct (get_matches_own_video Fixture.X episode_candidate sample_world)
    as (m & w' & H & _ & Hep & _).
  - intros g [<- | [<- | [<- | []]]]; simpl; lia.
  - exists m, w'. split; [ exact H | ].
    destruct (Hep _ eq_refl) as [Hseries Hseason].
    split; [ now apply Hseries | now apply Hseason ].
Defined.

Lemma get_matches_across_kinds_witness :
  get_matches Fixture.X movie_candidate sample_episode sample_world =
    (Raise AttributeError, sample_world) /\
  exists matches w',
    get_matches Fixture.X episode_candidate sample_movie sample_world =
      (Ok matches, w') /\
    "movie" ∈ matches /\ ("title" ∉ matches).
Proof.
  split.
  - apply (proj1 (get_matches_across_kinds Fixture.X movie_candidate sample_episode
                    sample_world) _ _ eq_refl eq_refl).
    now left.
  - destruct (proj2 (get_matches_across_kinds Fixture.X episode_candidate sample_movie
                       sample_world) _ _ eq_refl eq_refl)
      as (ms & w' & Hrun & Hmovie & _ & _ & _ & Htitle).
    + intros g [<- | [<- | [<- | []]]]; simpl; lia.
    + exists ms, w'. split; [ exact Hrun | ]. split; [ exact Hmovie | ].
      intros Hin. apply Htitle in Hin as (t & Ht & _). discriminate.
Defined.

(** ** More on retrieval *)

Section DownloadMore.

Context (X : Externals).

Lemma same_requests_ret {A} (a : A) : same_requests (ret a).
Proof. intros w. reflexivity. Qed.

Lemma same_requests_raise {A} e : same_requests (@raise A e).
Proof. intros w. reflexivity. Qed.

Lemma same_requests_lift {A} (o : Outcome A) : same_requests (lift o).
Proof. intros w. reflexivity. Qed.

Lemma same_requests_log l m : same_requests (log l m).
Proof. intros w. reflexivity. Qed.

Lemma same_requests_bind {A B} (c : M A) (k : A -> M B) :
  same_requests c -> (forall a, same_requests (k a)) -> same_requests (bind c k).
Proof.
  intros Hc Hk w. unfold bind. specialize (Hc w).
  destruct (c w) as [[a|e] w1]; simpl in *; [ | exact Hc ].
  now rewrite Hk.
Qed.

Ltac same_requests_step :=
  first
    [ apply same_requests_ret | apply same_requests_raise | apply same_requests_lift
    | apply same_requests_log
    | apply same_requests_bind; [ | intros ]
    | match goal with
      | |- same_requests (if ?b then _ else _) => destruct b
      | |- same_requests (match ?x with _ => _ end) => destruct x
      end ].

(** X21: a download (of a url that is sent) answered with a 4xx or 5xx
    status raises [HTTPError] after its one GET; the body is not looked at
    and the candidate is not touched. *)
Theorem download_http_error p subtitle w s u r :
  session p = Some s ->
  subtitle_url subtitle = JStr u ->
  url_accepted X u = true ->
  remote w (List.length (requests w)) u = Ok r ->
  400 <= status_code r < 600 ->
  download_subtitle X p subtitle w = (Raise HTTPError, after_get w u).
Proof.
  intros Hs Hu Ha Hr Hst. unfold download_subtitle. rewrite Hu.
  unfold session_get_url, session_get, bind, lift, raise_for_status.
  rewrite Hs, Ha, Hr.
  destruct (Z.leb_spec 400 (status_code r)); [ | lia ].
  destruct (Z.ltb_spec (status_code r) 600); [ | lia ].
  reflexivity.
Qed.

(** X22: for an episode candidate whose download (of a url that is sent,
    answered with a 2xx status) is a recognized archive,
    the content attached is what the member selection returns for the
    archive and the episode number of the candidate's video. *)
Theorem download_episode_archive p subtitle w s u r a e c :
  session p = Some s ->
  subtitle_url subtitle = JStr u ->
  url_accepted X u = true ->
  remote w (List.length (requests w)) u = Ok r ->
  200 <= status_code r < 300 ->
  recognized X (body r) a ->
  kind (video subtitle) = Episode e ->
  get_subtitle_from_archive X a (episode e) = Ok c ->
  fst (download_subtitle X p subtitle w) = Ok (set_content subtitle c).
Proof.
  intros Hs Hu Ha Hr Hst Hrec Hk Hc.
  destruct (download_subtitle_cases X p subtitle w s u r Hs Hu Ha Hr Hst) as (H & _ & _).
  now rewrite (H a e c Hrec Hk Hc).
Qed.

(** X23: bytes that are no archive, sent with a 2xx status for a url that
    ends in ".zip" or ".rar", are taken for a corrupt file: the download returns without an
    exception, logs a warning and leaves the candidate as it was. *)
Theorem download_soft_corruption p subtitle w s u r :
  session p = Some s ->
  subtitle_url subtitle = JStr u ->
  url_accepted X u = true ->
  remote w (List.length (requests w)) u = Ok r ->
  200 <= status_code r < 300 ->
  unrecognized X (body r) ->
  PyStr.endswith_any u [".zip"; ".rar"] = true ->
  fst (download_subtitle X p subtitle w) = Ok subtitle /\
  In (Log WARNING MsgNotAnArchive) (signals (snd (download_subtitle X p subtitle w))).
Proof.
  intros Hs Hu Ha Hr Hst Hun Hext.
  destruct (download_subtitle_cases X p subtitle w s u r Hs Hu Ha Hr Hst) as (_ & H & _).
  rewrite (H Hun Hext). split; [ reflexivity | ].
  unfold after_signals, with_signals. cbn [snd signals].
  apply in_or_app. right. right. now left.
Qed.

(** X24: bytes that are no archive, sent with a 2xx status for any other
    url, are attached to the candidate as they are. *)
Theorem download_plain_body p subtitle w s u r :
  session p = Some s ->
  subtitle_url subtitle = JStr u ->
  url_accepted X u = true ->
  remote w (List.length (requests w)) u = Ok r ->
  200 <= status_code r < 300 ->
  unrecognized X (body r) ->
  PyStr.endswith_any u [".zip"; ".rar"] = false ->
  fst (download_subtitle X p subtitle w) = Ok (set_content subtitle (Some (body r))).
Proof.
  intros Hs Hu Ha Hr Hst Hun Hext.
  destruct (download_subtitle_cases X p subtitle w s u r Hs Hu Ha Hr Hst) as (_ & _ & H).
  now rewrite (H Hun Hext).
Qed.

(** X25: a download is never answered from a cache.  With a session, each
    call for a url that [requests] accepts issues its GET, whatever comes
    back and whatever was downloaded before; a url that it does not accept
    (one without a scheme, say) is refused with its error before anything is
    sent; and either way the response cache is left as it is. *)
Theorem download_is_not_memoized p subtitle w s u :
  session p = Some s ->
  subtitle_url subtitle = JStr u ->
  response_cache (snd (download_subtitle X p subtitle w)) = response_cache w /\
  (url_accepted X u = true ->
   requests (snd (download_subtitle X p subtitle w)) = (requests w ++ [u])%list) /\
  (url_accepted X u = false ->
   download_subtitle X p subtitle w = (Raise InvalidURL, w)).
Proof.
  intros Hs Hu. split; [ apply same_download_subtitle | ].
  split; intros Ha.
  - unfold download_subtitle. rewrite Hu. unfold bind at 1.
    unfold session_get_url. rewrite Hs, Ha. unfold session_get. rewrite Hs.
    destruct (remote w (List.length (requests w)) u) as [r|e]; [ | reflexivity ].
    match goal with
    | |- requests (snd (?k ?w1)) = _ =>
        assert (Hk : same_requests k); [ | exact (Hk w1) ]
    end.
    unfold _is_archive. repeat same_requests_step.
  - unfold download_subtitle. rewrite Hu. unfold bind at 1.
    unfold session_get_url. rewrite Hs, Ha. reflexivity.
Qed.

(** X26: the rar reader comes first and there is no second try: when the
    bytes of a 2xx answer are recognized as rar and the rar reader fails on them, the
    download fails with that error, also when the same bytes would open as
    a zip. *)
Theorem download_rar_failure_is_final p subtitle w s u r e :
  session p = Some s ->
  subtitle_url subtitle = JStr u ->
  url_accepted X u = true ->
  remote w (List.length (requests w)) u = Ok r ->
  200 <= status_code r < 300 ->
  is_rarfile X (body r) = true ->
  RarFile X (body r) = Raise e ->
  fst (download_subtitle X p subtitle w) = Raise e.
Proof.
  intros Hs Hu Ha Hr Hst Hrar He.
  rewrite (download_subtitle_2xx X p subtitle w s u r Hs Hu Ha Hr Hst).
  unfold bind at 1. unfold _is_archive. rewrite Hrar.
  unfold bind, log, lift. now rewrite He.
Qed.

End DownloadMore.

Lemma download_http_error_witness :
  download_subtitle Fixture.X (Fixture.provider true true false) episode_candidate
    (Fixture.world gone_remote) =
  (Raise HTTPError,
   after_get (Fixture.world gone_remote) "https://jimaku.cc/f/show - 05.srt").
Proof.
  eapply (download_http_error Fixture.X (Fixture.provider true true false)
            episode_candidate (Fixture.world gone_remote));
    first [ reflexivity | simpl; lia ].
Defined.

Lemma download_episode_archive_witness :
  fst (download_subtitle Fixture.X (Fixture.provider true true false) rar_candidate
         (Fixture.world download_remote)) =
  Ok (set_content rar_candidate (Some [x31; x0a])).
Proof.
  eapply (download_episode_archive Fixture.X (Fixture.provider true true false)
            rar_candidate (Fixture.world download_remote) _ _ _ zip_body);
    first [ reflexivity | simpl; lia | right; repeat split ].
Defined.

Lemma download_soft_corruption_witness :
  fst (download_subtitle Fixture.X (Fixture.provider true true false) rar_candidate
         (Fixture.world plain_remote)) = Ok rar_candidate.
Proof.
  eapply (download_soft_corruption Fixture.X (Fixture.provider true true false)
            rar_candidate (Fixture.world plain_remote));
    first [ reflexivity | simpl; lia | split; reflexivity ].
Defined.

Lemma download_plain_body_witness :
  fst (download_subtitle Fixture.X (Fixture.provider true true false) episode_candidate
         (Fixture.world plain_remote)) =
  Ok (set_content episode_candidate (Some plain_body)).
Proof.
  apply (download_plain_body Fixture.X (Fixture.provider true true false)
           episode_candidate (Fixture.world plain_remote)
           {| session_headers := [("Authorization", "secret")] |}
           "https://jimaku.cc/f/show - 05.srt"
           {| status_code := 200; headers := []; body := plain_body;
              json_body := None |});
    first [ reflexivity | simpl; lia | split; reflexivity ].
Defined.

Lemma download_is_not_memoized_witness :
  let p := Fixture.provider true true false in
  let w1 := snd (download_subtitle Fixture.X p episode_candidate
                   (Fixture.world plain_remote)) in
  requests (snd (download_subtitle Fixture.X p episode_candidate w1)) =
    ["https://jimaku.cc/f/show - 05.srt"; "https://jimaku.cc/f/show - 05.srt"] /\
  download_subtitle Fixture.X p schemeless_candidate w1 = (Raise InvalidURL, w1).
Proof.
  intros p w1. split.
  - destruct (download_is_not_memoized Fixture.X p episode_candidate w1
                {| session_headers := [("Authorization", "secret")] |}
                "https://jimaku.cc/f/show - 05.srt" eq_refl eq_refl) as (_ & H & _).
    rewrite (H eq_refl). reflexivity.
  - destruct (download_is_not_memoized Fixture.X p schemeless_candidate w1
                {| session_headers := [("Authorization", "secret")] |}
                "jimaku.cc/f/show - 05.srt" eq_refl eq_refl) as (_ & _ & H).
    exact (H eq_refl).
Defined.

Lemma download_rar_failure_is_final_witness :
  fst (download_subtitle broken_rar (Fixture.provider true true false) rar_candidate
         (Fixture.world download_remote)) = Raise (LibraryError 1).
Proof.
  eapply (download_rar_failure_is_final broken_rar (Fixture.provider true true false)
            rar_candidate (Fixture.world download_remote));
    first [ reflexivity | simpl; lia ].
Defined.

(** ** What a listing never does *)

Section Budget.

Context (X : Externals).

(** a fetch adds at most one request *)
Lemma fetch_requests p url_path w :
  exists l,
    requests (snd (_get_jimaku_response X p url_path w)) = (requests w ++ l)%list /\
    (List.length l <= 1)%nat.
Proof.
  destruct (response_cache w !! (self_id p, url_path)) as [v|] eqn:Hc.
  - exists []. rewrite (fetch_hit X p url_path w v Hc).
    cbn [snd]. rewrite app_nil_r. split; [ reflexivity | simpl; lia ].
  - destruct (session p) as [s|] eqn:Hs.
    + eexists. split; [ eapply fetch_issues_one_get; eauto | simpl; lia ].
    + exists []. rewrite (fetch_miss X p url_path w Hc).
      unfold bind, _get_jimaku_response_body, session_get. rewrite Hs.
      cbn [snd]. rewrite app_nil_r. split; [ reflexivity | simpl; lia ].
Qed.

Lemma assemble_requests p video m w :
  requests (snd (_assemble_jimaku_search_url X p video m w)) = requests w.
Proof.
  unfold _assemble_jimaku_search_url.
  destruct (url_cache_get _ _); [ reflexivity | ].
  unfold _assemble_jimaku_search_url_uncached, bind, log, ret.
  destruct (anilist_id video) as [i|]; [ destruct (negb (i =? 0)) | ]; reflexivity.
Qed.

Lemma only_logs_requests {A} (c : M A) w :
  only_logs c -> requests (snd (c w)) = requests w.
Proof. intros (o & s & H). now rewrite H. Qed.

Lemma files_loop_requests p video entry_id st w :
  exists l,
    requests (snd (_query_files_loop X p video entry_id 2 0 st w)) =
      (requests w ++ l)%list /\
    (List.length l <= 1)%nat.
Proof.
  destruct st as [n d0].
  destruct (fetch_requests p (files_url X video entry_id n) w) as (l & Hl & Hlen).
  exists l. split; [ | exact Hlen ]. rewrite <- Hl.
  destruct (_get_jimaku_response X p (files_url X video entry_id n) w)
    as [[d|e] w1] eqn:Hf.
  - now rewrite (files_loop_of_fetch X p video entry_id n d0 w d w1 Hf).
  - cbn [_query_files_loop fst]. unfold bind at 1.
    unfold _query_files_body. unfold bind at 1. now rewrite Hf.
Qed.

(** X27: a listing issues at most two requests, one for the search and one
    for the file list, whatever the catalog answers. *)
Theorem listing_issues_at_most_two_requests p video w :
  exists l,
    requests (snd (list_subtitles X p video w)) = (requests w ++ l)%list /\
    (List.length l <= 2)%nat.
Proof.
  assert (Hq : exists l,
             requests (snd (_query X p video w)) = (requests w ++ l)%list /\
             (List.length l <= 2)%nat).
  { unfold _query. unfold bind at 1.
    assert (Hsearch : exists l1,
               requests (snd (_query_search X p video w)) = (requests w ++ l1)%list /\
               (List.length l1 <= 1)%nat).
    { unfold _query_search. unfold bind at 1. unfold lift at 1.
      destruct (media_name_of X video) as [m|e];
        [ | exists []; cbn [snd]; rewrite app_nil_r; split; [ reflexivity | simpl; lia ] ].
      unfold bind at 1.
      pose proof (assemble_requests p video m w) as Ha.
      destruct (_assemble_jimaku_search_url X p video m w) as [[url|e] wa];
        cbn [snd] in Ha;
        [ | exists []; cbn [snd]; rewrite app_nil_r; split; [ exact Ha | simpl; lia ] ].
      destruct (fetch_requests p url wa) as (l1 & Hl1 & Hlen1).
      exists l1. rewrite Hl1, Ha. now split. }
    destruct Hsearch as (l1 & Hl1 & Hlen1).
    destruct (_query_search X p video w) as [[d|e] wb]; cbn [snd] in Hl1;
      [ | exists l1; split; [ exact Hl1 | lia ] ].
    destruct (negb (Py.truthy d));
      [ exists l1; split; [ exact Hl1 | lia ] | ].
    unfold bind at 1.
    pose proof (only_logs_requests _ wb (only_logs__query_first_entry d)) as He.
    destruct (_query_first_entry d wb) as [[ids|e] wc]; cbn [snd] in He;
      [ | exists l1; cbn [snd]; rewrite He; split; [ exact Hl1 | lia ] ].
    unfold bind at 1.
    match goal with
    | |- context [_query_files_loop X p video ?i 2 0 ?st wc] =>
        destruct (files_loop_requests p video i st wc) as (l2 & Hl2 & Hlen2);
        destruct (_query_files_loop X p video i 2 0 st wc) as [[fl|e] wd]
    end; cbn [snd] in Hl2.
    2: { exists (l1 ++ l2)%list. cbn [snd]. rewrite Hl2, He, Hl1, <- app_assoc.
         split; [ reflexivity | rewrite length_app; lia ]. }
    destruct fl as [v|[n d2]].
    - exists (l1 ++ l2)%list. unfold ret. cbn [snd].
      rewrite Hl2, He, Hl1, <- app_assoc.
      split; [ reflexivity | rewrite length_app; lia ].
    - unfold bind at 1.
      pose proof (only_logs_requests _ wd
                    (only_logs__query_filter X p video (snd ids) n d2)) as Hfl.
      destruct (_query_filter X p video (snd ids) n d2 wd) as [[subs|e] we];
        cbn [snd] in Hfl; exists (l1 ++ l2)%list; unfold ret; cbn [snd];
        rewrite Hfl, Hl2, He, Hl1, <- app_assoc;
        (split; [ reflexivity | rewrite length_app; lia ]). }
  destruct Hq as (l & Hl & Hlen). exists l. split; [ | exact Hlen ].
  unfold list_subtitles, bind.
  destruct (_query X p video w) as [[[[|x subs]|]|e] wq]; exact Hl.
Qed.

(** X28: the throttling error is out of reach: unless the transport itself
    raises it, no fetch ends with [APIThrottled]. *)
Theorem fetch_never_throttles p url_path w :
  remote w (List.length (requests w)) (api_url ++ "/" ++ url_path) <> Raise APIThrottled ->
  fst (_get_jimaku_response X p url_path w) <> Raise APIThrottled.
Proof.
  intros Hremote.
  destruct (response_cache w !! (self_id p, url_path)) as [v|] eqn:Hc.
  - now rewrite (fetch_hit X p url_path w v Hc).
  - rewrite (fetch_miss X p url_path w Hc). unfold bind at 1.
    destruct (_get_jimaku_response_body X p url_path _ 1 w) as [[[v|u]|e] w1] eqn:Hb;
      [ discriminate | exfalso; eapply _get_jimaku_response_body_returns; eauto | ].
    cbn [fst]. intros [= ->]. revert Hb.
    unfold _get_jimaku_response_body, bind, session_get, lift, ret, raise, log, sleep.
    repeat first
      [ progress intros
      | discriminate
      | congruence
      | match goal with
        | H : (_, _) = (_, _) |- _ => injection H as ? ?; subst
        | H : context [match ?x with _ => _ end] |- _ => destruct x eqn:?
        | H : context [if ?x then _ else _] |- _ => destruct x eqn:?
        end ].
  all: match goal with
       | H : ?o = Raise APIThrottled |- _ =>
           revert H; clear;
           unfold Py.get, Py.len, Py.contains_key, raise_for_status, response_json;
           repeat match goal with
             | |- context [match ?x with _ => _ end] => destruct x
             | |- context [if ?x then _ else _] => destruct x
             end;
           discriminate
       end.
Qed.

End Budget.

Lemma fetch_never_throttles_witness :
  fst (_get_jimaku_response Fixture.X (Fixture.provider true true false)
         "entries/7/files" (Fixture.world always_rate_limited)) <> Raise APIThrottled.
Proof.
  apply (fetch_never_throttles Fixture.X (Fixture.provider true true false)
           "entries/7/files" (Fixture.world always_rate_limited)).
  discriminate.
Defined.
